(** * The streamed-data sub-protocol of papyrus_network

    A shallow embedding of
    - [crates/papyrus_network/src/streamed_data_protocol/handler.rs]
      (one connection handler per connection), and
    - [crates/papyrus_network/src/streamed_data_protocol/behaviour.rs]
      (the network behaviour, one per node),
    together with a small model of the swarm that drives them, so that
    properties of reachable states can be stated.

    Conventions.
    - [usize] values are [Z]s in [0, 2^64); every increment is written with
      its wrap-around ([wrapping_inc]).  [AtomicUsize::fetch_add] always
      wraps; for [value += 1] we use the wrapping (release build) reading.
    - [HashMap] / [HashSet] are stdpp [gmap] / [gset]; their iteration order
      is the order of [map_to_list] / [elements].
    - [VecDeque] is a list: [push_back] appends, [pop_front] takes the head.
    - The payload types [Query], [Data] and [io::Error] stay abstract. *)

From stdpp Require Import gmap strings list.

(* ------------------------------------------------------------------ *)
(** ** Shared types (streamed_data_protocol/mod.rs, libp2p) *)
(* ------------------------------------------------------------------ *)

Module Types.

Definition usize_modulus : Z := 2 ^ 64.

(** [x.wrapping_add(1)] on [usize]. *)
Definition wrapping_inc (x : Z) : Z := (x + 1) mod usize_modulus.

(** [InboundSessionId { value: usize }] and [OutboundSessionId { value }]
    are kept as their [usize] value. *)
Abbreviation InboundSessionId := Z (only parsing).
Abbreviation OutboundSessionId := Z (only parsing).

(** [libp2p::PeerId] and [libp2p::swarm::ConnectionId]: opaque identifiers. *)
Abbreviation PeerId := nat (only parsing).
Abbreviation ConnectionId := nat (only parsing).

(** [enum SessionId { InboundSessionId(..), OutboundSessionId(..) }]. *)
Inductive SessionId :=
  | SessionId_Inbound (inbound_session_id : InboundSessionId)
  | SessionId_Outbound (outbound_session_id : OutboundSessionId).

#[global] Instance SessionId_eq_dec : EqDecision SessionId.
Proof. solve_decision. Defined.

#[global] Instance SessionId_countable : Countable SessionId.
Proof.
  refine (inj_countable'
    (fun s => match s with
              | SessionId_Inbound i => inl i
              | SessionId_Outbound o => inr o
              end)
    (fun x => match x with
              | inl i => SessionId_Inbound i
              | inr o => SessionId_Outbound o
              end) _).
  by intros [].
Defined.

(** [std::time::Duration], in seconds. *)
Abbreviation Duration := N (only parsing).

(** [struct Config { protocol_name, substream_timeout }]. *)
Record Config := {
  protocol_name : string;
  substream_timeout : Duration;
}.

(** [std::task::Poll]. *)
Inductive Poll (T : Type) :=
  | Pending
  | Ready (t : T).
Arguments Pending {T}.
Arguments Ready {T} t.

(** [Result<T, E>]. *)
Inductive Result (T E : Type) :=
  | Ok (t : T)
  | Err (e : E).
Arguments Ok {T E} t.
Arguments Err {T E} e.

Section Events.
Context {Query Data : Type}.

(** [enum GenericEvent<Query, Data, SessionError>]. *)
Inductive GenericEvent (E : Type) :=
  | NewInboundSession (query : Query) (inbound_session_id : InboundSessionId)
      (peer_id : PeerId)
  | ReceivedData (outbound_session_id : OutboundSessionId) (data : Data)
  | SessionFailed (session_id : SessionId) (error : E)
  | SessionClosedByRequest (session_id : SessionId)
  | SessionClosedByPeer (session_id : SessionId).

(** [RequestFromBehaviourEvent<Query, Data>] (handler.rs). *)
Inductive RequestFromBehaviourEvent :=
  | CreateOutboundSession (query : Query) (outbound_session_id : OutboundSessionId)
  | SendData (data : Data) (inbound_session_id : InboundSessionId)
  | CloseSession (session_id : SessionId).

End Events.

Arguments GenericEvent : clear implicits.
Arguments NewInboundSession {Query Data E} query inbound_session_id peer_id.
Arguments ReceivedData {Query Data E} outbound_session_id data.
Arguments SessionFailed {Query Data E} session_id error.
Arguments SessionClosedByRequest {Query Data E} session_id.
Arguments SessionClosedByPeer {Query Data E} session_id.
Arguments RequestFromBehaviourEvent : clear implicits.

(** The terminal events: those that end a session. *)
Definition terminal_session_id {Query Data E} (e : GenericEvent Query Data E)
    : option SessionId :=
  match e with
  | SessionFailed sid _ | SessionClosedByRequest sid
  | SessionClosedByPeer sid => Some sid
  | _ => None
  end.

(** [HashMap::retain]: every entry is visited once, in iteration order; the
    closure may mutate the value in place ([Some v']) or drop the entry
    ([None]); it also threads a queue of events it pushes to. *)
Fixpoint retain_loop {K V Ev : Type} `{Countable K}
    (f : K -> V -> list Ev -> option V * list Ev)
    (kvs : list (K * V)) (m : gmap K V) (evs : list Ev) : gmap K V * list Ev :=
  match kvs with
  | [] => (m, evs)
  | (k, v) :: rest =>
      let '(ov, evs') := f k v evs in
      let m' := match ov with Some v' => <[k := v']> m | None => delete k m end in
      retain_loop f rest m' evs'
  end.

Definition hashmap_retain {K V Ev : Type} `{Countable K}
    (f : K -> V -> list Ev -> option V * list Ev)
    (m : gmap K V) (evs : list Ev) : gmap K V * list Ev :=
  retain_loop f (map_to_list m) m evs.

End Types.
Import Types.

(* ------------------------------------------------------------------ *)
(** ** The connection handler (handler.rs) *)
(* ------------------------------------------------------------------ *)

Module Handler.
Section Handler.
Context {Query Data IoError : Type}.

(** [handler::SessionError]. *)
Inductive SessionError :=
  | Timeout (substream_timeout : Duration)
  | IOError (error : IoError)
  | RemoteDoesntSupportProtocol (protocol_name : string).

Definition ToBehaviourEvent := GenericEvent Query Data SessionError.

(** [HandlerEvent<Self>] = [ConnectionHandlerEvent<OutboundProtocol,
    OutboundOpenInfo, ToBehaviour>]; the [OutboundSubstreamRequest] carries
    [SubstreamProtocol::new(OutboundProtocol { query, protocol_name },
    outbound_session_id).with_timeout(substream_timeout)], flattened. *)
Inductive HandlerEvent :=
  | NotifyBehaviour (event : ToBehaviourEvent)
  | OutboundSubstreamRequest (query : Query) (protocol_name : string)
      (outbound_session_id : OutboundSessionId) (timeout : Duration).

(** *** Inbound session engine (handler/session.rs) *)

(** [session::FinishReason]. *)
Inductive FinishReason :=
  | Success
  | Error (io_error : IoError).

(** One readiness step of the substream's write side, as the executor
    would report it when the engine writes a frame or closes. *)
Inductive IoStep :=
  | IoReady
  | IoBlocked
  | IoFail (io_error : IoError).

(** Modelled from the spec: [InboundSession] (handler/session.rs is not part
    of the sources).  The engine holds the frames queued by the
    application, whether it is closing, the frames already written to the
    wire, and the remaining readiness of its substream.  [add_message_to_queue]
    appends unless the engine is closing; [is_waiting] holds iff nothing is
    queued and the engine is not closing; [start_closing] moves to closing;
    polling writes the queued frames in order, then (when closing) closes
    the write half, and yields [Ready(FinishReason)] when it finishes;
    any I/O error finishes it with [Error]. *)
Record InboundSession := {
  is_closing : bool;
  queue : list Data;
  written : list Data;
  substream : list IoStep;
}.

Definition InboundSession_new (stream : list IoStep) : InboundSession :=
  {| is_closing := false; queue := []; written := []; substream := stream |}.

Definition add_message_to_queue (data : Data) (s : InboundSession) : InboundSession :=
  if is_closing s then s
  else {| is_closing := false; queue := queue s ++ [data];
          written := written s; substream := substream s |}.

Definition is_waiting (s : InboundSession) : bool :=
  match queue s with [] => negb (is_closing s) | _ => false end.

Definition start_closing (s : InboundSession) : InboundSession :=
  {| is_closing := true; queue := queue s; written := written s;
     substream := substream s |}.

Fixpoint poll_inbound_engine (closing : bool) (q w : list Data) (io : list IoStep)
    : Poll FinishReason * InboundSession :=
  let st q w io := {| is_closing := closing; queue := q; written := w;
                      substream := io |} in
  match q with
  | d :: q' =>
      match io with
      | [] => (Pending, st q w [])
      | IoFail e :: io' => (Ready (Error e), st q w io')
      | IoBlocked :: io' => (Pending, st q w io')
      | IoReady :: io' => poll_inbound_engine closing q' (w ++ [d]) io'
      end
  | [] =>
      if closing then
        match io with
        | [] => (Pending, st [] w [])
        | IoFail e :: io' => (Ready (Error e), st [] w io')
        | IoBlocked :: io' => (Pending, st [] w io')
        | IoReady :: io' => (Ready Success, st [] w io')
        end
      else (Pending, st [] w io)
  end.

(** [inbound_session.poll_unpin(cx)]. *)
Definition poll_unpin (s : InboundSession) : Poll FinishReason * InboundSession :=
  poll_inbound_engine (is_closing s) (queue s) (written s) (substream s).

(** *** Outbound session engine (the [stream!] block of [on_connection_event]) *)

(** What [read_message::<Data, _>(&mut stream).await] produces at successive
    polls of the substream: a frame, end of stream, an error, or not ready. *)
Inductive ReadResult :=
  | ReadData (data : Data)
  | ReadEof
  | ReadErr (error : IoError)
  | ReadBlocked.

(** The boxed stream: the reads still to come and whether the [loop] has
    been left ([break]). *)
Record OutboundSession := {
  reads : list ReadResult;
  finished : bool;
}.

(** [outbound_session.poll_next_unpin(cx)]: one step of
    [loop { match read_message(..) { Ok(Some(d)) => yield Ok(d),
    Ok(None) => break, Err(e) => { yield Err(e); break } } }]. *)
Definition poll_next_unpin (s : OutboundSession)
    : Poll (option (Result Data IoError)) * OutboundSession :=
  if finished s then (Ready None, s) else
  match reads s with
  | [] => (Pending, s)
  | ReadBlocked :: r => (Pending, {| reads := r; finished := false |})
  | ReadData d :: r => (Ready (Some (Ok d)), {| reads := r; finished := false |})
  | ReadEof :: r => (Ready None, {| reads := r; finished := true |})
  | ReadErr e :: r => (Ready (Some (Err e)), {| reads := r; finished := true |})
  end.

(** *** The handler *)

(** [struct Handler]; [next_inbound_session_id] is the shared
    [Arc<AtomicUsize>] and lives in the store of the swarm model. *)
Record Handler := {
  config : Config;
  peer_id : PeerId;
  id_to_inbound_session : gmap InboundSessionId InboundSession;
  id_to_outbound_session : gmap OutboundSessionId OutboundSession;
  pending_events : list HandlerEvent;
  inbound_sessions_marked_to_end : gset InboundSessionId;
}.

Definition new (config : Config) (peer_id : PeerId) : Handler :=
  {| config := config; peer_id := peer_id; id_to_inbound_session := ∅;
     id_to_outbound_session := ∅; pending_events := [];
     inbound_sessions_marked_to_end := ∅ |}.

Definition set_pending_events (h : Handler) (evs : list HandlerEvent) : Handler :=
  {| config := config h; peer_id := peer_id h;
     id_to_inbound_session := id_to_inbound_session h;
     id_to_outbound_session := id_to_outbound_session h;
     pending_events := evs;
     inbound_sessions_marked_to_end := inbound_sessions_marked_to_end h |}.

Definition push_back (h : Handler) (ev : HandlerEvent) : Handler :=
  set_pending_events h (pending_events h ++ [ev]).

(** [SubstreamProtocol::new(InboundProtocol::new(protocol_name),
    InboundSessionId { value }).with_timeout(substream_timeout)]. *)
Record ListenProtocol := {
  listen_protocol_name : string;
  listen_info : InboundSessionId;
  listen_timeout : Duration;
}.

(** [listen_protocol]: [fetch_add(1, AcqRel)] on the shared counter returns
    its previous value and stores the wrapped successor.  The counter is
    passed in and returned. *)
Definition listen_protocol (h : Handler) (next_inbound_session_id : Z)
    : ListenProtocol * Z :=
  ({| listen_protocol_name := protocol_name (config h);
      listen_info := next_inbound_session_id;
      listen_timeout := substream_timeout (config h) |},
   wrapping_inc next_inbound_session_id).

(** [Handler::poll_inbound_session]: returns whether the session finished. *)
Definition poll_inbound_session (inbound_session : InboundSession)
    (inbound_session_id : InboundSessionId) (pending : list HandlerEvent)
    : bool * InboundSession * list HandlerEvent :=
  match poll_unpin inbound_session with
  | (Pending, s') => (false, s', pending)
  | (Ready finish_reason, s') =>
      let pending' :=
        match finish_reason with
        | Error io_error =>
            pending ++ [NotifyBehaviour
                          (SessionFailed (SessionId_Inbound inbound_session_id)
                                         (IOError io_error))]
        | Success => pending
        end in
      (true, s', pending')
  end.

(** The closure given to [id_to_inbound_session.retain] in [poll]. *)
Definition inbound_retain_step (marked : gset InboundSessionId)
    (inbound_session_id : InboundSessionId) (inbound_session : InboundSession)
    (pending : list HandlerEvent) : option InboundSession * list HandlerEvent :=
  let '(fin, s1, pending1) :=
    poll_inbound_session inbound_session inbound_session_id pending in
  if fin then (None, pending1) else
  if bool_decide (inbound_session_id ∈ marked) && is_waiting s1 then
    let s2 := start_closing s1 in
    let '(fin2, s3, pending2) := poll_inbound_session s2 inbound_session_id pending1 in
    if fin2 then (None, pending2) else (Some s3, pending2)
  else (Some s1, pending1).

(** The closure given to [id_to_outbound_session.retain] in [poll]. *)
Definition outbound_retain_step (outbound_session_id : OutboundSessionId)
    (outbound_session : OutboundSession) (pending : list HandlerEvent)
    : option OutboundSession * list HandlerEvent :=
  match poll_next_unpin outbound_session with
  | (Ready (Some (Ok data)), s') =>
      (Some s', pending ++ [NotifyBehaviour (ReceivedData outbound_session_id data)])
  | (Ready (Some (Err io_error)), _) =>
      (None, pending ++ [NotifyBehaviour
                           (SessionFailed (SessionId_Outbound outbound_session_id)
                                          (IOError io_error))])
  | (Ready None, _) =>
      (None, pending ++ [NotifyBehaviour
                           (SessionClosedByPeer (SessionId_Outbound outbound_session_id))])
  | (Pending, s') => (Some s', pending)
  end.

(** [ConnectionHandler::poll]: both retain passes, then one pending event. *)
Definition poll (h : Handler) : Poll HandlerEvent * Handler :=
  let '(inbound', pending1) :=
    hashmap_retain (inbound_retain_step (inbound_sessions_marked_to_end h))
      (id_to_inbound_session h) (pending_events h) in
  let '(outbound', pending2) :=
    hashmap_retain outbound_retain_step (id_to_outbound_session h) pending1 in
  let mk evs := {| config := config h; peer_id := peer_id h;
                   id_to_inbound_session := inbound';
                   id_to_outbound_session := outbound';
                   pending_events := evs;
                   inbound_sessions_marked_to_end :=
                     inbound_sessions_marked_to_end h |} in
  match pending2 with
  | event :: rest => (Ready event, mk rest)
  | [] => (Pending, mk [])
  end.

(** [ConnectionHandler::on_behaviour_event]. *)
Definition on_behaviour_event (h : Handler)
    (event : RequestFromBehaviourEvent Query Data) : Handler :=
  match event with
  | CreateOutboundSession query outbound_session_id =>
      push_back h (OutboundSubstreamRequest query (protocol_name (config h))
                     outbound_session_id (substream_timeout (config h)))
  | SendData data inbound_session_id =>
      match id_to_inbound_session h !! inbound_session_id with
      | Some inbound_session =>
          if bool_decide (inbound_session_id ∈ inbound_sessions_marked_to_end h)
          then h  (* debug!(..): ignoring request *)
          else {| config := config h; peer_id := peer_id h;
                  id_to_inbound_session :=
                    <[inbound_session_id := add_message_to_queue data inbound_session]>
                      (id_to_inbound_session h);
                  id_to_outbound_session := id_to_outbound_session h;
                  pending_events := pending_events h;
                  inbound_sessions_marked_to_end := inbound_sessions_marked_to_end h |}
      | None => h  (* debug!(..): ignoring request *)
      end
  | CloseSession (SessionId_Inbound inbound_session_id) =>
      let h' := {| config := config h; peer_id := peer_id h;
                   id_to_inbound_session := id_to_inbound_session h;
                   id_to_outbound_session := id_to_outbound_session h;
                   pending_events := pending_events h;
                   inbound_sessions_marked_to_end :=
                     {[inbound_session_id]} ∪ inbound_sessions_marked_to_end h |} in
      push_back h' (NotifyBehaviour
                      (SessionClosedByRequest (SessionId_Inbound inbound_session_id)))
  | CloseSession (SessionId_Outbound outbound_session_id) =>
      let h' := {| config := config h; peer_id := peer_id h;
                   id_to_inbound_session := id_to_inbound_session h;
                   id_to_outbound_session :=
                     delete outbound_session_id (id_to_outbound_session h);
                   pending_events := pending_events h;
                   inbound_sessions_marked_to_end := inbound_sessions_marked_to_end h |} in
      push_back h' (NotifyBehaviour
                      (SessionClosedByRequest (SessionId_Outbound outbound_session_id)))
  end.

(** [libp2p::swarm::StreamUpgradeError]. *)
Inductive StreamUpgradeError :=
  | UpgradeTimeout
  | UpgradeApply (error : IoError)
  | UpgradeNegotiationFailed
  | UpgradeIo (error : IoError).

(** The [ConnectionEvent]s the handler distinguishes; a negotiated
    substream is represented by what its engine will observe. *)
Inductive ConnectionEvent :=
  | FullyNegotiatedOutbound (stream : list ReadResult) (info : OutboundSessionId)
  | FullyNegotiatedInbound (query : Query) (stream : list IoStep)
      (info : InboundSessionId)
  | DialUpgradeError (info : OutboundSessionId) (error : StreamUpgradeError)
  | ListenUpgradeError (info : InboundSessionId)
  | OtherConnectionEvent.

(** [ConnectionHandler::on_connection_event]. *)
Definition on_connection_event (h : Handler) (event : ConnectionEvent) : Handler :=
  match event with
  | FullyNegotiatedOutbound stream outbound_session_id =>
      {| config := config h; peer_id := peer_id h;
         id_to_inbound_session := id_to_inbound_session h;
         id_to_outbound_session :=
           <[outbound_session_id := {| reads := stream; finished := false |}]>
             (id_to_outbound_session h);
         pending_events := pending_events h;
         inbound_sessions_marked_to_end := inbound_sessions_marked_to_end h |}
  | FullyNegotiatedInbound query stream inbound_session_id =>
      let h' := push_back h (NotifyBehaviour
                  (NewInboundSession query inbound_session_id (peer_id h))) in
      {| config := config h'; peer_id := peer_id h';
         id_to_inbound_session :=
           <[inbound_session_id := InboundSession_new stream]>
             (id_to_inbound_session h');
         id_to_outbound_session := id_to_outbound_session h';
         pending_events := pending_events h';
         inbound_sessions_marked_to_end := inbound_sessions_marked_to_end h' |}
  | DialUpgradeError outbound_session_id upgrade_error =>
      let session_error :=
        match upgrade_error with
        | UpgradeTimeout => Timeout (substream_timeout (config h))
        | UpgradeApply e => IOError e
        | UpgradeNegotiationFailed => RemoteDoesntSupportProtocol (protocol_name (config h))
        | UpgradeIo e => IOError e
        end in
      push_back h (NotifyBehaviour
                     (SessionFailed (SessionId_Outbound outbound_session_id) session_error))
  | ListenUpgradeError _ | OtherConnectionEvent => h
  end.

End Handler.

Arguments SessionError : clear implicits.
Arguments ToBehaviourEvent : clear implicits.
Arguments HandlerEvent : clear implicits.
Arguments FinishReason : clear implicits.
Arguments IoStep : clear implicits.
Arguments InboundSession : clear implicits.
Arguments ReadResult : clear implicits.
Arguments OutboundSession : clear implicits.
Arguments Handler : clear implicits.
Arguments StreamUpgradeError : clear implicits.
Arguments ConnectionEvent : clear implicits.

End Handler.

(* ------------------------------------------------------------------ *)
(** ** The network behaviour (behaviour.rs) *)
(* ------------------------------------------------------------------ *)

Module Behaviour.
Section Behaviour.
Context {Query Data IoError : Type}.

(** [behaviour::SessionError]: the handler's errors and [ConnectionClosed]. *)
Inductive SessionError :=
  | Timeout (substream_timeout : Duration)
  | IOError (error : IoError)
  | RemoteDoesntSupportProtocol (protocol_name : string)
  | ConnectionClosed.

Definition Event := GenericEvent Query Data SessionError.

(** [impl From<GenericEvent<.., HandlerSessionError>> for GenericEvent<..,
    SessionError>]. *)
Definition convert_event (event : Handler.ToBehaviourEvent Query Data IoError) : Event :=
  match event with
  | NewInboundSession query inbound_session_id peer_id =>
      NewInboundSession query inbound_session_id peer_id
  | ReceivedData outbound_session_id data => ReceivedData outbound_session_id data
  | SessionFailed session_id (Handler.Timeout substream_timeout) =>
      SessionFailed session_id (Timeout substream_timeout)
  | SessionFailed session_id (Handler.IOError error) =>
      SessionFailed session_id (IOError error)
  | SessionFailed session_id (Handler.RemoteDoesntSupportProtocol protocol_name) =>
      SessionFailed session_id (RemoteDoesntSupportProtocol protocol_name)
  | SessionClosedByRequest session_id => SessionClosedByRequest session_id
  | SessionClosedByPeer session_id => SessionClosedByPeer session_id
  end.

(** [libp2p::swarm::NotifyHandler]. *)
Inductive NotifyHandlerTarget :=
  | One (connection_id : ConnectionId)
  | Any.

(** The [ToSwarm] variants the behaviour produces. *)
Inductive ToSwarm :=
  | GenerateEvent (event : Event)
  | NotifyHandler (peer_id : PeerId) (handler : NotifyHandlerTarget)
      (event : RequestFromBehaviourEvent Query Data).

Inductive SessionIdNotFoundError := session_id_not_found_error.
Inductive PeerNotConnected := peer_not_connected.

(** [struct Behaviour]; [next_inbound_session_id] is the shared
    [Arc<AtomicUsize>] and lives in the store of the swarm model. *)
Record Behaviour := {
  config : Config;
  pending_events : list ToSwarm;
  pending_queries : gmap PeerId (list (Query * OutboundSessionId));
  connection_ids_map : gmap PeerId (gset ConnectionId);
  session_id_to_peer_id_and_connection_id : gmap SessionId (PeerId * ConnectionId);
  next_outbound_session_id : OutboundSessionId;
}.

Definition new (config : Config) : Behaviour :=
  {| config := config; pending_events := []; pending_queries := ∅;
     connection_ids_map := ∅; session_id_to_peer_id_and_connection_id := ∅;
     next_outbound_session_id := 0 |}.

Definition set_pending_events (b : Behaviour) (evs : list ToSwarm) : Behaviour :=
  {| config := config b; pending_events := evs; pending_queries := pending_queries b;
     connection_ids_map := connection_ids_map b;
     session_id_to_peer_id_and_connection_id := session_id_to_peer_id_and_connection_id b;
     next_outbound_session_id := next_outbound_session_id b |}.

Definition set_session_table (b : Behaviour)
    (t : gmap SessionId (PeerId * ConnectionId)) : Behaviour :=
  {| config := config b; pending_events := pending_events b;
     pending_queries := pending_queries b; connection_ids_map := connection_ids_map b;
     session_id_to_peer_id_and_connection_id := t;
     next_outbound_session_id := next_outbound_session_id b |}.

Definition push_back (b : Behaviour) (ev : ToSwarm) : Behaviour :=
  set_pending_events b (pending_events b ++ [ev]).

(** [DefaultHashMap::get]: the stored set, or the default (empty) one. *)
Definition connection_ids_of (b : Behaviour) (peer_id : PeerId) : gset ConnectionId :=
  default ∅ (connection_ids_map b !! peer_id).

(** [Behaviour::send_query]: [get(peer_id).iter().next()] takes the first
    connection id in the set's iteration order. *)
Definition send_query (b : Behaviour) (query : Query) (peer_id : PeerId)
    : Result OutboundSessionId PeerNotConnected * Behaviour :=
  match head (elements (connection_ids_of b peer_id)) with
  | None => (Err peer_not_connected, b)
  | Some connection_id =>
      let outbound_session_id := next_outbound_session_id b in
      (Ok outbound_session_id,
       {| config := config b;
          pending_events :=
            pending_events b ++
              [NotifyHandler peer_id (One connection_id)
                 (CreateOutboundSession query outbound_session_id)];
          pending_queries := pending_queries b;
          connection_ids_map := connection_ids_map b;
          session_id_to_peer_id_and_connection_id :=
            <[SessionId_Outbound outbound_session_id := (peer_id, connection_id)]>
              (session_id_to_peer_id_and_connection_id b);
          next_outbound_session_id := wrapping_inc outbound_session_id |})
  end.

Definition get_peer_id_and_connection_id_from_session_id (b : Behaviour)
    (session_id : SessionId) : Result (PeerId * ConnectionId) SessionIdNotFoundError :=
  match session_id_to_peer_id_and_connection_id b !! session_id with
  | Some pc => Ok pc
  | None => Err session_id_not_found_error
  end.

(** [Behaviour::send_data]. *)
Definition send_data (b : Behaviour) (data : Data) (inbound_session_id : InboundSessionId)
    : Result unit SessionIdNotFoundError * Behaviour :=
  match get_peer_id_and_connection_id_from_session_id b
          (SessionId_Inbound inbound_session_id) with
  | Err e => (Err e, b)
  | Ok (peer_id, connection_id) =>
      (Ok tt, push_back b (NotifyHandler peer_id (One connection_id)
                             (SendData data inbound_session_id)))
  end.

(** [Behaviour::close_session]. *)
Definition close_session (b : Behaviour) (session_id : SessionId)
    : Result unit SessionIdNotFoundError * Behaviour :=
  match get_peer_id_and_connection_id_from_session_id b session_id with
  | Err e => (Err e, b)
  | Ok (peer_id, connection_id) =>
      (Ok tt, push_back b (NotifyHandler peer_id (One connection_id)
                             (CloseSession session_id)))
  end.

(** The [FromSwarm] events the behaviour distinguishes. *)
Inductive FromSwarm :=
  | FromSwarm_ConnectionEstablished (peer_id : PeerId) (connection_id : ConnectionId)
  | FromSwarm_ConnectionClosed (peer_id : PeerId) (connection_id : ConnectionId)
  | FromSwarm_Other.

(** The closure given to [session_id_to_peer_id_and_connection_id.retain]
    on [ConnectionClosed]. *)
Definition connection_closed_retain_step (peer_id : PeerId)
    (connection_id : ConnectionId) (session_id : SessionId)
    (binding : PeerId * ConnectionId) (pending : list ToSwarm)
    : option (PeerId * ConnectionId) * list ToSwarm :=
  let '(session_peer_id, session_connection_id) := binding in
  if bool_decide (peer_id = session_peer_id /\ connection_id = session_connection_id)
  then (None, pending ++ [GenerateEvent (SessionFailed session_id ConnectionClosed)])
  else (Some binding, pending).

(** [NetworkBehaviour::on_swarm_event]. *)
Definition on_swarm_event (b : Behaviour) (event : FromSwarm) : Behaviour :=
  match event with
  | FromSwarm_ConnectionEstablished peer_id connection_id =>
      {| config := config b; pending_events := pending_events b;
         pending_queries := pending_queries b;
         connection_ids_map :=
           <[peer_id := {[connection_id]} ∪ connection_ids_of b peer_id]>
             (connection_ids_map b);
         session_id_to_peer_id_and_connection_id :=
           session_id_to_peer_id_and_connection_id b;
         next_outbound_session_id := next_outbound_session_id b |}
  | FromSwarm_ConnectionClosed peer_id connection_id =>
      let '(table', pending') :=
        hashmap_retain (connection_closed_retain_step peer_id connection_id)
          (session_id_to_peer_id_and_connection_id b) (pending_events b) in
      {| config := config b; pending_events := pending';
         pending_queries := pending_queries b;
         connection_ids_map := connection_ids_map b;
         session_id_to_peer_id_and_connection_id := table';
         next_outbound_session_id := next_outbound_session_id b |}
  | FromSwarm_Other => b
  end.

(** [NetworkBehaviour::on_connection_handler_event]. *)
Definition on_connection_handler_event (b : Behaviour) (peer_id : PeerId)
    (connection_id : ConnectionId) (event : Handler.ToBehaviourEvent Query Data IoError)
    : Behaviour :=
  let converted_event := convert_event event in
  let table := session_id_to_peer_id_and_connection_id b in
  let table' :=
    match converted_event with
    | NewInboundSession _ inbound_session_id _ =>
        <[SessionId_Inbound inbound_session_id := (peer_id, connection_id)]> table
    | SessionFailed session_id _ | SessionClosedByRequest session_id =>
        delete session_id table
    | SessionClosedByPeer session_id => delete session_id table
    | ReceivedData _ _ => table
    end in
  push_back (set_session_table b table') (GenerateEvent converted_event).

(** [NetworkBehaviour::poll]. *)
Definition poll (b : Behaviour) : Poll ToSwarm * Behaviour :=
  match pending_events b with
  | event :: rest => (Ready event, set_pending_events b rest)
  | [] => (Pending, b)
  end.

End Behaviour.

Arguments SessionError : clear implicits.
Arguments Event : clear implicits.
Arguments ToSwarm : clear implicits.
Arguments Behaviour : clear implicits.

End Behaviour.

(* ------------------------------------------------------------------ *)
(** ** The swarm driving one behaviour and its handlers *)
(* ------------------------------------------------------------------ *)

(** The swarm (libp2p, not part of the sources) is modelled by the calls it
    makes into the behaviour and the handlers: connection establishment
    ([handle_established_*_connection] creating a [Handler::new] that
    shares the behaviour's counter, then [ConnectionEstablished]),
    connection closure (the handler is dropped, then [ConnectionClosed]),
    the application's calls, delivery of the behaviour's [ToSwarm] events,
    polling of a handler and routing of what it returns, and substream
    negotiation ([listen_protocol] then [FullyNegotiatedInbound] or
    [ListenUpgradeError]; an [OutboundSubstreamRequest] then
    [FullyNegotiatedOutbound] or [DialUpgradeError]). *)
Module Swarm.
Section Swarm.
Context {Query Data IoError : Type}.

Record Swarm := {
  behaviour : Behaviour.Behaviour Query Data IoError;
  (** the [Arc<AtomicUsize>] created by [Behaviour::new] and cloned into
      every handler *)
  next_inbound_session_id : Z;
  handlers : gmap ConnectionId (Handler.Handler Query Data IoError);
  (** outbound substreams requested by a handler, being negotiated *)
  outbound_upgrades : list (ConnectionId * Query * OutboundSessionId);
  (** inbound substreams being negotiated, with the id [listen_protocol]
      gave them *)
  inbound_upgrades : list (ConnectionId * InboundSessionId);
  (** the events the behaviour has returned to the application *)
  delivered : list (Behaviour.Event Query Data IoError);
  next_connection_id : ConnectionId;
}.

Definition init (config : Config) : Swarm :=
  {| behaviour := Behaviour.new config; next_inbound_session_id := 0;
     handlers := ∅; outbound_upgrades := []; inbound_upgrades := [];
     delivered := []; next_connection_id := 0 |}.

Definition mk (b : Behaviour.Behaviour Query Data IoError) (n : Z)
    (hs : gmap ConnectionId (Handler.Handler Query Data IoError))
    (ou : list (ConnectionId * Query * OutboundSessionId))
    (iu : list (ConnectionId * InboundSessionId))
    (d : list (Behaviour.Event Query Data IoError)) (c : ConnectionId) : Swarm :=
  {| behaviour := b; next_inbound_session_id := n; handlers := hs;
     outbound_upgrades := ou; inbound_upgrades := iu; delivered := d;
     next_connection_id := c |}.

Definition with_behaviour (s : Swarm) (b : Behaviour.Behaviour Query Data IoError) :=
  mk b (next_inbound_session_id s) (handlers s) (outbound_upgrades s)
     (inbound_upgrades s) (delivered s) (next_connection_id s).

Definition with_handlers (s : Swarm)
    (hs : gmap ConnectionId (Handler.Handler Query Data IoError)) :=
  mk (behaviour s) (next_inbound_session_id s) hs (outbound_upgrades s)
     (inbound_upgrades s) (delivered s) (next_connection_id s).

(** A new connection to [peer_id]. *)
Definition connect (s : Swarm) (peer_id : PeerId) : Swarm :=
  let c := next_connection_id s in
  let b := behaviour s in
  mk (Behaviour.on_swarm_event b (Behaviour.FromSwarm_ConnectionEstablished peer_id c))
     (next_inbound_session_id s)
     (<[c := Handler.new (Behaviour.config b) peer_id]> (handlers s))
     (outbound_upgrades s) (inbound_upgrades s) (delivered s) (S c).

(** Connection [c] closes: its handler and its negotiations are dropped. *)
Definition disconnect (s : Swarm) (c : ConnectionId) (h : Handler.Handler Query Data IoError)
    : Swarm :=
  mk (Behaviour.on_swarm_event (behaviour s)
        (Behaviour.FromSwarm_ConnectionClosed (Handler.peer_id h) c))
     (next_inbound_session_id s) (delete c (handlers s))
     (filter (fun u => u.1.1 <> c) (outbound_upgrades s))
     (filter (fun u => u.1 <> c) (inbound_upgrades s))
     (delivered s) (next_connection_id s).

(** The swarm acts on one [ToSwarm] event returned by [Behaviour::poll]:
    a [NotifyHandler::One(c)] reaches the handler of [c] if the connection
    still exists and is dropped otherwise. *)
Definition route_to_swarm (s : Swarm) (ev : Behaviour.ToSwarm Query Data IoError) : Swarm :=
  match ev with
  | Behaviour.GenerateEvent e =>
      mk (behaviour s) (next_inbound_session_id s) (handlers s) (outbound_upgrades s)
         (inbound_upgrades s) (delivered s ++ [e]) (next_connection_id s)
  | Behaviour.NotifyHandler _ (Behaviour.One c) rq =>
      match handlers s !! c with
      | Some h => with_handlers s (<[c := Handler.on_behaviour_event h rq]> (handlers s))
      | None => s
      end
  | Behaviour.NotifyHandler _ Behaviour.Any _ => s
  end.

Definition behaviour_poll (s : Swarm) : Swarm :=
  match Behaviour.poll (behaviour s) with
  | (Ready ev, b') => route_to_swarm (with_behaviour s b') ev
  | (Pending, _) => s
  end.

(** The swarm polls the handler of connection [c]. *)
Definition handler_poll (s : Swarm) (c : ConnectionId) (h : Handler.Handler Query Data IoError)
    : Swarm :=
  let '(r, h') := Handler.poll h in
  let s' := with_handlers s (<[c := h']> (handlers s)) in
  match r with
  | Pending => s'
  | Ready (Handler.NotifyBehaviour e) =>
      with_behaviour s' (Behaviour.on_connection_handler_event (behaviour s')
                           (Handler.peer_id h) c e)
  | Ready (Handler.OutboundSubstreamRequest q _ o _) =>
      mk (behaviour s') (next_inbound_session_id s') (handlers s')
         (outbound_upgrades s' ++ [(c, q, o)]) (inbound_upgrades s')
         (delivered s') (next_connection_id s')
  end.

(** The remote opens a substream on [c]: [listen_protocol] allocates its id. *)
Definition inbound_substream (s : Swarm) (c : ConnectionId)
    (h : Handler.Handler Query Data IoError) : Swarm :=
  let '(lp, n') := Handler.listen_protocol h (next_inbound_session_id s) in
  mk (behaviour s) n' (handlers s) (outbound_upgrades s)
     (inbound_upgrades s ++ [(c, Handler.listen_info lp)]) (delivered s)
     (next_connection_id s).

(** A connection event for the handler of [c]. *)
Definition connection_event (s : Swarm) (c : ConnectionId)
    (h : Handler.Handler Query Data IoError)
    (ev : Handler.ConnectionEvent Query Data IoError) : Swarm :=
  with_handlers s (<[c := Handler.on_connection_event h ev]> (handlers s)).

Definition set_upgrades (s : Swarm) (ou : list (ConnectionId * Query * OutboundSessionId))
    (iu : list (ConnectionId * InboundSessionId)) : Swarm :=
  mk (behaviour s) (next_inbound_session_id s) (handlers s) ou iu (delivered s)
     (next_connection_id s).

Inductive step : Swarm -> Swarm -> Prop :=
  | step_connect s peer_id :
      step s (connect s peer_id)
  | step_disconnect s c h :
      handlers s !! c = Some h ->
      step s (disconnect s c h)
  | step_send_query s query peer_id :
      step s (with_behaviour s (Behaviour.send_query (behaviour s) query peer_id).2)
  | step_send_data s data inbound_session_id :
      step s (with_behaviour s (Behaviour.send_data (behaviour s) data inbound_session_id).2)
  | step_close_session s session_id :
      step s (with_behaviour s (Behaviour.close_session (behaviour s) session_id).2)
  | step_behaviour_poll s :
      step s (behaviour_poll s)
  | step_handler_poll s c h :
      handlers s !! c = Some h ->
      step s (handler_poll s c h)
  | step_inbound_substream s c h :
      handlers s !! c = Some h ->
      step s (inbound_substream s c h)
  | step_inbound_negotiated s c h i query stream l1 l2 :
      handlers s !! c = Some h ->
      inbound_upgrades s = l1 ++ (c, i) :: l2 ->
      step s (connection_event (set_upgrades s (outbound_upgrades s) (l1 ++ l2)) c h
                (Handler.FullyNegotiatedInbound query stream i))
  | step_inbound_failed s c h i l1 l2 :
      handlers s !! c = Some h ->
      inbound_upgrades s = l1 ++ (c, i) :: l2 ->
      step s (connection_event (set_upgrades s (outbound_upgrades s) (l1 ++ l2)) c h
                (Handler.ListenUpgradeError i))
  | step_outbound_negotiated s c h q o stream l1 l2 :
      handlers s !! c = Some h ->
      outbound_upgrades s = l1 ++ (c, q, o) :: l2 ->
      step s (connection_event (set_upgrades s (l1 ++ l2) (inbound_upgrades s)) c h
                (Handler.FullyNegotiatedOutbound stream o))
  | step_outbound_failed s c h q o err l1 l2 :
      handlers s !! c = Some h ->
      outbound_upgrades s = l1 ++ (c, q, o) :: l2 ->
      step s (connection_event (set_upgrades s (l1 ++ l2) (inbound_upgrades s)) c h
                (Handler.DialUpgradeError o err)).

Definition reachable (config : Config) (s : Swarm) : Prop := rtc step (init config) s.

(** Everything the behaviour has emitted upward so far: the events already
    returned to the application, then those still queued. *)
Definition emitted_upward (s : Swarm) : list (Behaviour.Event Query Data IoError) :=
  delivered s ++
    omap (fun ev => match ev with Behaviour.GenerateEvent e => Some e | _ => None end)
         (Behaviour.pending_events (behaviour s)).

Definition terminal_emitted (s : Swarm) (sid : SessionId) : Prop :=
  exists e, e ∈ emitted_upward s /\ terminal_session_id e = Some sid.

End Swarm.

Arguments Swarm : clear implicits.

End Swarm.

(** Successive id allocations: [k] calls of [listen_protocol] threading the
    shared counter, and [k] calls of [send_query] threading the behaviour. *)
Module Allocation.
Section Allocation.
Context {Query Data IoError : Type}.

Fixpoint listen_ids (h : Handler.Handler Query Data IoError) (n : Z) (k : nat)
    : list InboundSessionId :=
  match k with
  | O => []
  | S k' =>
      let '(lp, n') := Handler.listen_protocol h n in
      Handler.listen_info lp :: listen_ids h n' k'
  end.

Fixpoint send_query_ids (b : Behaviour.Behaviour Query Data IoError) (query : Query)
    (peer_id : PeerId) (k : nat) : list (Result OutboundSessionId Behaviour.PeerNotConnected) :=
  match k with
  | O => []
  | S k' =>
      let '(r, b') := Behaviour.send_query b query peer_id in
      r :: send_query_ids b' query peer_id k'
  end.

(** [listen_protocol] called on the handlers [hs] in turn, all holding the
    one counter of their behaviour: the ids handed out. *)
Fixpoint listen_ids_shared (hs : list (Handler.Handler Query Data IoError)) (n : Z)
    : list InboundSessionId :=
  match hs with
  | [] => []
  | h :: hs' =>
      let '(lp, n') := Handler.listen_protocol h n in
      Handler.listen_info lp :: listen_ids_shared hs' n'
  end.

End Allocation.
End Allocation.

(** Callers of the behaviour and of a handler: the swarm calling
    [Behaviour::poll] or [ConnectionHandler::poll] [k] times in a row, and
    arbitrary sequences of the calls the application and the swarm make. *)
Module Drivers.
Section Drivers.
Context {Query Data IoError : Type}.

(** The swarm calling [Behaviour::poll] [k] times in a row. *)
Fixpoint poll_n (b : Behaviour.Behaviour Query Data IoError) (k : nat)
    : list (Poll (Behaviour.ToSwarm Query Data IoError)) *
      Behaviour.Behaviour Query Data IoError :=
  match k with
  | O => ([], b)
  | S k' =>
      let '(r, b1) := Behaviour.poll b in
      let '(rs, b2) := poll_n b1 k' in
      (r :: rs, b2)
  end.

(** The swarm calling [ConnectionHandler::poll] [k] times in a row. *)
Fixpoint handler_poll_n (h : Handler.Handler Query Data IoError) (k : nat)
    : list (Poll (Handler.HandlerEvent Query Data IoError)) *
      Handler.Handler Query Data IoError :=
  match k with
  | O => ([], h)
  | S k' =>
      let '(r, h1) := Handler.poll h in
      let '(rs, h2) := handler_poll_n h1 k' in
      (r :: rs, h2)
  end.

(** One call into the behaviour, by the application or by the swarm. *)
Inductive BehaviourOp :=
  | OpSendQuery (query : Query) (peer_id : PeerId)
  | OpSendData (data : Data) (inbound_session_id : InboundSessionId)
  | OpCloseSession (session_id : SessionId)
  | OpSwarmEvent (event : Behaviour.FromSwarm)
  | OpHandlerEvent (peer_id : PeerId) (connection_id : ConnectionId)
      (event : Handler.ToBehaviourEvent Query Data IoError)
  | OpPoll.

Definition apply_behaviour_op (b : Behaviour.Behaviour Query Data IoError)
    (op : BehaviourOp) : Behaviour.Behaviour Query Data IoError :=
  match op with
  | OpSendQuery query peer_id => (Behaviour.send_query b query peer_id).2
  | OpSendData data i => (Behaviour.send_data b data i).2
  | OpCloseSession sid => (Behaviour.close_session b sid).2
  | OpSwarmEvent ev => Behaviour.on_swarm_event b ev
  | OpHandlerEvent p c e => Behaviour.on_connection_handler_event b p c e
  | OpPoll => (Behaviour.poll b).2
  end.

Definition run_behaviour_ops (b : Behaviour.Behaviour Query Data IoError)
    (ops : list BehaviourOp) : Behaviour.Behaviour Query Data IoError :=
  fold_left apply_behaviour_op ops b.

(** The ids returned by the successful [send_query] calls of a run, in
    order. *)
Fixpoint sent_query_ids (b : Behaviour.Behaviour Query Data IoError)
    (ops : list BehaviourOp) : list OutboundSessionId :=
  match ops with
  | [] => []
  | op :: ops' =>
      let rest := sent_query_ids (apply_behaviour_op b op) ops' in
      match op with
      | OpSendQuery query peer_id =>
          match (Behaviour.send_query b query peer_id).1 with
          | Ok o => o :: rest
          | Err _ => rest
          end
      | _ => rest
      end
  end.

(** One call into a handler by the swarm. *)
Inductive HandlerOp :=
  | HOpPoll
  | HOpBehaviourEvent (event : RequestFromBehaviourEvent Query Data)
  | HOpConnectionEvent (event : Handler.ConnectionEvent Query Data IoError).

Definition apply_handler_op (h : Handler.Handler Query Data IoError) (op : HandlerOp)
    : Handler.Handler Query Data IoError :=
  match op with
  | HOpPoll => (Handler.poll h).2
  | HOpBehaviourEvent rq => Handler.on_behaviour_event h rq
  | HOpConnectionEvent ev => Handler.on_connection_event h ev
  end.

Definition run_handler_ops (h : Handler.Handler Query Data IoError) (ops : list HandlerOp)
    : Handler.Handler Query Data IoError :=
  fold_left apply_handler_op ops h.

End Drivers.
End Drivers.

(** Invariants of the swarm model, stated over its reachable states. *)
Module Invariants.
Section Invariants.
Context {Query Data IoError : Type}.

(** Only an inbound engine whose id is marked to end can be closing: the
    handler calls [start_closing] on marked ids only. *)
Definition closing_marked (h : Handler.Handler Query Data IoError) : Prop :=
  forall i e, Handler.id_to_inbound_session h !! i = Some e ->
    Handler.is_closing e = true -> i ∈ Handler.inbound_sessions_marked_to_end h.

Definition handlers_closing_marked (s : Swarm.Swarm Query Data IoError) : Prop :=
  map_Forall (fun _ h => closing_marked h) (Swarm.handlers s).

(** The ids an event, a request or a queued item refers to. *)
Definition event_ids {E : Type} (e : GenericEvent Query Data E) : list SessionId :=
  match e with
  | NewInboundSession _ i _ => [SessionId_Inbound i]
  | ReceivedData o _ => [SessionId_Outbound o]
  | SessionFailed sid _ | SessionClosedByRequest sid | SessionClosedByPeer sid => [sid]
  end.

Definition request_ids (rq : RequestFromBehaviourEvent Query Data) : list SessionId :=
  match rq with
  | CreateOutboundSession _ o => [SessionId_Outbound o]
  | SendData _ i => [SessionId_Inbound i]
  | CloseSession sid => [sid]
  end.

Definition handler_event_ids (ev : Handler.HandlerEvent Query Data IoError)
    : list SessionId :=
  match ev with
  | Handler.NotifyBehaviour e => event_ids e
  | Handler.OutboundSubstreamRequest _ _ o _ => [SessionId_Outbound o]
  end.

Definition to_swarm_ids (ev : Behaviour.ToSwarm Query Data IoError) : list SessionId :=
  match ev with
  | Behaviour.GenerateEvent e => event_ids e
  | Behaviour.NotifyHandler _ _ rq => request_ids rq
  end.

(** A handler refers to an id through one of its engines or its queue. *)
Definition engine_mentions (h : Handler.Handler Query Data IoError) (sid : SessionId)
    : Prop :=
  match sid with
  | SessionId_Inbound i => is_Some (Handler.id_to_inbound_session h !! i)
  | SessionId_Outbound o => is_Some (Handler.id_to_outbound_session h !! o)
  end.

Definition handler_mentions (h : Handler.Handler Query Data IoError) (sid : SessionId)
    : Prop :=
  engine_mentions h sid \/
  exists ev, ev ∈ Handler.pending_events h /\ sid ∈ handler_event_ids ev.

(** The swarm refers to an id anywhere but in its inbound negotiations. *)
Definition mentions_core (s : Swarm.Swarm Query Data IoError) (sid : SessionId) : Prop :=
  is_Some (Behaviour.session_id_to_peer_id_and_connection_id (Swarm.behaviour s) !! sid) \/
  (exists ev, ev ∈ Behaviour.pending_events (Swarm.behaviour s) /\ sid ∈ to_swarm_ids ev) \/
  (exists e, e ∈ Swarm.delivered s /\ sid ∈ event_ids e) \/
  (exists c h, Swarm.handlers s !! c = Some h /\ handler_mentions h sid) \/
  (exists c q o, (c, q, o) ∈ Swarm.outbound_upgrades s /\ sid = SessionId_Outbound o).

Definition mentions (s : Swarm.Swarm Query Data IoError) (sid : SessionId) : Prop :=
  mentions_core s sid \/
  exists c i, (c, i) ∈ Swarm.inbound_upgrades s /\ sid = SessionId_Inbound i.

(** Every id in use is below the counter it was drawn from. *)
Definition below (s : Swarm.Swarm Query Data IoError) (sid : SessionId) : Prop :=
  match sid with
  | SessionId_Inbound i => (i < Swarm.next_inbound_session_id s)%Z
  | SessionId_Outbound o =>
      (o < Behaviour.next_outbound_session_id (Swarm.behaviour s))%Z
  end.

Definition is_new_inbound (i : InboundSessionId)
    (ev : Handler.HandlerEvent Query Data IoError) : Prop :=
  exists q p, ev = Handler.NotifyBehaviour (NewInboundSession q i p).

(** A [NewInboundSession(i)] still queued in the handler of [c]: nothing
    about [i] has reached the behaviour yet, no other handler knows [i],
    no negotiation carries it, and in the queue nothing about [i] precedes
    it and no second [NewInboundSession(i)] follows it. *)
Definition new_inbound_ok (s : Swarm.Swarm Query Data IoError) (c : ConnectionId)
    (h : Handler.Handler Query Data IoError) (i : InboundSessionId) : Prop :=
  Behaviour.session_id_to_peer_id_and_connection_id (Swarm.behaviour s)
    !! SessionId_Inbound i = None /\
  (forall ev, ev ∈ Behaviour.pending_events (Swarm.behaviour s) ->
     SessionId_Inbound i ∉ to_swarm_ids ev) /\
  (forall e, e ∈ Swarm.delivered s -> SessionId_Inbound i ∉ event_ids e) /\
  (forall c' h', c' <> c -> Swarm.handlers s !! c' = Some h' ->
     ~ handler_mentions h' (SessionId_Inbound i)) /\
  (forall c', (c', i) ∉ Swarm.inbound_upgrades s) /\
  (exists pre ev post, Handler.pending_events h = pre ++ ev :: post /\
     is_new_inbound i ev /\
     (forall x, x ∈ pre -> SessionId_Inbound i ∉ handler_event_ids x) /\
     (forall x, x ∈ post -> ~ is_new_inbound i x)).

(** The invariant behind the routing table's property. *)
Record routing_inv (s : Swarm.Swarm Query Data IoError) : Prop := {
  inv_range : (0 <= Swarm.next_inbound_session_id s < usize_modulus)%Z /\
              (0 <= Behaviour.next_outbound_session_id (Swarm.behaviour s)
                 < usize_modulus)%Z;
  inv_below : forall sid, mentions s sid -> below s sid;
  inv_fresh : forall c i, (c, i) ∈ Swarm.inbound_upgrades s ->
                ~ mentions_core s (SessionId_Inbound i);
  inv_nodup : NoDup (snd <$> Swarm.inbound_upgrades s);
  inv_new_inbound : forall c h i ev, Swarm.handlers s !! c = Some h ->
                      ev ∈ Handler.pending_events h -> is_new_inbound i ev ->
                      new_inbound_ok s c h i;
  inv_table : forall sid,
      is_Some (Behaviour.session_id_to_peer_id_and_connection_id (Swarm.behaviour s) !! sid) ->
      ~ Swarm.terminal_emitted s sid;
}.

(** A step that does not wrap either id counter around. *)
Definition step_nowrap (s s' : Swarm.Swarm Query Data IoError) : Prop :=
  Swarm.step s s' /\
  (Swarm.next_inbound_session_id s <= Swarm.next_inbound_session_id s')%Z /\
  (Behaviour.next_outbound_session_id (Swarm.behaviour s) <=
     Behaviour.next_outbound_session_id (Swarm.behaviour s'))%Z.

Definition reachable_nowrap (config : Config) (s : Swarm.Swarm Query Data IoError) : Prop :=
  rtc step_nowrap (Swarm.init config) s.

(** An id handed out to a session: an outbound id below the counter
    [send_query] draws from, an inbound id whose [NewInboundSession] the
    behaviour has emitted upward. *)
Definition created (s : Swarm.Swarm Query Data IoError) (sid : SessionId) : Prop :=
  match sid with
  | SessionId_Outbound o =>
      (0 <= o < Behaviour.next_outbound_session_id (Swarm.behaviour s))%Z
  | SessionId_Inbound i =>
      exists q p, NewInboundSession q i p ∈ Swarm.emitted_upward s
  end.

(** Every created id keeps its routing entry until its terminal event is
    emitted, and every entry is for a created id. *)
Record created_inv (s : Swarm.Swarm Query Data IoError) : Prop := {
  ci_range : (0 <= Behaviour.next_outbound_session_id (Swarm.behaviour s)
                < usize_modulus)%Z;
  ci_created : forall sid, created s sid ->
    is_Some (Behaviour.session_id_to_peer_id_and_connection_id (Swarm.behaviour s) !! sid) \/
    Swarm.terminal_emitted s sid;
  ci_entry_in : forall i,
    is_Some (Behaviour.session_id_to_peer_id_and_connection_id (Swarm.behaviour s)
               !! SessionId_Inbound i) ->
    created s (SessionId_Inbound i);
  ci_entry_out : forall o,
    is_Some (Behaviour.session_id_to_peer_id_and_connection_id (Swarm.behaviour s)
               !! SessionId_Outbound o) ->
    (0 <= o)%Z;
}.

End Invariants.
End Invariants.

(** A configuration used by the concrete traces below. *)
Module Example.
Definition config : Config :=
  {| protocol_name := "/papyrus/streamed_data/1"; substream_timeout := 10 |}.

(** A behaviour that has seen [ConnectionEstablished(peer 0, connection 0)]. *)
Definition connected_behaviour : Behaviour.Behaviour nat nat unit :=
  Behaviour.on_swarm_event (Behaviour.new config)
    (Behaviour.FromSwarm_ConnectionEstablished 0%nat 0%nat).

(** A connection to peer 0, then [send_query(7, peer 0)]. *)
Definition queried : Swarm.Swarm nat nat unit :=
  let s := Swarm.connect (Swarm.init config) 0%nat in
  Swarm.with_behaviour s (Behaviour.send_query (Swarm.behaviour s) 7%nat 0%nat).2.

(** [queried], then connection 0 closes (the behaviour queues
    [SessionFailed(outbound 0, ConnectionClosed)]), then a connection to
    peer 1 and [send_query(7, peer 1)]. *)
Definition requeried : Swarm.Swarm nat nat unit :=
  let s1 := Swarm.disconnect queried 0%nat (Handler.new config 0%nat) in
  let s2 := Swarm.connect s1 1%nat in
  Swarm.with_behaviour s2 (Behaviour.send_query (Swarm.behaviour s2) 7%nat 1%nat).2.

(** The handler of a connection to peer 0 once an inbound substream with
    id 0 and query 1 is negotiated on it: an engine for inbound id 0, whose
    id is not marked to end. *)
Definition inbound_handler : Handler.Handler nat nat unit :=
  Handler.on_connection_event (Handler.new config 0%nat)
    (Handler.FullyNegotiatedInbound 1%nat [] 0%Z).

(** A connection to peer 0, then an inbound substream on it that
    [listen_protocol] numbers 0 and whose negotiation succeeds. *)
Definition inbound_open : Swarm.Swarm nat nat unit :=
  let s1 := Swarm.connect (Swarm.init config) 0%nat in
  let s2 := Swarm.inbound_substream s1 0%nat (Handler.new config 0%nat) in
  Swarm.connection_event (Swarm.set_upgrades s2 (Swarm.outbound_upgrades s2) [])
    0%nat (Handler.new config 0%nat) (Handler.FullyNegotiatedInbound 1%nat [] 0%Z).
End Example.

(* ================================================================== *)
(** * Properties *)
(* ================================================================== *)

Module RetainFacts.

Section Retain.
Context {K V Ev : Type} `{Countable K}.
Implicit Types (f : K -> V -> list Ev -> option V * list Ev) (m : gmap K V)
  (kvs : list (K * V)) (evs : list Ev).

Lemma retain_loop_events f (g : K -> V -> list Ev) kvs m evs :
  (forall k v evs, (f k v evs).2 = evs ++ g k v) ->
  (retain_loop f kvs m evs).2 = evs ++ concat (map (fun kv => g kv.1 kv.2) kvs).
Proof.
  intros Hf. revert m evs.
  induction kvs as [|[k v] kvs IH]; intros m evs; simpl.
  - by rewrite app_nil_r.
  - specialize (Hf k v evs).
    destruct (f k v evs) as [ov evs'] eqn:E; simpl in Hf; subst evs'.
    rewrite IH. by rewrite app_assoc.
Qed.

Lemma retain_loop_lookup_notin f kvs m evs k :
  k ∉ kvs.*1 -> (retain_loop f kvs m evs).1 !! k = m !! k.
Proof.
  revert m evs. induction kvs as [|[k' v] kvs IH]; intros m evs Hk; simpl; [done|].
  destruct (f k' v evs) as [ov evs'].
  rewrite fmap_cons in Hk. apply not_elem_of_cons in Hk as [Hne Hk]. simpl in Hne.
  rewrite IH by done.
  destruct ov; [by rewrite lookup_insert_ne | by rewrite lookup_delete_ne].
Qed.

Lemma retain_loop_lookup_in f kvs m evs k v :
  (forall k v e1 e2, (f k v e1).1 = (f k v e2).1) ->
  NoDup kvs.*1 -> (k, v) ∈ kvs ->
  (retain_loop f kvs m evs).1 !! k = (f k v []).1.
Proof.
  intros Hind. revert m evs.
  induction kvs as [|[k' v'] kvs IH]; intros m evs Hnd Hin; simpl.
  - by apply elem_of_nil in Hin.
  - rewrite fmap_cons in Hnd. apply NoDup_cons in Hnd as [Hk' Hnd]. simpl in Hk'.
    destruct (f k' v' evs) as [ov evs'] eqn:E.
    apply elem_of_cons in Hin as [Heq|Hin].
    + injection Heq as -> ->.
      rewrite retain_loop_lookup_notin by done.
      rewrite (Hind k' v' [] evs), E. simpl.
      destruct ov; [by rewrite lookup_insert_eq | by rewrite lookup_delete_eq].
    + by apply IH.
Qed.

Lemma hashmap_retain_lookup f m evs k :
  (forall k v e1 e2, (f k v e1).1 = (f k v e2).1) ->
  (hashmap_retain f m evs).1 !! k = m !! k ≫= (fun v => (f k v []).1).
Proof.
  intros Hind. unfold hashmap_retain.
  destruct (m !! k) as [v|] eqn:Hk; simpl.
  - apply retain_loop_lookup_in; [done|apply NoDup_fst_map_to_list|].
    by apply elem_of_map_to_list.
  - rewrite retain_loop_lookup_notin; [done|].
    intros Hin. apply list_elem_of_fmap in Hin as [[k' v] [-> Hin]].
    apply elem_of_map_to_list in Hin. simpl in Hk. congruence.
Qed.

Lemma retain_loop_prefix f kvs m evs :
  (forall k v evs, evs `prefix_of` (f k v evs).2) ->
  evs `prefix_of` (retain_loop f kvs m evs).2.
Proof.
  intros Hf. revert m evs.
  induction kvs as [|[k v] kvs IH]; intros m evs; simpl; [done|].
  specialize (Hf k v evs). destruct (f k v evs) as [ov evs'].
  etrans; [exact Hf|apply IH].
Qed.

End Retain.
End RetainFacts.

Module BehaviourFacts.
Import Behaviour.

Lemma head_elements_None (X : gset ConnectionId) :
  head (elements X) = None <-> X = ∅.
Proof.
  split.
  - intros H. destruct (elements X) eqn:E; [|done].
    apply leibniz_equiv, elements_empty_iff. done.
  - intros ->. by rewrite elements_empty.
Qed.

Lemma head_elements_Some (X : gset ConnectionId) c :
  head (elements X) = Some c -> c ∈ X.
Proof.
  intros H. apply elem_of_elements. destruct (elements X); simplify_eq/=.
  by left.
Qed.

Lemma send_query_connected {Query Data IoError : Type}
    (b : Behaviour Query Data IoError) (query : Query) (peer_id : PeerId) :
  connection_ids_of b peer_id <> ∅ ->
  (send_query b query peer_id).1 = Ok (next_outbound_session_id b) /\
  next_outbound_session_id (send_query b query peer_id).2 =
    wrapping_inc (next_outbound_session_id b) /\
  connection_ids_map (send_query b query peer_id).2 = connection_ids_map b.
Proof.
  intros Hne. unfold send_query.
  destruct (head (elements (connection_ids_of b peer_id))) as [c|] eqn:Hc; [done|].
  by apply head_elements_None in Hc.
Qed.

(** C4: [send_query] fails with [PeerNotConnected], changing nothing,
    exactly when no connection of [peer_id] is recorded; otherwise it picks
    one of the peer's connections [c], returns the current
    [next_outbound_session_id], increments that [usize] counter by one,
    binds the id to [(peer_id, c)] and queues one
    [NotifyHandler(peer_id, One(c), CreateOutboundSession(query, id))]. *)
Theorem send_query_spec {Query Data IoError : Type}
    (b : Behaviour Query Data IoError) (query : Query) (peer_id : PeerId) :
  let '(r, b') := send_query b query peer_id in
  (r = Err peer_not_connected <-> connection_ids_of b peer_id = ∅) /\
  (r = Err peer_not_connected -> b' = b) /\
  (forall id, r = Ok id ->
     exists c, c ∈ connection_ids_of b peer_id /\
       id = next_outbound_session_id b /\
       next_outbound_session_id b' = wrapping_inc (next_outbound_session_id b) /\
       session_id_to_peer_id_and_connection_id b' =
         <[SessionId_Outbound id := (peer_id, c)]>
           (session_id_to_peer_id_and_connection_id b) /\
       pending_events b' =
         pending_events b ++ [NotifyHandler peer_id (One c) (CreateOutboundSession query id)] /\
       connection_ids_map b' = connection_ids_map b /\
       pending_queries b' = pending_queries b /\
       config b' = config b).
Proof.
  unfold send_query.
  destruct (head (elements (connection_ids_of b peer_id))) as [c|] eqn:Hc.
  - apply head_elements_Some in Hc as Hin.
    split; [|split].
    + split; [discriminate|]. intros Hempty. rewrite Hempty in Hin. set_solver.
    + discriminate.
    + intros id Hid. injection Hid as <-. exists c. repeat split; done.
  - apply head_elements_None in Hc.
    split; [|split]; [tauto|done|discriminate].
Qed.

(** C5: [send_data] and [close_session] fail with [SessionIdNotFoundError],
    leaving the behaviour unchanged, exactly when the id has no routing
    entry; otherwise they succeed and queue exactly one
    [NotifyHandler(peer, One(conn), SendData / CloseSession)] addressed to
    the recorded [(peer, conn)]; [close_session] keeps the routing entry. *)
Theorem send_data_close_session_spec {Query Data IoError : Type}
    (b : Behaviour Query Data IoError) (data : Data)
    (inbound_session_id : InboundSessionId) (session_id : SessionId) :
  (let '(r, b') := send_data b data inbound_session_id in
   match session_id_to_peer_id_and_connection_id b !!
           SessionId_Inbound inbound_session_id with
   | None => r = Err session_id_not_found_error /\ b' = b
   | Some (peer_id, connection_id) =>
       r = Ok tt /\
       b' = set_pending_events b
              (pending_events b ++
                 [NotifyHandler peer_id (One connection_id)
                    (SendData data inbound_session_id)])
   end) /\
  (let '(r, b') := close_session b session_id in
   match session_id_to_peer_id_and_connection_id b !! session_id with
   | None => r = Err session_id_not_found_error /\ b' = b
   | Some (peer_id, connection_id) =>
       r = Ok tt /\
       b' = set_pending_events b
              (pending_events b ++
                 [NotifyHandler peer_id (One connection_id) (CloseSession session_id)]) /\
       session_id_to_peer_id_and_connection_id b' =
         session_id_to_peer_id_and_connection_id b
   end).
Proof.
  unfold send_data, close_session, get_peer_id_and_connection_id_from_session_id.
  split.
  - destruct (_ !! SessionId_Inbound _) as [[p c]|]; done.
  - destruct (_ !! session_id) as [[p c]|]; done.
Qed.

Lemma connection_closed_retain_step_opt {Query Data IoError : Type} p c sid
    (bnd : PeerId * ConnectionId) (e1 e2 : list (ToSwarm Query Data IoError)) :
  (connection_closed_retain_step p c sid bnd e1).1 =
  (connection_closed_retain_step p c sid bnd e2).1.
Proof.
  unfold connection_closed_retain_step. destruct bnd. by case_bool_decide.
Qed.

(** What [ConnectionClosed(peer_id, connection_id)] does: it drops exactly
    the routing entries bound to that connection and queues one
    [SessionFailed(ConnectionClosed)] for each of them, and nothing else. *)
Lemma connection_closed_spec {Query Data IoError : Type}
    (b : Behaviour Query Data IoError) (peer_id : PeerId) (connection_id : ConnectionId) :
  let b' := on_swarm_event b (FromSwarm_ConnectionClosed peer_id connection_id) in
  (forall sid, session_id_to_peer_id_and_connection_id b' !! sid =
     match session_id_to_peer_id_and_connection_id b !! sid with
     | Some bnd => if bool_decide (bnd = (peer_id, connection_id)) then None else Some bnd
     | None => None
     end) /\
  exists new, pending_events b' = pending_events b ++ new /\
    forall ev, ev ∈ new ->
      exists sid, ev = GenerateEvent (SessionFailed sid ConnectionClosed) /\
        session_id_to_peer_id_and_connection_id b !! sid = Some (peer_id, connection_id).
Proof.
  simpl. split.
  - intros sid.
    pose proof (RetainFacts.hashmap_retain_lookup
                  (connection_closed_retain_step peer_id connection_id)
                  (session_id_to_peer_id_and_connection_id b) (pending_events b) sid
                  (connection_closed_retain_step_opt peer_id connection_id)) as HL.
    destruct (hashmap_retain _ _ _) as [t' p'] eqn:E. simpl in HL |- *.
    rewrite HL.
    destruct (session_id_to_peer_id_and_connection_id b !! sid) as [[sp sc]|]; [|done].
    simpl. unfold connection_closed_retain_step.
    repeat case_bool_decide; naive_solver.
  - set (g := fun (sid : SessionId) (bnd : PeerId * ConnectionId) =>
           let '(sp, sc) := bnd in
           if bool_decide (peer_id = sp /\ connection_id = sc)
           then [GenerateEvent (Query:=Query) (Data:=Data) (IoError:=IoError)
                   (SessionFailed sid ConnectionClosed)]
           else []).
    assert (Hev : (hashmap_retain (connection_closed_retain_step peer_id connection_id)
                     (session_id_to_peer_id_and_connection_id b) (pending_events b)).2 =
                  pending_events b ++
                    concat (map (fun kv => g kv.1 kv.2)
                              (map_to_list (session_id_to_peer_id_and_connection_id b)))).
    { apply RetainFacts.retain_loop_events. intros sid [sp sc] evs.
      unfold connection_closed_retain_step, g. case_bool_decide; simpl; [done|].
      by rewrite app_nil_r. }
    destruct (hashmap_retain _ _ _) as [t' p'] eqn:E. simpl in Hev |- *.
    eexists. split; [exact Hev|].
    intros ev Hin. apply list_elem_of_In, in_concat in Hin as (l & Hl & Hin).
    apply in_map_iff in Hl as ([sid [sp sc]] & <- & Hkv).
    apply list_elem_of_In, elem_of_map_to_list in Hkv.
    simpl in Hin. unfold g in Hin. case_bool_decide as Hpc; [|done].
    destruct Hpc as [-> ->]. destruct Hin as [<-|[]].
    by exists sid.
Qed.

(** [ConnectionClosed(peer_id, connection_id)]: the table is filtered and one
    [SessionFailed(.., ConnectionClosed)] is queued per removed id. *)
Lemma connection_closed_events_full {Query Data IoError : Type}
    (b : Behaviour.Behaviour Query Data IoError) (p : PeerId) (c : ConnectionId) :
  let b' := Behaviour.on_swarm_event b (Behaviour.FromSwarm_ConnectionClosed p c) in
  exists sids,
    Behaviour.pending_events b' =
      Behaviour.pending_events b ++
        map (fun sid => Behaviour.GenerateEvent
                          (SessionFailed sid Behaviour.ConnectionClosed)) sids /\
    NoDup sids /\
    (forall sid, sid ∈ sids <->
       Behaviour.session_id_to_peer_id_and_connection_id b !! sid = Some (p, c)) /\
    Behaviour.session_id_to_peer_id_and_connection_id b' =
      filter (fun kv => kv.2 <> (p, c)) (Behaviour.session_id_to_peer_id_and_connection_id b) /\
    Behaviour.connection_ids_map b' = Behaviour.connection_ids_map b /\
    Behaviour.pending_queries b' = Behaviour.pending_queries b /\
    Behaviour.next_outbound_session_id b' = Behaviour.next_outbound_session_id b /\
    Behaviour.config b' = Behaviour.config b.
Proof.
  cbv zeta.
  set (T := Behaviour.session_id_to_peer_id_and_connection_id b).
  set (f := fun sid => Behaviour.GenerateEvent (Query:=Query) (Data:=Data) (IoError:=IoError)
                         (SessionFailed sid Behaviour.ConnectionClosed)).
  set (g := fun (sid : SessionId) (bnd : PeerId * ConnectionId) =>
         let '(sp, sc) := bnd in
         if bool_decide (p = sp /\ c = sc) then [f sid] else []).
  assert (Hev : (hashmap_retain (Behaviour.connection_closed_retain_step p c) T
                   (Behaviour.pending_events b)).2 =
                Behaviour.pending_events b ++ concat (map (fun kv => g kv.1 kv.2) (map_to_list T))).
  { apply RetainFacts.retain_loop_events. intros sid [sp sc] evs.
    unfold Behaviour.connection_closed_retain_step, g. case_bool_decide; simpl; [done|].
    by rewrite app_nil_r. }
  assert (Hconcat : forall l : list (SessionId * (PeerId * ConnectionId)),
            concat (map (fun kv => g kv.1 kv.2) l) =
            map f (filter (fun kv => kv.2 = (p, c)) l).*1).
  { induction l as [|[sid [sp sc]] l IH]; [done|]. rewrite filter_cons.
    cbn [map concat]. rewrite IH. unfold g at 1.
    cbn [fst snd]. case_bool_decide as Hb; case_decide as Hd; simpl in *; naive_solver. }
  exists ((filter (fun kv => kv.2 = (p, c)) (map_to_list T)).*1).
  unfold Behaviour.on_swarm_event.
  change (Behaviour.session_id_to_peer_id_and_connection_id b) with T.
  assert (HT : forall sid, (hashmap_retain (Behaviour.connection_closed_retain_step p c) T
                              (Behaviour.pending_events b)).1 !! sid =
               T !! sid ≫= (fun v => (Behaviour.connection_closed_retain_step
                                       (Query:=Query) (Data:=Data) (IoError:=IoError)
                                       p c sid v []).1)).
  { intros sid. apply RetainFacts.hashmap_retain_lookup.
    intros k [sp sc] e1 e2. unfold Behaviour.connection_closed_retain_step.
    by case_bool_decide. }
  destruct (hashmap_retain (Behaviour.connection_closed_retain_step p c) T
              (Behaviour.pending_events b)) as [t' p'] eqn:E.
  simpl in Hev, HT |- *.
  split; [by rewrite Hev, Hconcat|split; [|split; [|split; [|done]]]].
  - eapply sublist_NoDup; [apply (NoDup_fst_map_to_list T)|].
    apply fmap_sublist, sublist_filter.
  - intros sid. rewrite list_elem_of_fmap. split.
    + intros ([sid' bnd] & -> & Hin). apply list_elem_of_filter in Hin as [Hb Hin].
      simpl in Hb |- *. subst bnd. by apply elem_of_map_to_list.
    + intros Hs. exists (sid, (p, c)). split; [done|].
      apply list_elem_of_filter. split; [done|]. by apply elem_of_map_to_list.
  - apply map_eq. intros sid. rewrite HT, map_lookup_filter.
    destruct (T !! sid) as [[sp sc]|]; simpl; [|done].
    unfold Behaviour.connection_closed_retain_step.
    case_bool_decide as Hb; case_guard as Hg; simpl in *; naive_solver.
Qed.

End BehaviourFacts.

Module HandlerFacts.
Import Handler.

(** C6: on [CloseSession(id)] the handler, for an inbound id, marks it in
    [inbound_sessions_marked_to_end] and queues [SessionClosedByRequest(id)]
    at once, leaving the inbound engines untouched; for an outbound id it
    drops the outbound engine at once and queues [SessionClosedByRequest(id)]. *)
Theorem close_session_event_spec {Query Data IoError : Type}
    (h : Handler Query Data IoError) (session_id : SessionId) :
  let h' := on_behaviour_event h (CloseSession session_id) in
  pending_events h' =
    pending_events h ++ [NotifyBehaviour (SessionClosedByRequest session_id)] /\
  match session_id with
  | SessionId_Inbound i =>
      inbound_sessions_marked_to_end h' = {[i]} ∪ inbound_sessions_marked_to_end h /\
      id_to_inbound_session h' = id_to_inbound_session h /\
      id_to_outbound_session h' = id_to_outbound_session h
  | SessionId_Outbound o =>
      id_to_outbound_session h' = delete o (id_to_outbound_session h) /\
      id_to_inbound_session h' = id_to_inbound_session h /\
      inbound_sessions_marked_to_end h' = inbound_sessions_marked_to_end h
  end.
Proof. destruct session_id; simpl; auto. Qed.

(** C10: on [CloseSession(Outbound o)] the handler queues
    [SessionClosedByRequest(Outbound o)] whether or not an outbound engine
    is stored under [o]: the removal and the event do not depend on the
    engine being present. *)
Theorem close_outbound_unconditional {Query Data IoError : Type}
    (h : Handler Query Data IoError) (o : OutboundSessionId) :
  pending_events (on_behaviour_event h (CloseSession (SessionId_Outbound o))) =
    pending_events h ++
      [NotifyBehaviour (SessionClosedByRequest (SessionId_Outbound o))] /\
  id_to_outbound_session (on_behaviour_event h (CloseSession (SessionId_Outbound o))) =
    delete o (id_to_outbound_session h).
Proof. split; reflexivity. Qed.

Lemma outbound_retain_step_opt {Query Data IoError : Type} o
    (os : OutboundSession Data IoError) (e1 e2 : list (HandlerEvent Query Data IoError)) :
  (outbound_retain_step o os e1).1 = (outbound_retain_step o os e2).1.
Proof.
  unfold outbound_retain_step.
  destruct (poll_next_unpin os) as [[|[[d|e]|]] os']; done.
Qed.

Lemma poll_inbound_session_prefix {Query Data IoError : Type}
    (s : InboundSession Data IoError) i (pending : list (HandlerEvent Query Data IoError)) :
  pending `prefix_of` (poll_inbound_session s i pending).2.
Proof.
  unfold poll_inbound_session.
  destruct (poll_unpin s) as [[|[|e]] s']; simpl;
    [done|done|by eexists].
Qed.

Lemma inbound_retain_step_prefix {Query Data IoError : Type} marked i
    (s : InboundSession Data IoError) (pending : list (HandlerEvent Query Data IoError)) :
  pending `prefix_of` (inbound_retain_step marked i s pending).2.
Proof.
  unfold inbound_retain_step.
  pose proof (poll_inbound_session_prefix s i pending) as H1.
  destruct (poll_inbound_session s i pending) as [[fin s1] p1]; simpl in H1.
  destruct fin; [done|].
  destruct (bool_decide _ && is_waiting s1); [|done].
  pose proof (poll_inbound_session_prefix (start_closing s1) i p1) as H2.
  destruct (poll_inbound_session (start_closing s1) i p1) as [[fin2 s3] p2].
  simpl in H2. destruct fin2; simpl; etrans; eauto.
Qed.

(** C8: one pass of [poll].  The inbound pass only appends to the queue.
    Then every outbound engine is polled once: [Item(data)] queues
    [ReceivedData] and keeps the engine, [Error] queues
    [SessionFailed(IOError)] and drops it, [End] queues
    [SessionClosedByPeer] and drops it, [Pending] keeps it and queues
    nothing.  Only then is the front of the queue returned ([Ready] with
    that one event), or [Pending] when the queue is empty. *)
Theorem poll_spec {Query Data IoError : Type} (h : Handler Query Data IoError) :
  let inb := hashmap_retain (inbound_retain_step (inbound_sessions_marked_to_end h))
               (id_to_inbound_session h) (pending_events h) in
  let outb := hashmap_retain outbound_retain_step (id_to_outbound_session h) inb.2 in
  (pending_events h `prefix_of` inb.2) /\
  (forall o, outb.1 !! o =
     id_to_outbound_session h !! o ≫=
       (fun os => match poll_next_unpin os with
                  | (Ready (Some (Ok _)), os') => Some os'
                  | (Ready _, _) => None
                  | (Pending, os') => Some os'
                  end)) /\
  (outb.2 = inb.2 ++
    concat (map (fun kv : OutboundSessionId * OutboundSession Data IoError =>
              match (poll_next_unpin kv.2).1 with
              | Ready (Some (Ok d)) => [NotifyBehaviour (ReceivedData kv.1 d)]
              | Ready (Some (Err e)) =>
                  [NotifyBehaviour (SessionFailed (SessionId_Outbound kv.1) (IOError e))]
              | Ready None =>
                  [NotifyBehaviour (SessionClosedByPeer (SessionId_Outbound kv.1))]
              | Pending => []
              end) (map_to_list (id_to_outbound_session h)))) /\
  poll h =
    (let mk evs := {| config := config h; peer_id := peer_id h;
                     id_to_inbound_session := inb.1; id_to_outbound_session := outb.1;
                     pending_events := evs;
                     inbound_sessions_marked_to_end := inbound_sessions_marked_to_end h |} in
    match outb.2 with
    | event :: rest => (Ready event, mk rest)
    | [] => (Pending, mk [])
    end).
Proof.
  simpl. split; [|split; [|split]].
  - apply RetainFacts.retain_loop_prefix. intros. apply inbound_retain_step_prefix.
  - intros o. rewrite RetainFacts.hashmap_retain_lookup
      by (intros; apply outbound_retain_step_opt).
    destruct (id_to_outbound_session h !! o) as [os|]; simpl; [|done].
    unfold outbound_retain_step.
    destruct (poll_next_unpin os) as [[|[[d|e]|]] os']; done.
  - unfold hashmap_retain at 1.
    apply (RetainFacts.retain_loop_events _
      (fun (o : OutboundSessionId) (os : OutboundSession Data IoError) =>
         match (poll_next_unpin os).1 with
         | Ready (Some (Ok d)) => [NotifyBehaviour (ReceivedData o d)]
         | Ready (Some (Err e)) =>
             [NotifyBehaviour (SessionFailed (SessionId_Outbound o) (IOError e))]
         | Ready None => [NotifyBehaviour (SessionClosedByPeer (SessionId_Outbound o))]
         | Pending => []
         end)).
    intros k os evs.
    unfold outbound_retain_step.
    destruct (poll_next_unpin os) as [[|[[d|e]|]] os']; simpl;
      [by rewrite app_nil_r|done|done|done].
  - unfold poll.
    destruct (hashmap_retain (inbound_retain_step _) _ _) as [inb1 p1].
    destruct (hashmap_retain outbound_retain_step _ _) as [outb2 p2].
    reflexivity.
Qed.

End HandlerFacts.

Module Traces.
Import Swarm.

Lemma reachable_step {Query Data IoError : Type} config
    (s s' : Swarm Query Data IoError) :
  reachable config s -> step s s' -> reachable config s'.
Proof. intros Hr Hs. eapply rtc_r; eauto. Qed.

(** C2 (failing trace): after a connection is established and closed again,
    the behaviour still lists it for the peer (the [ConnectionClosed] arm
    never touches [connection_ids_map]), although no connection to the peer
    exists; [send_query] then succeeds on the dead connection. *)
Theorem connection_ids_map_keeps_closed_connection :
  exists s : Swarm nat nat unit,
    reachable Example.config s /\
    handlers s = ∅ /\
    Behaviour.connection_ids_of (behaviour s) 0%nat = {[0%nat]} /\
    (Behaviour.send_query (behaviour s) 7%nat 0%nat).1 = Ok 0%Z.
Proof.
  eexists. split; [|split; [|split]].
  - unfold reachable.
    eapply rtc_l; [apply (step_connect _ 0%nat)|].
    eapply rtc_l; [eapply (step_disconnect _ 0%nat); reflexivity|].
    apply rtc_refl.
  - reflexivity.
  - reflexivity.
  - reflexivity.
Qed.


End Traces.

Module AllocationFacts.
Import Allocation.
Local Open Scope Z_scope.

Lemma wrapping_inc_range (n : Z) : 0 <= wrapping_inc n < usize_modulus.
Proof. unfold wrapping_inc, usize_modulus. apply Z.mod_pos_bound. lia. Qed.

Lemma wrapping_inc_add (n j : Z) :
  (wrapping_inc n + j) mod usize_modulus = (n + (j + 1)) mod usize_modulus.
Proof.
  unfold wrapping_inc. rewrite Z.add_mod_idemp_l by (unfold usize_modulus; lia).
  f_equal. lia.
Qed.

Lemma listen_ids_lookup {Query Data IoError : Type}
    (h : Handler.Handler Query Data IoError) (k : nat) :
  forall n j, 0 <= n < usize_modulus -> (j < k)%nat ->
  listen_ids h n k !! j = Some ((n + Z.of_nat j) mod usize_modulus).
Proof.
  induction k as [|k IH]; intros n j Hn Hj; [lia|].
  simpl. destruct j as [|j].
  - simpl. f_equal. rewrite Z.add_0_r. symmetry. by apply Z.mod_small.
  - simpl. rewrite IH by (try apply wrapping_inc_range; lia).
    rewrite wrapping_inc_add. do 2 f_equal. lia.
Qed.

Lemma send_query_ids_lookup {Query Data IoError : Type}
    (query : Query) (peer_id : PeerId) (k : nat) :
  forall (b : Behaviour.Behaviour Query Data IoError) j,
  Behaviour.connection_ids_of b peer_id <> ∅ ->
  0 <= Behaviour.next_outbound_session_id b < usize_modulus -> (j < k)%nat ->
  send_query_ids b query peer_id k !! j =
    Some (Ok ((Behaviour.next_outbound_session_id b + Z.of_nat j) mod usize_modulus)).
Proof.
  induction k as [|k IH]; intros b j Hc Hn Hj; [lia|].
  simpl.
  destruct (BehaviourFacts.send_query_connected b query peer_id Hc) as (Hr & Hnext & Hmap).
  destruct (Behaviour.send_query b query peer_id) as [r b'] eqn:E.
  simpl in Hr, Hnext, Hmap. subst r.
  destruct j as [|j].
  - simpl. do 2 f_equal. rewrite Z.add_0_r. symmetry. by apply Z.mod_small.
  - simpl. rewrite IH.
    + rewrite Hnext, wrapping_inc_add. do 3 f_equal. lia.
    + unfold Behaviour.connection_ids_of in *. by rewrite Hmap.
    + rewrite Hnext. apply wrapping_inc_range.
    + lia.
Qed.

Lemma listen_ids_shared_lookup {Query Data IoError : Type}
    (hs : list (Handler.Handler Query Data IoError)) :
  forall n j, 0 <= n < usize_modulus -> (j < length hs)%nat ->
  listen_ids_shared hs n !! j = Some ((n + Z.of_nat j) mod usize_modulus).
Proof.
  induction hs as [|h hs IH]; intros n j Hn Hj; simpl in Hj; [lia|].
  simpl. destruct j as [|j].
  - simpl. f_equal. rewrite Z.add_0_r. symmetry. by apply Z.mod_small.
  - simpl. rewrite IH by (try apply wrapping_inc_range; lia).
    rewrite wrapping_inc_add. do 2 f_equal. lia.
Qed.

Lemma listen_ids_shared_length {Query Data IoError : Type}
    (hs : list (Handler.Handler Query Data IoError)) n :
  length (listen_ids_shared hs n) = length hs.
Proof. revert n. induction hs as [|h hs IH]; intros n; simpl; [done|]. by rewrite IH. Qed.

(** One call of a run: a successful [send_query] returns the outbound
    counter and stores its wrapping successor; every other call keeps the
    counter. *)
Lemma sent_query_ids_cons {Query Data IoError : Type}
    (b : Behaviour.Behaviour Query Data IoError) op ops :
  (Drivers.sent_query_ids b (op :: ops) =
     Behaviour.next_outbound_session_id b ::
       Drivers.sent_query_ids (Drivers.apply_behaviour_op b op) ops /\
   Behaviour.next_outbound_session_id (Drivers.apply_behaviour_op b op) =
     wrapping_inc (Behaviour.next_outbound_session_id b)) \/
  (Drivers.sent_query_ids b (op :: ops) =
     Drivers.sent_query_ids (Drivers.apply_behaviour_op b op) ops /\
   Behaviour.next_outbound_session_id (Drivers.apply_behaviour_op b op) =
     Behaviour.next_outbound_session_id b).
Proof.
  destruct op as [q p|d i|sid|ev|p c e|]; simpl.
  - unfold Behaviour.send_query.
    destruct (head (elements (Behaviour.connection_ids_of b p))); simpl; [left|right]; done.
  - right. split; [done|]. unfold Behaviour.send_data,
      Behaviour.get_peer_id_and_connection_id_from_session_id.
    by destruct (_ !! _) as [[? ?]|].
  - right. split; [done|]. unfold Behaviour.close_session,
      Behaviour.get_peer_id_and_connection_id_from_session_id.
    by destruct (_ !! _) as [[? ?]|].
  - right. split; [done|]. destruct ev; simpl; [done| |done].
    by destruct (hashmap_retain _ _ _).
  - right. done.
  - right. split; [done|]. unfold Behaviour.poll. by destruct (Behaviour.pending_events b).
Qed.

Lemma sent_query_ids_spec {Query Data IoError : Type}
    (ops : list (Drivers.BehaviourOp (Query:=Query) (Data:=Data) (IoError:=IoError))) :
  forall (b : Behaviour.Behaviour Query Data IoError),
  0 <= Behaviour.next_outbound_session_id b < usize_modulus ->
  (forall j, (j < length (Drivers.sent_query_ids b ops))%nat ->
     Drivers.sent_query_ids b ops !! j =
       Some ((Behaviour.next_outbound_session_id b + Z.of_nat j) mod usize_modulus)) /\
  Behaviour.next_outbound_session_id (Drivers.run_behaviour_ops b ops) =
    (Behaviour.next_outbound_session_id b +
       Z.of_nat (length (Drivers.sent_query_ids b ops))) mod usize_modulus.
Proof.
  induction ops as [|op ops IH]; intros b Hn.
  - split; [simpl; lia|]. simpl. rewrite Z.add_0_r. symmetry. by apply Z.mod_small.
  - change (Drivers.run_behaviour_ops b (op :: ops))
      with (Drivers.run_behaviour_ops (Drivers.apply_behaviour_op b op) ops).
    assert (Hn1 : 0 <= Behaviour.next_outbound_session_id (Drivers.apply_behaviour_op b op)
                    < usize_modulus).
    { destruct (sent_query_ids_cons b op ops) as [[_ ->]|[_ ->]];
        [apply wrapping_inc_range|exact Hn]. }
    destruct (IH (Drivers.apply_behaviour_op b op) Hn1) as [IH1 IH2].
    destruct (sent_query_ids_cons b op ops) as [[Hs Hnext]|[Hs Hnext]];
      rewrite Hs; rewrite Hnext in IH1, IH2.
    + split.
      * intros [|j] Hj; simpl.
        -- f_equal. rewrite Z.add_0_r. symmetry. by apply Z.mod_small.
        -- simpl in Hj. rewrite IH1 by lia. rewrite wrapping_inc_add.
           do 2 f_equal. lia.
      * rewrite IH2, wrapping_inc_add. simpl length. f_equal. lia.
    + split; [exact IH1|exact IH2].
Qed.

(** Ids drawn from 0, at most [2^64] of them, come out strictly
    increasing. *)
Lemma increasing_from_zero (l : list Z) :
  (forall j, (j < length l)%nat -> l !! j = Some ((0 + Z.of_nat j) mod usize_modulus)) ->
  Z.of_nat (length l) <= usize_modulus ->
  forall j1 j2 id1 id2, (j1 < j2)%nat -> l !! j1 = Some id1 -> l !! j2 = Some id2 ->
  id1 < id2.
Proof.
  intros Hl Hk j1 j2 id1 id2 Hlt H1 H2.
  pose proof (lookup_lt_Some _ _ _ H2) as Hj2.
  rewrite Hl in H1, H2 by lia.
  injection H1 as <-. injection H2 as <-.
  rewrite !Z.add_0_l, !Z.mod_small by lia. lia.
Qed.

(** C9 (as the code does it): [listen_protocol] returns the shared counter's
    previous value and stores its [usize] successor (wrapping at 2^64);
    successive calls from a counter [n], on one handler or on several
    handlers sharing the counter, return [n, n+1, ...] modulo 2^64.  A
    successful [send_query] returns [next_outbound_session_id] and stores
    its wrapping successor, a failed one changes nothing; so along any run
    of calls into the behaviour (to any peers, with failed calls and other
    calls in between) the successful [send_query] calls return
    [next_outbound_session_id, +1, ...] modulo 2^64 and leave the counter
    at the next value.  From the initial value 0 the first 2^64 ids of
    either kind are strictly increasing, hence never recycled within that
    range. *)
Theorem id_allocation_mod_usize {Query Data IoError : Type}
    (h : Handler.Handler Query Data IoError) (b : Behaviour.Behaviour Query Data IoError)
    (query : Query) (peer_id : PeerId) :
  (forall n, Handler.listen_info (Handler.listen_protocol h n).1 = n /\
             (Handler.listen_protocol h n).2 = wrapping_inc n) /\
  (forall n k j, 0 <= n < usize_modulus -> (j < k)%nat ->
     listen_ids h n k !! j = Some ((n + Z.of_nat j) mod usize_modulus)) /\
  (forall k j, Behaviour.connection_ids_of b peer_id <> ∅ ->
     0 <= Behaviour.next_outbound_session_id b < usize_modulus -> (j < k)%nat ->
     send_query_ids b query peer_id k !! j =
       Some (Ok ((Behaviour.next_outbound_session_id b + Z.of_nat j) mod usize_modulus))) /\
  (forall k j1 j2 id1 id2, (j1 < j2)%nat -> Z.of_nat k <= usize_modulus ->
     listen_ids h 0 k !! j1 = Some id1 -> listen_ids h 0 k !! j2 = Some id2 ->
     id1 < id2) /\
  (forall (hs : list (Handler.Handler Query Data IoError)) n j,
     0 <= n < usize_modulus -> (j < length hs)%nat ->
     listen_ids_shared hs n !! j = Some ((n + Z.of_nat j) mod usize_modulus)) /\
  (forall (hs : list (Handler.Handler Query Data IoError)) j1 j2 id1 id2,
     (j1 < j2)%nat -> Z.of_nat (length hs) <= usize_modulus ->
     listen_ids_shared hs 0 !! j1 = Some id1 -> listen_ids_shared hs 0 !! j2 = Some id2 ->
     id1 < id2) /\
  (forall (b0 : Behaviour.Behaviour Query Data IoError) q p,
     match (Behaviour.send_query b0 q p).1 with
     | Ok o => o = Behaviour.next_outbound_session_id b0 /\
               Behaviour.next_outbound_session_id (Behaviour.send_query b0 q p).2 =
                 wrapping_inc o
     | Err _ => (Behaviour.send_query b0 q p).2 = b0
     end) /\
  (forall (b0 : Behaviour.Behaviour Query Data IoError) ops,
     0 <= Behaviour.next_outbound_session_id b0 < usize_modulus ->
     (forall j, (j < length (Drivers.sent_query_ids b0 ops))%nat ->
        Drivers.sent_query_ids b0 ops !! j =
          Some ((Behaviour.next_outbound_session_id b0 + Z.of_nat j) mod usize_modulus)) /\
     Behaviour.next_outbound_session_id (Drivers.run_behaviour_ops b0 ops) =
       (Behaviour.next_outbound_session_id b0 +
          Z.of_nat (length (Drivers.sent_query_ids b0 ops))) mod usize_modulus) /\
  (forall (b0 : Behaviour.Behaviour Query Data IoError) ops j1 j2 o1 o2,
     Behaviour.next_outbound_session_id b0 = 0 -> (j1 < j2)%nat ->
     Z.of_nat (length (Drivers.sent_query_ids b0 ops)) <= usize_modulus ->
     Drivers.sent_query_ids b0 ops !! j1 = Some o1 ->
     Drivers.sent_query_ids b0 ops !! j2 = Some o2 ->
     o1 < o2).
Proof.
  split; [|split; [|split; [|split; [|split; [|split; [|split; [|split]]]]]]].
  - done.
  - intros. by apply listen_ids_lookup.
  - intros. by apply send_query_ids_lookup.
  - intros k j1 j2 id1 id2 Hlt Hk H1 H2.
    assert (Hlen : length (listen_ids h 0 k) = k).
    { clear. generalize 0%Z. induction k; intros n; simpl; [done|].
      by rewrite IHk. }
    refine (increasing_from_zero (listen_ids h 0 k) _ _ j1 j2 id1 id2 Hlt H1 H2).
    + intros j Hj. rewrite Hlen in Hj.
      apply listen_ids_lookup; [unfold usize_modulus; lia|exact Hj].
    + by rewrite Hlen.
  - intros. by apply listen_ids_shared_lookup.
  - intros hs j1 j2 id1 id2 Hlt Hk H1 H2.
    refine (increasing_from_zero (listen_ids_shared hs 0) _ _ j1 j2 id1 id2 Hlt H1 H2).
    + intros j Hj. rewrite listen_ids_shared_length in Hj.
      apply listen_ids_shared_lookup; [unfold usize_modulus; lia|exact Hj].
    + by rewrite listen_ids_shared_length.
  - intros b0 q p. unfold Behaviour.send_query.
    destruct (head (elements (Behaviour.connection_ids_of b0 p))); simpl; done.
  - intros b0 ops Hn. by apply sent_query_ids_spec.
  - intros b0 ops j1 j2 o1 o2 H0 Hlt Hk H1 H2.
    assert (Hn : 0 <= Behaviour.next_outbound_session_id b0 < usize_modulus)
      by (rewrite H0; unfold usize_modulus; lia).
    destruct (sent_query_ids_spec ops b0 Hn) as [Hl _]. rewrite H0 in Hl.
    exact (increasing_from_zero _ Hl Hk j1 j2 o1 o2 Hlt H1 H2).
Qed.

(** A run on a behaviour connected to peer 0 only: a query to peer 0, a
    failed query to peer 1, peer 1 connects, a query to peer 1, a poll,
    a query to peer 0. *)
Lemma id_allocation_mod_usize_witness :
  let ops := [Drivers.OpSendQuery 7%nat 0%nat; Drivers.OpSendQuery 7%nat 1%nat;
              Drivers.OpSwarmEvent (Behaviour.FromSwarm_ConnectionEstablished 1%nat 1%nat);
              Drivers.OpSendQuery 8%nat 1%nat; Drivers.OpPoll;
              Drivers.OpSendQuery 9%nat 0%nat] in
  (Behaviour.send_query Example.connected_behaviour 7%nat 1%nat).2 =
    Example.connected_behaviour /\
  Drivers.sent_query_ids Example.connected_behaviour ops !! 2%nat = Some 2 /\
  Behaviour.next_outbound_session_id
    (Drivers.run_behaviour_ops Example.connected_behaviour ops) = 3 /\
  (forall o1 o2, Drivers.sent_query_ids Example.connected_behaviour ops !! 0%nat = Some o1 ->
     Drivers.sent_query_ids Example.connected_behaviour ops !! 2%nat = Some o2 -> o1 < o2).
Proof.
  intros ops.
  destruct (id_allocation_mod_usize
              (Handler.new (Query:=nat) (Data:=nat) (IoError:=unit) Example.config 0%nat)
              Example.connected_behaviour 7%nat 0%nat)
    as (_ & _ & _ & _ & _ & _ & Hcall & Hrun & Hinc).
  assert (Hn : 0 <= Behaviour.next_outbound_session_id Example.connected_behaviour
                 < usize_modulus) by (vm_compute; split; [intros H; discriminate H|reflexivity]).
  assert (Hlen : length (Drivers.sent_query_ids Example.connected_behaviour ops) = 3%nat)
    by (vm_compute; reflexivity).
  destruct (Hrun Example.connected_behaviour ops Hn) as [Hl Hnext].
  split; [|split; [|split]].
  - pose proof (Hcall Example.connected_behaviour 7%nat 1%nat) as H.
    revert H. vm_compute. intros H. exact H.
  - rewrite (Hl 2%nat) by (rewrite Hlen; lia). reflexivity.
  - rewrite Hnext, Hlen. reflexivity.
  - intros o1 o2 H1 H2.
    apply (Hinc Example.connected_behaviour ops 0%nat 2%nat o1 o2); try assumption.
    + reflexivity.
    + lia.
    + rewrite Hlen. unfold usize_modulus. lia.
Defined.

(** C9 (counterexample): the shared counter wraps.  At [2^64 - 1],
    [listen_protocol] stores 0, not [2^64]; and among the first [2^64 + 1]
    inbound ids allocated from 0 the id 0 occurs twice. *)
Lemma inbound_id_recycled :
  (Handler.listen_protocol (Handler.new (Query:=nat) (Data:=nat) (IoError:=unit)
                              Example.config 0%nat)
     (usize_modulus - 1)).2 = 0 /\
  ~ NoDup (listen_ids (Handler.new (Query:=nat) (Data:=nat) (IoError:=unit)
                         Example.config 0%nat) 0 (S (Z.to_nat usize_modulus))).
Proof.
  split; [reflexivity|].
  intros Hnd.
  assert (HM : Z.of_nat (Z.to_nat usize_modulus) = usize_modulus)
    by (apply Z2Nat.id; unfold usize_modulus; lia).
  assert (H0 : listen_ids (Handler.new (Query:=nat) (Data:=nat) (IoError:=unit)
                             Example.config 0%nat) 0 (S (Z.to_nat usize_modulus)) !! 0%nat
               = Some 0) by reflexivity.
  assert (HMid : listen_ids (Handler.new (Query:=nat) (Data:=nat) (IoError:=unit)
                               Example.config 0%nat) 0 (S (Z.to_nat usize_modulus))
                   !! Z.to_nat usize_modulus = Some 0).
  { rewrite listen_ids_lookup by (unfold usize_modulus in *; lia).
    rewrite HM, Z.add_0_l, Z_mod_same_full. reflexivity. }
  pose proof (NoDup_lookup _ _ _ _ Hnd H0 HMid) as Heq.
  assert (Z.of_nat 0%nat = Z.of_nat (Z.to_nat usize_modulus)) as Hc by (f_equal; done).
  rewrite HM in Hc. unfold usize_modulus in Hc. lia.
Qed.

End AllocationFacts.

Module InvariantFacts.
Import Handler Invariants.

Lemma poll_inbound_engine_closing {Data IoError : Type} (cl : bool)
    (q w : list Data) (io : list (IoStep IoError)) :
  is_closing (poll_inbound_engine cl q w io).2 = cl.
Proof.
  revert q w. induction io as [|a io IH]; intros [|d q] w; simpl;
    repeat case_match; simpl; auto.
Qed.

Lemma poll_inbound_session_closing {Query Data IoError : Type}
    (e : InboundSession Data IoError) i (p : list (HandlerEvent Query Data IoError)) :
  is_closing (poll_inbound_session e i p).1.2 = is_closing e.
Proof.
  unfold poll_inbound_session, poll_unpin.
  pose proof (poll_inbound_engine_closing (is_closing e) (queue e) (written e)
                (substream e)) as H.
  destruct (poll_inbound_engine _ _ _ _) as [[|[|err]] e']; done.
Qed.

Lemma poll_inbound_session_opt {Query Data IoError : Type}
    (e : InboundSession Data IoError) i (p1 p2 : list (HandlerEvent Query Data IoError)) :
  (poll_inbound_session e i p1).1 = (poll_inbound_session e i p2).1.
Proof.
  unfold poll_inbound_session. destruct (poll_unpin e) as [[|[|err]] e']; done.
Qed.

Lemma inbound_retain_step_opt {Query Data IoError : Type} marked i
    (e : InboundSession Data IoError) (p1 p2 : list (HandlerEvent Query Data IoError)) :
  (inbound_retain_step marked i e p1).1 = (inbound_retain_step marked i e p2).1.
Proof.
  unfold inbound_retain_step.
  pose proof (poll_inbound_session_opt e i p1 p2) as H.
  destruct (poll_inbound_session e i p1) as [[f1 s1] q1].
  destruct (poll_inbound_session e i p2) as [[f2 s2] q2].
  simpl in H. injection H as <- <-.
  destruct f1; [done|]. destruct (_ && _); [|done].
  pose proof (poll_inbound_session_opt (start_closing s1) i q1 q2) as H.
  destruct (poll_inbound_session (start_closing s1) i q1) as [[g1 t1] r1].
  destruct (poll_inbound_session (start_closing s1) i q2) as [[g2 t2] r2].
  simpl in H. injection H as <- <-. by destruct g1.
Qed.

Lemma inbound_retain_step_closing {Query Data IoError : Type} marked i
    (e e' : InboundSession Data IoError) (p : list (HandlerEvent Query Data IoError)) :
  (inbound_retain_step marked i e p).1 = Some e' -> is_closing e' = true ->
  i ∈ marked \/ is_closing e = true.
Proof.
  unfold inbound_retain_step.
  pose proof (poll_inbound_session_closing e i p) as H1.
  destruct (poll_inbound_session e i p) as [[f1 s1] q1]. simpl in H1.
  destruct f1; [done|].
  destruct (bool_decide (i ∈ marked)) eqn:Hm; simpl.
  - apply bool_decide_eq_true in Hm. auto.
  - intros [= <-]. rewrite H1. auto.
Qed.

Lemma poll_fields {Query Data IoError : Type} (h : Handler Query Data IoError) :
  let inb := hashmap_retain (inbound_retain_step (inbound_sessions_marked_to_end h))
               (id_to_inbound_session h) (pending_events h) in
  let outb := hashmap_retain outbound_retain_step (id_to_outbound_session h) inb.2 in
  id_to_inbound_session (poll h).2 = inb.1 /\
  id_to_outbound_session (poll h).2 = outb.1 /\
  inbound_sessions_marked_to_end (poll h).2 = inbound_sessions_marked_to_end h /\
  peer_id (poll h).2 = peer_id h /\
  config (poll h).2 = config h /\
  match outb.2 with
  | [] => (poll h).1 = Pending /\ pending_events (poll h).2 = []
  | ev :: rest => (poll h).1 = Ready ev /\ pending_events (poll h).2 = rest
  end.
Proof.
  simpl. unfold poll.
  destruct (hashmap_retain (inbound_retain_step _) _ _) as [inb1 p1].
  destruct (hashmap_retain outbound_retain_step _ _) as [outb2 p2].
  by destruct p2.
Qed.

Lemma inbound_lookup_after_poll {Query Data IoError : Type}
    (h : Handler Query Data IoError) i :
  id_to_inbound_session (poll h).2 !! i =
    id_to_inbound_session h !! i ≫=
      (fun e => (inbound_retain_step (Query:=Query) (inbound_sessions_marked_to_end h)
                   i e []).1).
Proof.
  destruct (poll_fields h) as (-> & _).
  apply RetainFacts.hashmap_retain_lookup. intros. apply inbound_retain_step_opt.
Qed.

Lemma new_closing_marked {Query Data IoError : Type} cfg p :
  closing_marked (Handler.new (Query:=Query) (Data:=Data) (IoError:=IoError) cfg p).
Proof. intros i e H. done. Qed.

Lemma poll_closing_marked {Query Data IoError : Type} (h : Handler Query Data IoError) :
  closing_marked h -> closing_marked (poll h).2.
Proof.
  intros Hc i e' Hi Hcl.
  destruct (poll_fields h) as (_ & _ & -> & _).
  rewrite inbound_lookup_after_poll in Hi.
  destruct (id_to_inbound_session h !! i) as [e|] eqn:E; simpl in Hi; [|done].
  destruct (inbound_retain_step_closing _ _ _ _ _ Hi Hcl) as [?|?]; eauto.
Qed.

Lemma on_behaviour_event_closing_marked {Query Data IoError : Type}
    (h : Handler Query Data IoError) rq :
  closing_marked h -> closing_marked (on_behaviour_event h rq).
Proof.
  intros Hc. destruct rq as [q o|d i|[i|o]]; simpl.
  - exact Hc.
  - destruct (id_to_inbound_session h !! i) as [e|] eqn:E; [|exact Hc].
    case_bool_decide as Hm; [exact Hc|].
    intros j e' Hj Hcl; simpl in *.
    destruct (decide (j = i)) as [->|Hne].
    + rewrite lookup_insert_eq in Hj. injection Hj as <-.
      unfold add_message_to_queue in Hcl.
      destruct (is_closing e) eqn:Ec; [|done].
      exfalso. apply Hm. by apply (Hc i e).
    + rewrite lookup_insert_ne in Hj by done. by apply (Hc j e').
  - intros j e' Hj Hcl; simpl in *. apply elem_of_union_r. by apply (Hc j e').
  - intros j e' Hj Hcl; simpl in *. by apply (Hc j e').
Qed.

Lemma on_connection_event_closing_marked {Query Data IoError : Type}
    (h : Handler Query Data IoError) ev :
  closing_marked h -> closing_marked (on_connection_event h ev).
Proof.
  intros Hc. destruct ev as [st o|q st i|o err|i|]; simpl; try exact Hc.
  - intros j e' Hj Hcl; simpl in *.
    destruct (decide (j = i)) as [->|Hne].
    + rewrite lookup_insert_eq in Hj. by injection Hj as <-.
    + rewrite lookup_insert_ne in Hj by done. by apply (Hc j e').
Qed.

Lemma step_handlers_closing_marked {Query Data IoError : Type}
    (s s' : Swarm.Swarm Query Data IoError) :
  Swarm.step s s' -> handlers_closing_marked s -> handlers_closing_marked s'.
Proof.
  unfold handlers_closing_marked.
  intros Hs Hinv; destruct Hs;
    cbn [Swarm.handlers Swarm.connect Swarm.disconnect Swarm.with_behaviour Swarm.mk
         Swarm.connection_event Swarm.with_handlers Swarm.set_upgrades
         Swarm.inbound_substream]; try exact Hinv.
  - apply map_Forall_insert_2; [apply new_closing_marked|exact Hinv].
  - by apply map_Forall_delete.
  - unfold Swarm.behaviour_poll, Behaviour.poll.
    destruct (Behaviour.pending_events (Swarm.behaviour s)) as [|ev rest]; [exact Hinv|].
    destruct ev as [e|p [c|] rq]; simpl; try exact Hinv.
    destruct (Swarm.handlers s !! c) as [h|] eqn:E; simpl; [|exact Hinv].
    apply map_Forall_insert_2; [|exact Hinv].
    apply on_behaviour_event_closing_marked. exact (Hinv c h E).
  - unfold Swarm.handler_poll.
    pose proof (poll_closing_marked h (Hinv c h H)) as Hh.
    destruct (poll h) as [r h'] eqn:E; simpl in Hh.
    destruct r as [|[e|q pn o t]]; simpl; apply map_Forall_insert_2; done.
  - apply map_Forall_insert_2; [|exact Hinv].
    apply on_connection_event_closing_marked. exact (Hinv c h H).
  - apply map_Forall_insert_2; [|exact Hinv].
    apply on_connection_event_closing_marked. exact (Hinv c h H).
  - apply map_Forall_insert_2; [|exact Hinv].
    apply on_connection_event_closing_marked. exact (Hinv c h H).
  - apply map_Forall_insert_2; [|exact Hinv].
    apply on_connection_event_closing_marked. exact (Hinv c h H).
Qed.

Lemma reachable_handlers_closing_marked {Query Data IoError : Type} cfg
    (s : Swarm.Swarm Query Data IoError) :
  Swarm.reachable cfg s -> handlers_closing_marked s.
Proof.
  unfold Swarm.reachable. intros Hr.
  assert (H0 : handlers_closing_marked (Swarm.init (Query:=Query) (Data:=Data)
                                          (IoError:=IoError) cfg))
    by apply map_Forall_empty.
  revert Hr H0. generalize (Swarm.init (Query:=Query) (Data:=Data) (IoError:=IoError) cfg).
  intros s0 Hr0.
  induction Hr0 as [x|x y z Hxy Hyz IH]; intros H0; [exact H0|].
  apply IH. exact (step_handlers_closing_marked _ _ Hxy H0).
Qed.

(** C7: at a reachable state, a handler receiving [SendData(data, id)]
    appends [data] to the queue of the inbound engine of [id] when that
    engine exists and [id] is not marked to end (such an engine is never
    closing), changing nothing else and queueing no event; when there is no
    such engine, or [id] is marked, the handler is left unchanged. *)
Theorem send_data_handler_spec {Query Data IoError : Type} cfg
    (s : Swarm.Swarm Query Data IoError) c h (data : Data) (i : InboundSessionId) :
  Swarm.reachable cfg s -> Swarm.handlers s !! c = Some h ->
  let h' := on_behaviour_event h (SendData data i) in
  match id_to_inbound_session h !! i with
  | Some e =>
      if bool_decide (i ∈ inbound_sessions_marked_to_end h) then h' = h
      else
        is_closing e = false /\
        id_to_inbound_session h' =
          <[i := {| is_closing := false; queue := queue e ++ [data];
                    written := written e; substream := substream e |}]>
            (id_to_inbound_session h) /\
        id_to_outbound_session h' = id_to_outbound_session h /\
        pending_events h' = pending_events h /\
        inbound_sessions_marked_to_end h' = inbound_sessions_marked_to_end h /\
        peer_id h' = peer_id h /\ config h' = config h
  | None => h' = h
  end.
Proof.
  intros Hr Hc.
  pose proof (reachable_handlers_closing_marked cfg s Hr c h Hc) as Hcm.
  simpl. destruct (id_to_inbound_session h !! i) as [e|] eqn:E; [|done].
  case_bool_decide as Hm; [done|].
  assert (Hcl : is_closing e = false).
  { destruct (is_closing e) eqn:Ec; [|done]. exfalso. apply Hm. by apply (Hcm i e). }
  unfold add_message_to_queue. rewrite Hcl. repeat split; done.
Qed.

Lemma send_data_handler_spec_witness :
  Swarm.reachable Example.config Example.inbound_open /\
  Swarm.handlers Example.inbound_open !! 0%nat = Some Example.inbound_handler /\
  id_to_inbound_session Example.inbound_handler !! 0%Z = Some (InboundSession_new []) /\
  (0%Z ∉ inbound_sessions_marked_to_end Example.inbound_handler) /\
  id_to_inbound_session (on_behaviour_event Example.inbound_handler (SendData 5%nat 0%Z)) =
    <[0%Z := {| is_closing := false; queue := [5%nat]; written := [];
                substream := [] |}]>
      (id_to_inbound_session Example.inbound_handler).
Proof.
  assert (Hr : Swarm.reachable Example.config Example.inbound_open).
  { unfold Swarm.reachable.
    eapply rtc_l; [apply (Swarm.step_connect _ 0%nat)|].
    eapply rtc_l; [apply (Swarm.step_inbound_substream _ 0%nat (Handler.new Example.config 0%nat));
                   vm_compute; reflexivity|].
    eapply rtc_l; [apply (Swarm.step_inbound_negotiated _ 0%nat (Handler.new Example.config 0%nat)
                          0%Z 1%nat [] [] []); vm_compute; reflexivity|].
    apply rtc_refl. }
  assert (Hc : Swarm.handlers Example.inbound_open !! 0%nat = Some Example.inbound_handler)
    by (vm_compute; reflexivity).
  assert (He : id_to_inbound_session Example.inbound_handler !! 0%Z =
               Some (InboundSession_new []))
    by (vm_compute; reflexivity).
  assert (Hm : 0%Z ∉ inbound_sessions_marked_to_end Example.inbound_handler)
    by (unfold Example.inbound_handler; simpl; set_solver).
  pose proof (send_data_handler_spec Example.config _ 0%nat _ 5%nat 0%Z Hr Hc) as H.
  cbv zeta in H. rewrite He, bool_decide_false in H by exact Hm.
  destruct H as (_ & Hin & _).
  split; [exact Hr|split; [exact Hc|split; [exact He|split; [exact Hm|exact Hin]]]].
Defined.

End InvariantFacts.

Module RoutingFacts.
Import Swarm Invariants.

Lemma swarm_eta {Query Data IoError : Type} (s : Swarm Query Data IoError) :
  s = mk (behaviour s) (next_inbound_session_id s) (handlers s) (outbound_upgrades s)
         (inbound_upgrades s) (delivered s) (next_connection_id s).
Proof. by destruct s. Qed.

(** One inbound substream opened and failing its negotiation: only the
    shared counter moves. *)
Lemma listen_failed_once {Query Data IoError : Type} (s : Swarm Query Data IoError) c h :
  handlers s !! c = Some h ->
  rtc step s (mk (behaviour s) (wrapping_inc (next_inbound_session_id s)) (handlers s)
                 (outbound_upgrades s) (inbound_upgrades s) (delivered s)
                 (next_connection_id s)).
Proof.
  intros Hc.
  eapply rtc_l; [apply (step_inbound_substream _ c h Hc)|].
  eapply rtc_l.
  { apply (step_inbound_failed _ c h (next_inbound_session_id s) (inbound_upgrades s) []).
    - exact Hc.
    - reflexivity. }
  unfold connection_event, set_upgrades, inbound_substream, with_handlers. simpl.
  rewrite insert_id by exact Hc. rewrite app_nil_r. apply rtc_refl.
Qed.

Lemma listen_failed_iter {Query Data IoError : Type} (k : Z) :
  (0 <= k)%Z ->
  forall (s : Swarm Query Data IoError) c,
  is_Some (handlers s !! c) ->
  (0 <= next_inbound_session_id s < usize_modulus)%Z ->
  rtc step s (mk (behaviour s) ((next_inbound_session_id s + k) mod usize_modulus)
                 (handlers s) (outbound_upgrades s) (inbound_upgrades s) (delivered s)
                 (next_connection_id s)).
Proof.
  intros Hk. pattern k. revert k Hk. apply natlike_ind.
  - intros s c Hc Hn. rewrite Z.add_0_r, Z.mod_small by exact Hn.
    rewrite <- swarm_eta. apply rtc_refl.
  - intros k Hk IH s c [h Hc] Hn.
    eapply rtc_trans; [exact (listen_failed_once s c h Hc)|].
    set (s1 := mk (behaviour s) (wrapping_inc (next_inbound_session_id s)) (handlers s)
                  (outbound_upgrades s) (inbound_upgrades s) (delivered s)
                  (next_connection_id s)).
    pose proof (IH s1 c (mk_is_Some _ _ Hc) (AllocationFacts.wrapping_inc_range _)) as H.
    unfold s1 in H. simpl in H.
    rewrite AllocationFacts.wrapping_inc_add in H.
    replace (k + 1)%Z with (Z.succ k) in H by lia. exact H.
Qed.

(** C1 (counterexample): the shared inbound counter wraps.  An inbound
    session 0 is opened, closed by request (its [SessionClosedByRequest]
    reaches the application and its routing entry is removed); after
    [2^64 - 1] further substreams fail negotiation the counter is back at
    0, a new inbound session gets id 0 again, and the routing table holds
    [Inbound 0] although a terminal event for [Inbound 0] has been emitted. *)
Lemma routing_entry_after_terminal :
  ~ (forall s : Swarm nat nat unit, reachable Example.config s ->
       forall sid,
         is_Some (Behaviour.session_id_to_peer_id_and_connection_id (behaviour s) !! sid) ->
         ~ terminal_emitted s sid).
Proof.
  intros Hclaim.
  assert (exists s : Swarm nat nat unit, reachable Example.config s /\
            Behaviour.session_id_to_peer_id_and_connection_id (behaviour s)
              !! SessionId_Inbound 0 = Some (0%nat, 0%nat) /\
            SessionClosedByRequest (SessionId_Inbound 0) ∈ delivered s)
    as (s & Hr & Ht & Hd).
  { eexists. split.
    - unfold reachable.
      eapply rtc_l; [apply (step_connect _ 0%nat)|].
      eapply rtc_l; [eapply (step_inbound_substream _ 0%nat); reflexivity|].
      eapply rtc_l;
        [eapply (step_inbound_negotiated _ 0%nat _ 0%Z 7%nat [] [] []);
         [reflexivity|vm_compute; reflexivity]|].
      eapply rtc_l; [eapply (step_handler_poll _ 0%nat); reflexivity|].
      eapply rtc_l; [apply (step_close_session _ (SessionId_Inbound 0))|].
      eapply rtc_l; [apply step_behaviour_poll|].
      eapply rtc_l; [apply step_behaviour_poll|].
      eapply rtc_l; [eapply (step_handler_poll _ 0%nat); reflexivity|].
      eapply rtc_l; [apply step_behaviour_poll|].
      eapply rtc_trans;
        [eapply (listen_failed_iter (usize_modulus - 1)%Z
                   ltac:(vm_compute; discriminate) _ 0%nat);
         [vm_compute; by eexists|
          split; [apply Z.leb_le|apply Z.ltb_lt]; vm_compute; reflexivity]|].
      eapply rtc_l; [eapply (step_inbound_substream _ 0%nat); reflexivity|].
      eapply rtc_l;
        [eapply (step_inbound_negotiated _ 0%nat _ 0%Z 7%nat [] [] []);
         [reflexivity|vm_compute; reflexivity]|].
      eapply rtc_l; [eapply (step_handler_poll _ 0%nat); reflexivity|].
      apply rtc_refl.
    - split; vm_compute; [reflexivity|]. right. left. }
  apply (Hclaim s Hr (SessionId_Inbound 0)); [by eexists|].
  exists (SessionClosedByRequest (SessionId_Inbound 0)). split; [|reflexivity].
  unfold emitted_upward. apply elem_of_app. by left.
Qed.

Section RetainEvents.
Context {K V Ev : Type} `{Countable K}.

Lemma retain_loop_new_events (f : K -> V -> list Ev -> option V * list Ev)
    (Q : K -> Ev -> Prop) kvs (m : gmap K V) evs :
  (forall k v evs, exists suf, (f k v evs).2 = evs ++ suf /\ forall x, x ∈ suf -> Q k x) ->
  exists new, (retain_loop f kvs m evs).2 = evs ++ new /\
    forall x, x ∈ new -> exists k, k ∈ kvs.*1 /\ Q k x.
Proof.
  intros Hf. revert m evs. induction kvs as [|[k v] kvs IH]; intros m evs; simpl.
  - exists []. split; [by rewrite app_nil_r|]. intros x Hx. by apply elem_of_nil in Hx.
  - destruct (Hf k v evs) as (suf & Hsuf & HQ).
    destruct (f k v evs) as [ov evs'] eqn:E. simpl in Hsuf. subst evs'.
    destruct (IH (match ov with Some v' => <[k:=v']> m | None => delete k m end)
                 (evs ++ suf)) as (new & Hnew & HQ').
    exists (suf ++ new). split; [by rewrite Hnew, app_assoc|].
    intros x Hx. apply elem_of_app in Hx as [Hx|Hx].
    + exists k. split; [by left|by apply HQ].
    + destruct (HQ' x Hx) as (k' & Hk' & Hq). exists k'. split; [by right|done].
Qed.

Lemma map_to_list_keys (m : gmap K V) k : k ∈ (map_to_list m).*1 -> is_Some (m !! k).
Proof.
  intros Hk. apply list_elem_of_fmap in Hk as [[k' v] [-> Hkv]].
  apply elem_of_map_to_list in Hkv. by eexists.
Qed.

Lemma hashmap_retain_keys (f : K -> V -> list Ev -> option V * list Ev) m evs k :
  (forall k v e1 e2, (f k v e1).1 = (f k v e2).1) ->
  is_Some ((hashmap_retain f m evs).1 !! k) -> is_Some (m !! k).
Proof.
  intros Hind. rewrite RetainFacts.hashmap_retain_lookup by exact Hind.
  destruct (m !! k); simpl; [by eexists|done].
Qed.

End RetainEvents.

Section Helpers.
Context {Query Data IoError : Type}.
Implicit Types (s : Swarm Query Data IoError) (h : Handler.Handler Query Data IoError).

Lemma terminal_event_ids {E : Type} (e : GenericEvent Query Data E) sid :
  terminal_session_id e = Some sid -> sid ∈ event_ids e.
Proof. destruct e; simpl; intros Hs; simplify_eq; by apply list_elem_of_singleton. Qed.

Lemma convert_event_ids (e : Handler.ToBehaviourEvent Query Data IoError) :
  event_ids (Behaviour.convert_event e) = event_ids e /\
  terminal_session_id (Behaviour.convert_event e) = terminal_session_id e.
Proof. destruct e as [| |sid []| |]; done. Qed.

Lemma emitted_upward_elem s e :
  e ∈ emitted_upward s <->
  e ∈ delivered s \/ Behaviour.GenerateEvent e ∈ Behaviour.pending_events (behaviour s).
Proof.
  unfold emitted_upward. rewrite elem_of_app, list_elem_of_omap.
  split; intros [H|H]; auto.
  - destruct H as ([e'|] & Hin & Heq); simplify_eq; auto.
  - right. exists (Behaviour.GenerateEvent e). done.
Qed.

Lemma terminal_emitted_mentions s sid : terminal_emitted s sid -> mentions_core s sid.
Proof.
  intros (e & Hin & Ht). apply terminal_event_ids in Ht.
  apply emitted_upward_elem in Hin as [Hin|Hin]; unfold mentions_core.
  - right; right; left. eauto.
  - right; left. exists (Behaviour.GenerateEvent e). done.
Qed.

Lemma not_new_inbound_notify (e : Handler.ToBehaviourEvent Query Data IoError) j :
  (forall q p, e <> NewInboundSession q j p) ->
  ~ is_new_inbound j (Handler.NotifyBehaviour e).
Proof. intros He (q & p & Heq). injection Heq as ->. by apply (He q p). Qed.

Lemma poll_inbound_session_events (e : Handler.InboundSession Data IoError) i
    (p : list (Handler.HandlerEvent Query Data IoError)) :
  exists suf, (Handler.poll_inbound_session e i p).2 = p ++ suf /\
    forall x, x ∈ suf -> (forall j, ~ is_new_inbound j x) /\
      handler_event_ids x = [SessionId_Inbound i].
Proof.
  unfold Handler.poll_inbound_session.
  destruct (Handler.poll_unpin e) as [[|[|err]] e']; simpl.
  1-2: exists []; split; [by rewrite app_nil_r|intros x Hx; by apply elem_of_nil in Hx].
  eexists. split; [reflexivity|].
  intros x ->%list_elem_of_singleton. split; [|done].
  intros j. apply not_new_inbound_notify. done.
Qed.

Lemma inbound_retain_step_events marked i (e : Handler.InboundSession Data IoError)
    (p : list (Handler.HandlerEvent Query Data IoError)) :
  exists suf, (Handler.inbound_retain_step marked i e p).2 = p ++ suf /\
    forall x, x ∈ suf -> (forall j, ~ is_new_inbound j x) /\
      handler_event_ids x = [SessionId_Inbound i].
Proof.
  unfold Handler.inbound_retain_step.
  destruct (poll_inbound_session_events e i p) as (suf1 & H1 & Q1).
  destruct (Handler.poll_inbound_session e i p) as [[fin s1] p1]. simpl in H1. subst p1.
  destruct fin; [by exists suf1|].
  destruct (_ && _); [|by exists suf1].
  destruct (poll_inbound_session_events (Handler.start_closing s1) i (p ++ suf1))
    as (suf2 & H2 & Q2).
  destruct (Handler.poll_inbound_session (Handler.start_closing s1) i (p ++ suf1))
    as [[fin2 s3] p2]. simpl in H2. subst p2.
  exists (suf1 ++ suf2).
  split; [destruct fin2; by rewrite app_assoc|].
  intros x Hx. apply elem_of_app in Hx as [Hx|Hx]; auto.
Qed.

Lemma outbound_retain_step_events o (os : Handler.OutboundSession Data IoError)
    (p : list (Handler.HandlerEvent Query Data IoError)) :
  exists suf, (Handler.outbound_retain_step o os p).2 = p ++ suf /\
    forall x, x ∈ suf -> (forall j, ~ is_new_inbound j x) /\
      handler_event_ids x = [SessionId_Outbound o].
Proof.
  unfold Handler.outbound_retain_step.
  destruct (Handler.poll_next_unpin os) as [[|[[d|err]|]] os']; simpl.
  1: exists []; split; [by rewrite app_nil_r|intros x Hx; by apply elem_of_nil in Hx].
  all: eexists; split; [reflexivity|].
  all: intros x ->%list_elem_of_singleton; split; [|done].
  all: intros j; apply not_new_inbound_notify; intros q' p' Heq; discriminate.
Qed.

(** One [poll] of a handler: the queue gets events about its own engines
    only (never a [NewInboundSession]), engines only go away, and the
    front of the queue is returned. *)
Lemma poll_shape h :
  exists new,
    (forall x, x ∈ new -> (forall j, ~ is_new_inbound j x) /\
       forall sid, sid ∈ handler_event_ids x -> engine_mentions h sid) /\
    (forall sid, engine_mentions (Handler.poll h).2 sid -> engine_mentions h sid) /\
    Handler.peer_id (Handler.poll h).2 = Handler.peer_id h /\
    match Handler.pending_events h ++ new with
    | [] => (Handler.poll h).1 = Pending /\ Handler.pending_events (Handler.poll h).2 = []
    | ev :: rest => (Handler.poll h).1 = Ready ev /\
                    Handler.pending_events (Handler.poll h).2 = rest
    end.
Proof.
  destruct (InvariantFacts.poll_fields h) as (Hin & Hout & _ & Hpeer & _ & Hm).
  destruct (retain_loop_new_events
              (Handler.inbound_retain_step (Handler.inbound_sessions_marked_to_end h))
              (fun k x => (forall j, ~ is_new_inbound j x) /\
                          handler_event_ids x = [SessionId_Inbound k])
              (map_to_list (Handler.id_to_inbound_session h))
              (Handler.id_to_inbound_session h) (Handler.pending_events h))
    as (new1 & Hn1 & Q1).
  { intros. apply inbound_retain_step_events. }
  set (inb := hashmap_retain (Handler.inbound_retain_step _) _ _) in *.
  assert (Hinb2 : inb.2 = Handler.pending_events h ++ new1) by exact Hn1.
  destruct (retain_loop_new_events Handler.outbound_retain_step
              (fun k x => (forall j, ~ is_new_inbound j x) /\
                          handler_event_ids x = [SessionId_Outbound k])
              (map_to_list (Handler.id_to_outbound_session h))
              (Handler.id_to_outbound_session h) inb.2)
    as (new2 & Hn2 & Q2).
  { intros. apply outbound_retain_step_events. }
  set (outb := hashmap_retain Handler.outbound_retain_step _ _) in *.
  assert (Houtb2 : outb.2 = inb.2 ++ new2) by exact Hn2.
  exists (new1 ++ new2). split; [|split; [|split]].
  - intros x Hx. apply elem_of_app in Hx as [Hx|Hx].
    + destruct (Q1 x Hx) as (k & Hk & Hnis & Hids). split; [exact Hnis|].
      rewrite Hids. intros sid ->%list_elem_of_singleton. by apply map_to_list_keys.
    + destruct (Q2 x Hx) as (k & Hk & Hnis & Hids). split; [exact Hnis|].
      rewrite Hids. intros sid ->%list_elem_of_singleton. by apply map_to_list_keys.
  - intros [i|o]; simpl.
    + rewrite Hin. apply hashmap_retain_keys.
      intros. apply InvariantFacts.inbound_retain_step_opt.
    + rewrite Hout. apply hashmap_retain_keys.
      intros. apply HandlerFacts.outbound_retain_step_opt.
  - exact Hpeer.
  - rewrite Houtb2, Hinb2, <- app_assoc in Hm. exact Hm.
Qed.

(** What a request from the behaviour does to a handler's queue and
    engines. *)
Lemma on_behaviour_event_shape h rq :
  exists extra,
    Handler.pending_events (Handler.on_behaviour_event h rq) =
      Handler.pending_events h ++ extra /\
    (forall x, x ∈ extra -> (forall j, ~ is_new_inbound j x) /\
       forall sid, sid ∈ handler_event_ids x -> sid ∈ request_ids rq) /\
    (forall sid, engine_mentions (Handler.on_behaviour_event h rq) sid ->
       engine_mentions h sid).
Proof.
  destruct rq as [q o|d i|[i|o]]; simpl.
  - eexists. split; [reflexivity|]. split; [|done].
    intros x ->%list_elem_of_singleton. split; [intros j (q' & p' & Heq); discriminate|done].
  - destruct (Handler.id_to_inbound_session h !! i) as [e|] eqn:E.
    + case_bool_decide.
      * exists []. rewrite app_nil_r. split; [done|split; [|done]].
        intros x Hx. by apply elem_of_nil in Hx.
      * exists []. rewrite app_nil_r. split; [done|split].
        { intros x Hx. by apply elem_of_nil in Hx. }
        intros [j|o]; simpl; [|done].
        destruct (decide (j = i)) as [->|Hne].
        -- rewrite E. by eexists.
        -- by rewrite lookup_insert_ne.
    + exists []. rewrite app_nil_r. split; [done|split; [|done]].
      intros x Hx. by apply elem_of_nil in Hx.
  - eexists. split; [reflexivity|]. split; [|done].
    intros x ->%list_elem_of_singleton. split; [|done].
    intros j; apply not_new_inbound_notify; done.
  - eexists. split; [reflexivity|]. split.
    + intros x ->%list_elem_of_singleton. split; [|done].
      intros j; apply not_new_inbound_notify; done.
    + intros [j|o']; simpl; [done|].
      intros [x Hx]. apply lookup_delete_Some in Hx as [_ Hx]. by eexists.
Qed.

Lemma silent_handler_mentions h sid :
  Handler.pending_events h = [] -> handler_mentions h sid -> engine_mentions h sid.
Proof.
  intros Hp [Hm|(ev & Hev & _)]; [exact Hm|]. rewrite Hp in Hev. by apply elem_of_nil in Hev.
Qed.

Lemma terminal_emitted_same s s' sid :
  delivered s' = delivered s ->
  Behaviour.pending_events (behaviour s') = Behaviour.pending_events (behaviour s) ->
  terminal_emitted s' sid <-> terminal_emitted s sid.
Proof. intros HD HP. unfold terminal_emitted, emitted_upward. by rewrite HD, HP. Qed.

Lemma emitted_push_notify s s' p t rq :
  delivered s' = delivered s ->
  Behaviour.pending_events (behaviour s') =
    Behaviour.pending_events (behaviour s) ++ [Behaviour.NotifyHandler p t rq] ->
  emitted_upward s' = emitted_upward s.
Proof.
  intros HD HP. unfold emitted_upward. rewrite HD, HP, omap_app. simpl.
  by rewrite app_nil_r.
Qed.

Lemma new_inbound_in_mentions s c h i ev :
  handlers s !! c = Some h -> ev ∈ Handler.pending_events h -> is_new_inbound i ev ->
  mentions_core s (SessionId_Inbound i).
Proof.
  intros Hc Hev (q & p & ->). right; right; right; left.
  exists c, h. split; [exact Hc|]. right. exists (Handler.NotifyBehaviour (NewInboundSession q i p)).
  split; [exact Hev|]. by apply list_elem_of_singleton.
Qed.

(** Steps that leave the behaviour's table and queue, the delivered events
    and both counters alone, only drop negotiations, and replace handlers
    by the same handler or by one with an empty queue whose engines the
    previous handler of that connection already had. *)
Lemma inv_frame s s' :
  routing_inv s ->
  Behaviour.session_id_to_peer_id_and_connection_id (behaviour s') =
    Behaviour.session_id_to_peer_id_and_connection_id (behaviour s) ->
  Behaviour.pending_events (behaviour s') = Behaviour.pending_events (behaviour s) ->
  Behaviour.next_outbound_session_id (behaviour s') =
    Behaviour.next_outbound_session_id (behaviour s) ->
  next_inbound_session_id s' = next_inbound_session_id s ->
  delivered s' = delivered s ->
  (forall u, u ∈ outbound_upgrades s' -> u ∈ outbound_upgrades s) ->
  inbound_upgrades s' `sublist_of` inbound_upgrades s ->
  (forall c h', handlers s' !! c = Some h' ->
     handlers s !! c = Some h' \/
     (Handler.pending_events h' = [] /\
      forall sid, engine_mentions h' sid ->
        exists h0, handlers s !! c = Some h0 /\ engine_mentions h0 sid)) ->
  routing_inv s'.
Proof.
  intros [Hr Hb Hf Hnd Hn Ht] HT HP HO HN HD HOU HIU Hhs.
  assert (HIUsub : forall u, u ∈ inbound_upgrades s' -> u ∈ inbound_upgrades s)
    by (intros u Hu; by eapply sublist_subseteq).
  assert (Hcore : forall sid, mentions_core s' sid -> mentions_core s sid).
  { intros sid [H|[H|[H|[H|H]]]]; unfold mentions_core; rewrite ?HT, ?HP, ?HD in *.
    - by left.
    - right; left. done.
    - right; right; left. done.
    - destruct H as (c & h' & Hc & Hm). right; right; right; left.
      destruct (Hhs c h' Hc) as [Hc'|[Hp He]]; [by exists c, h'|].
      apply silent_handler_mentions in Hm; [|exact Hp].
      destruct (He sid Hm) as (h0 & Hc0 & Hm0). exists c, h0. split; [done|by left].
    - destruct H as (c & q & o & Hin & ->). right; right; right; right.
      exists c, q, o. split; [by apply HOU|done]. }
  assert (Hbelow : forall sid, below s' sid <-> below s sid)
    by (intros []; unfold below; by rewrite ?HN, ?HO).
  split.
  - rewrite HN, HO. exact Hr.
  - intros sid [Hm|(c & i & Hin & ->)]; apply Hbelow, Hb;
      [left; by apply Hcore|right; eauto].
  - intros c i Hin Hm. apply (Hf c i (HIUsub _ Hin)). by apply Hcore.
  - eapply sublist_NoDup; [exact Hnd|]. by apply fmap_sublist.
  - intros c h i ev Hc Hev Hnis.
    destruct (Hhs c h Hc) as [Hc0|[Hp _]];
      [|rewrite Hp in Hev; by apply elem_of_nil in Hev].
    destruct (Hn c h i ev Hc0 Hev Hnis) as (Ha & Hb' & Hc' & Hd & He & Hf').
    unfold new_inbound_ok. rewrite HT, HP, HD.
    split; [done|split; [done|split; [done|split; [|split; [|done]]]]].
    + intros c' h' Hne Hc'' Hm. destruct (Hhs c' h' Hc'') as [Ho|[Hp He']].
      * exact (Hd c' h' Hne Ho Hm).
      * apply silent_handler_mentions in Hm; [|exact Hp].
        destruct (He' _ Hm) as (h0 & Hc0' & Hm0).
        apply (Hd c' h0 Hne Hc0'). by left.
    + intros c' Hin. apply (He c'). by apply HIUsub.
  - intros sid Hs. rewrite (terminal_emitted_same s s' sid HD HP). apply Ht.
    by rewrite <- HT.
Qed.

Lemma inv_connect s p : routing_inv s -> routing_inv (connect s p).
Proof.
  intros Hinv. apply (inv_frame s); try done.
  intros c h' Hc. simpl in Hc. apply lookup_insert_Some in Hc as [[_ <-]|[_ Hc]].
  - right. split; [done|]. intros [i|o] [x Hx]; simpl in Hx; by rewrite lookup_empty in Hx.
  - by left.
Qed.

Lemma inv_inbound_failed s c h i l1 l2 :
  routing_inv s -> handlers s !! c = Some h ->
  inbound_upgrades s = l1 ++ (c, i) :: l2 ->
  routing_inv (connection_event (set_upgrades s (outbound_upgrades s) (l1 ++ l2)) c h
                 (Handler.ListenUpgradeError i)).
Proof.
  intros Hinv Hc HIU. apply (inv_frame s); try done.
  - simpl. rewrite HIU. apply sublist_app; [done|]. by apply sublist_cons.
  - intros c' h' Hc'. simpl in Hc'. apply lookup_insert_Some in Hc' as [[<- <-]|[_ Hc']].
    + by left.
    + by left.
Qed.

Lemma inv_disconnect s c h :
  routing_inv s -> handlers s !! c = Some h -> routing_inv (disconnect s c h).
Proof.
  intros [Hr Hb Hf Hnd Hn Ht] Hc.
  pose proof (BehaviourFacts.connection_closed_spec (behaviour s) (Handler.peer_id h) c)
    as [HT (new & HP & Hnew)].
  cbv zeta in HT, HP.
  set (s' := disconnect s c h).
  assert (Hbeh : behaviour s' = Behaviour.on_swarm_event (behaviour s)
                   (Behaviour.FromSwarm_ConnectionClosed (Handler.peer_id h) c))
    by reflexivity.
  assert (EO : Behaviour.next_outbound_session_id (behaviour s') =
               Behaviour.next_outbound_session_id (behaviour s)).
  { rewrite Hbeh. simpl. by destruct (hashmap_retain _ _ _). }
  assert (ET : forall sid bnd,
            Behaviour.session_id_to_peer_id_and_connection_id (behaviour s') !! sid = Some bnd ->
            Behaviour.session_id_to_peer_id_and_connection_id (behaviour s) !! sid = Some bnd /\
            bnd <> (Handler.peer_id h, c)).
  { intros sid bnd H. rewrite Hbeh, HT in H.
    destruct (Behaviour.session_id_to_peer_id_and_connection_id (behaviour s) !! sid);
      [|done].
    case_bool_decide; [done|]. by injection H as <-. }
  assert (EN : forall sid,
            Behaviour.session_id_to_peer_id_and_connection_id (behaviour s) !! sid = None ->
            Behaviour.session_id_to_peer_id_and_connection_id (behaviour s') !! sid = None).
  { intros sid H. by rewrite Hbeh, HT, H. }
  assert (EP : Behaviour.pending_events (behaviour s') =
               Behaviour.pending_events (behaviour s) ++ new) by (rewrite Hbeh; exact HP).
  assert (Ehs : forall c' h', handlers s' !! c' = Some h' ->
                  c' <> c /\ handlers s !! c' = Some h').
  { intros c' h' H. change (delete c (handlers s) !! c' = Some h') in H.
    apply lookup_delete_Some in H as [? ?]. done. }
  assert (EOU : forall u, u ∈ outbound_upgrades s' -> u ∈ outbound_upgrades s).
  { intros u Hu. by apply list_elem_of_filter in Hu as [_ Hu]. }
  assert (EIU : inbound_upgrades s' `sublist_of` inbound_upgrades s)
    by apply sublist_filter.
  assert (EIU' : forall u, u ∈ inbound_upgrades s' -> u ∈ inbound_upgrades s)
    by (intros u Hu; by eapply sublist_subseteq).
  assert (EN' : next_inbound_session_id s' = next_inbound_session_id s) by reflexivity.
  assert (ED : delivered s' = delivered s) by reflexivity.
  assert (Hnew' : forall ev sid, ev ∈ new -> sid ∈ to_swarm_ids ev ->
            is_Some (Behaviour.session_id_to_peer_id_and_connection_id (behaviour s) !! sid)).
  { intros ev sid Hev Hsid. destruct (Hnew ev Hev) as (sid' & -> & Hs).
    simpl in Hsid. apply list_elem_of_singleton in Hsid as ->. by eexists. }
  assert (Hcore : forall sid, mentions_core s' sid -> mentions_core s sid).
  { intros sid [H|[H|[H|[H|H]]]]; unfold mentions_core.
    - left. destruct H as [bnd H]. apply ET in H as [H _]. by eexists.
    - destruct H as (ev & Hev & Hsid). rewrite EP in Hev.
      apply elem_of_app in Hev as [Hev|Hev].
      + right; left. by exists ev.
      + left. by apply (Hnew' ev).
    - right; right; left. by rewrite <- ED.
    - destruct H as (c' & h' & Hc' & Hm). apply Ehs in Hc' as [_ Hc'].
      right; right; right; left. by exists c', h'.
    - destruct H as (c' & q & o & Hin & ->). right; right; right; right.
      exists c', q, o. split; [by apply EOU|done]. }
  split.
  - rewrite EN', EO. exact Hr.
  - intros sid Hm.
    assert (Hm' : mentions s sid).
    { destruct Hm as [Hm|(c' & i & Hin & ->)]; [left; by apply Hcore|].
      right. exists c', i. split; [by apply EIU'|done]. }
    apply Hb in Hm'. destruct sid; unfold below in *; by rewrite ?EN', ?EO.
  - intros c' i Hin Hm. apply (Hf c' i (EIU' _ Hin)). by apply Hcore.
  - eapply sublist_NoDup; [exact Hnd|]. by apply fmap_sublist.
  - intros c' h' i ev Hc' Hev Hnis.
    destruct (Ehs c' h' Hc') as [Hne Hc0].
    destruct (Hn c' h' i ev Hc0 Hev Hnis) as (Ha & Hb' & Hc'' & Hd & He & Hf').
    split; [by apply EN|split; [|split; [|split; [|split; [|exact Hf']]]]].
    + intros ev' Hev'. rewrite EP in Hev'. apply elem_of_app in Hev' as [Hev'|Hev'].
      * by apply Hb'.
      * intros Hsid. apply (Hnew' ev' _ Hev') in Hsid. rewrite Ha in Hsid.
        by destruct Hsid.
    + rewrite ED. exact Hc''.
    + intros c'' h'' Hne' Hc3. apply Ehs in Hc3 as [_ Hc3]. exact (Hd c'' h'' Hne' Hc3).
    + intros c'' Hin. apply (He c''). by apply EIU'.
  - intros sid [bnd Hs] (e & Hin & Hterm).
    apply ET in Hs as [Hs Hbnd].
    apply emitted_upward_elem in Hin. rewrite ED, EP, elem_of_app in Hin.
    destruct Hin as [Hin|[Hin|Hin]].
    + apply (Ht sid); [by eexists|]. exists e. split; [|done].
      apply emitted_upward_elem. by left.
    + apply (Ht sid); [by eexists|]. exists e. split; [|done].
      apply emitted_upward_elem. by right.
    + destruct (Hnew _ Hin) as (sid' & Heq & Hs'). injection Heq as ->.
      simpl in Hterm. injection Hterm as ->. congruence.
Qed.

(** Queueing a request about ids that have a routing entry. *)
Lemma inv_push_request s p t rq :
  routing_inv s ->
  (forall sid, sid ∈ request_ids rq ->
     is_Some (Behaviour.session_id_to_peer_id_and_connection_id (behaviour s) !! sid)) ->
  routing_inv (with_behaviour s (Behaviour.push_back (behaviour s)
                                   (Behaviour.NotifyHandler p t rq))).
Proof.
  intros [Hr Hb Hf Hnd Hn Ht] Hrq.
  set (s' := with_behaviour s _).
  assert (EP : Behaviour.pending_events (behaviour s') =
               Behaviour.pending_events (behaviour s) ++ [Behaviour.NotifyHandler p t rq])
    by reflexivity.
  assert (Hcore : forall sid, mentions_core s' sid -> mentions_core s sid).
  { intros sid [H|[H|[H|[H|H]]]]; unfold mentions_core.
    - by left.
    - destruct H as (ev & Hev & Hsid). rewrite EP in Hev.
      apply elem_of_app in Hev as [Hev|Hev%list_elem_of_singleton]; [|subst ev].
      + right; left. by exists ev.
      + left. by apply Hrq.
    - right; right; left. done.
    - right; right; right; left. done.
    - right; right; right; right. done. }
  split.
  - exact Hr.
  - intros sid [Hm|Hm]; apply Hb; [left; by apply Hcore|by right].
  - intros c i Hin Hm. apply (Hf c i Hin). by apply Hcore.
  - exact Hnd.
  - intros c h i ev Hc Hev Hnis.
    destruct (Hn c h i ev Hc Hev Hnis) as (Ha & Hb' & Hc' & Hd & He & Hf').
    split; [exact Ha|split; [|split; [exact Hc'|split; [exact Hd|split; [exact He|exact Hf']]]]].
    intros ev' Hev'. rewrite EP in Hev'.
    apply elem_of_app in Hev' as [Hev'|Hev'%list_elem_of_singleton]; [by apply Hb'|].
    subst ev'.
    intros Hsid. apply Hrq in Hsid. change (behaviour s') with (behaviour s) in Hsid.
    rewrite Ha in Hsid. by destruct Hsid.
  - intros sid Hs Hte. apply (Ht sid Hs).
    unfold terminal_emitted in *.
    rewrite (emitted_push_notify s s' p t rq) in Hte; done.
Qed.

Lemma inv_send_data s data i :
  routing_inv s ->
  routing_inv (with_behaviour s (Behaviour.send_data (behaviour s) data i).2).
Proof.
  intros Hinv. unfold Behaviour.send_data, Behaviour.get_peer_id_and_connection_id_from_session_id.
  destruct (Behaviour.session_id_to_peer_id_and_connection_id (behaviour s)
              !! SessionId_Inbound i) as [[p c]|] eqn:E.
  - apply inv_push_request; [exact Hinv|].
    intros sid ->%list_elem_of_singleton. by rewrite E.
  - replace (with_behaviour s (Err Behaviour.session_id_not_found_error, behaviour s).2)
      with s; [exact Hinv|by destruct s].
Qed.

Lemma inv_close_session s sid :
  routing_inv s ->
  routing_inv (with_behaviour s (Behaviour.close_session (behaviour s) sid).2).
Proof.
  intros Hinv. unfold Behaviour.close_session,
    Behaviour.get_peer_id_and_connection_id_from_session_id.
  destruct (Behaviour.session_id_to_peer_id_and_connection_id (behaviour s) !! sid)
    as [[p c]|] eqn:E.
  - apply inv_push_request; [exact Hinv|].
    intros sid' ->%list_elem_of_singleton. by rewrite E.
  - replace (with_behaviour s (Err Behaviour.session_id_not_found_error, behaviour s).2)
      with s; [exact Hinv|by destruct s].
Qed.

Lemma wrapping_inc_nowrap (n : Z) :
  (0 <= n < usize_modulus)%Z -> (n <= wrapping_inc n)%Z ->
  wrapping_inc n = (n + 1)%Z /\ (n + 1 < usize_modulus)%Z.
Proof.
  unfold wrapping_inc. intros Hn Hle.
  destruct (Z.eq_dec (n + 1)%Z usize_modulus) as [E|E].
  - rewrite E, Z_mod_same_full in Hle. unfold usize_modulus in *. lia.
  - rewrite Z.mod_small in * by lia. lia.
Qed.

Lemma inv_send_query s query peer_id :
  routing_inv s ->
  let s' := with_behaviour s (Behaviour.send_query (behaviour s) query peer_id).2 in
  (Behaviour.next_outbound_session_id (behaviour s) <=
     Behaviour.next_outbound_session_id (behaviour s'))%Z ->
  routing_inv s'.
Proof.
  intros [Hr Hb Hf Hnd Hn Ht]. simpl. unfold Behaviour.send_query.
  destruct (head (elements (Behaviour.connection_ids_of (behaviour s) peer_id)))
    as [c|] eqn:Hhead.
  2: { replace (with_behaviour s (Err Behaviour.peer_not_connected, behaviour s).2)
         with s by (by destruct s).
       intros _. by split. }
  match goal with |- _ -> routing_inv ?x => set (s' := x) end.
  intros Hle.
  set (O := Behaviour.next_outbound_session_id (behaviour s)) in *.
  destruct (wrapping_inc_nowrap O (proj2 Hr) Hle) as [HO HOM].
  assert (ET : Behaviour.session_id_to_peer_id_and_connection_id (behaviour s') =
               <[SessionId_Outbound O := (peer_id, c)]>
                 (Behaviour.session_id_to_peer_id_and_connection_id (behaviour s)))
    by reflexivity.
  assert (EP : Behaviour.pending_events (behaviour s') =
               Behaviour.pending_events (behaviour s) ++
                 [Behaviour.NotifyHandler peer_id (Behaviour.One c)
                    (CreateOutboundSession query O)]) by reflexivity.
  assert (EO : Behaviour.next_outbound_session_id (behaviour s') = (O + 1)%Z)
    by exact HO.
  assert (Hcore : forall sid, mentions_core s' sid ->
                    mentions_core s sid \/ sid = SessionId_Outbound O).
  { intros sid [H|[H|[H|[H|H]]]]; unfold mentions_core.
    - rewrite ET in H. destruct (decide (sid = SessionId_Outbound O)) as [->|Hne];
        [by right|].
      rewrite lookup_insert_ne in H by done. by left; left.
    - destruct H as (ev & Hev & Hsid). rewrite EP in Hev.
      apply elem_of_app in Hev as [Hev|Hev%list_elem_of_singleton].
      + left; right; left. by exists ev.
      + subst ev. simpl in Hsid. apply list_elem_of_singleton in Hsid. by right.
    - left; right; right; left. done.
    - left; right; right; right; left. done.
    - left; right; right; right; right. done. }
  assert (Hemit : forall sid, terminal_emitted s' sid <-> terminal_emitted s sid).
  { intros sid. unfold terminal_emitted. by rewrite (emitted_push_notify s s' peer_id
      (Behaviour.One c) (CreateOutboundSession query O)). }
  split.
  - split; [exact (proj1 Hr)|]. rewrite EO. unfold O in *. lia.
  - intros sid [Hm|(c' & i & Hin & ->)].
    + destruct (Hcore sid Hm) as [Hm'| ->].
      * assert (Hbs := Hb sid (or_introl Hm')). destruct sid; unfold below in *;
          [exact Hbs|]. rewrite EO. unfold O in *. lia.
      * unfold below. rewrite EO. lia.
    + exact (Hb _ (or_intror (ex_intro _ c' (ex_intro _ i (conj Hin eq_refl))))).
  - intros c' i Hin Hm. destruct (Hcore _ Hm) as [Hm'|Heq]; [|discriminate].
    exact (Hf c' i Hin Hm').
  - exact Hnd.
  - intros c' h i ev Hc Hev Hnis.
    destruct (Hn c' h i ev Hc Hev Hnis) as (Ha & Hb' & Hc'' & Hd & He & Hf').
    split; [|split; [|split; [exact Hc''|split; [exact Hd|split; [exact He|exact Hf']]]]].
    + rewrite ET. by rewrite lookup_insert_ne.
    + intros ev' Hev'. rewrite EP in Hev'.
      apply elem_of_app in Hev' as [Hev'|Hev'%list_elem_of_singleton]; [by apply Hb'|].
      subst ev'. simpl. intros Hsid%list_elem_of_singleton. discriminate.
  - intros sid Hs. rewrite Hemit.
    rewrite ET in Hs. destruct (decide (sid = SessionId_Outbound O)) as [->|Hne].
    + intros Hte. apply terminal_emitted_mentions in Hte.
      pose proof (Hb _ (or_introl Hte)) as Hbl. unfold below in Hbl. unfold O in *. lia.
    + rewrite lookup_insert_ne in Hs by done. by apply Ht.
Qed.

Lemma inv_inbound_substream s c h :
  routing_inv s -> handlers s !! c = Some h ->
  (next_inbound_session_id s <= next_inbound_session_id (inbound_substream s c h))%Z ->
  routing_inv (inbound_substream s c h).
Proof.
  intros [Hr Hb Hf Hnd Hn Ht] Hc.
  set (N := next_inbound_session_id s).
  assert (Hs' : inbound_substream s c h =
                mk (behaviour s) (wrapping_inc N) (handlers s) (outbound_upgrades s)
                   (inbound_upgrades s ++ [(c, N)]) (delivered s) (next_connection_id s))
    by reflexivity.
  rewrite Hs'. simpl. intros Hle.
  destruct (wrapping_inc_nowrap N (proj1 Hr) Hle) as [HN HNM].
  assert (Hcore : forall sid,
            mentions_core (mk (behaviour s) (wrapping_inc N) (handlers s)
                             (outbound_upgrades s) (inbound_upgrades s ++ [(c, N)])
                             (delivered s) (next_connection_id s)) sid <->
            mentions_core s sid) by reflexivity.
  assert (Hfresh : forall sid, mentions s sid -> sid <> SessionId_Inbound N).
  { intros sid Hm ->. apply Hb in Hm. unfold below in Hm. unfold N in *. lia. }
  split; simpl.
  - rewrite HN. split; [lia|exact (proj2 Hr)].
  - intros sid [Hm|(c' & i & Hin & ->)].
    + apply Hcore in Hm. pose proof (Hb sid (or_introl Hm)) as Hbs.
      destruct sid; unfold below in *; simpl; [rewrite HN; unfold N in *; lia|exact Hbs].
    + unfold below. simpl. rewrite HN.
      apply elem_of_app in Hin as [Hin|Hin%list_elem_of_singleton].
      * pose proof (Hb _ (or_intror (ex_intro _ c' (ex_intro _ i (conj Hin eq_refl)))))
          as Hbs. unfold below in Hbs. unfold N in *. lia.
      * injection Hin as -> ->. lia.
  - intros c' i Hin Hm. apply Hcore in Hm.
    apply elem_of_app in Hin as [Hin|Hin%list_elem_of_singleton].
    + exact (Hf c' i Hin Hm).
    + injection Hin as -> ->. exact (Hfresh _ (or_introl Hm) eq_refl).
  - rewrite fmap_app. simpl. apply NoDup_app. split; [exact Hnd|split; [|apply NoDup_singleton]].
    intros x Hx ->%list_elem_of_singleton.
    apply list_elem_of_fmap in Hx as [[c' i] [Hi Hin]]. simpl in Hi. subst i.
    exact (Hfresh _ (or_intror (ex_intro _ c' (ex_intro _ N (conj Hin eq_refl)))) eq_refl).
  - intros c' h' i ev Hc' Hev Hnis.
    destruct (Hn c' h' i ev Hc' Hev Hnis) as (Ha & Hb' & Hc'' & Hd & He & Hf').
    split; [exact Ha|split; [exact Hb'|split; [exact Hc''|split; [exact Hd|split; [|exact Hf']]]]].
    intros c'' Hin. simpl in Hin.
    apply elem_of_app in Hin as [Hin|Hin%list_elem_of_singleton]; [exact (He c'' Hin)|].
    injection Hin as -> ->.
    exact (Hfresh _ (or_introl (new_inbound_in_mentions s c' h' _ ev Hc' Hev Hnis)) eq_refl).
  - intros sid Hs Hte. apply (Ht sid Hs). exact Hte.
Qed.

(** The behaviour hands a request to the swarm that reaches no handler. *)
Lemma inv_drop_request s p t rq rest :
  routing_inv s ->
  Behaviour.pending_events (behaviour s) = Behaviour.NotifyHandler p t rq :: rest ->
  routing_inv (with_behaviour s (Behaviour.set_pending_events (behaviour s) rest)).
Proof.
  intros [Hr Hb Hf Hnd Hn Ht] EP.
  set (s' := with_behaviour s _).
  assert (Hsub : forall ev, ev ∈ rest -> ev ∈ Behaviour.pending_events (behaviour s))
    by (intros ev Hev; rewrite EP; by right).
  assert (Hem : emitted_upward s' = emitted_upward s)
    by (unfold emitted_upward; rewrite EP; reflexivity).
  assert (Hcore : forall sid, mentions_core s' sid -> mentions_core s sid).
  { intros sid [H|[H|[H|[H|H]]]]; unfold mentions_core.
    - by left.
    - destruct H as (ev & Hev & Hsid). right; left. exists ev. split; [by apply Hsub|done].
    - right; right; left. done.
    - right; right; right; left. done.
    - right; right; right; right. done. }
  split.
  - exact Hr.
  - intros sid [Hm|Hm]; apply Hb; [left; by apply Hcore|by right].
  - intros c i Hin Hm. apply (Hf c i Hin). by apply Hcore.
  - exact Hnd.
  - intros c h i ev Hc Hev Hnis.
    destruct (Hn c h i ev Hc Hev Hnis) as (Ha & Hb' & Hc' & Hd & He & Hf').
    split; [exact Ha|split; [|split; [exact Hc'|split; [exact Hd|split; [exact He|exact Hf']]]]].
    intros ev' Hev'. apply Hb'. by apply Hsub.
  - intros sid Hs Hte. apply (Ht sid Hs). unfold terminal_emitted in *. by rewrite <- Hem.
Qed.

(** The behaviour returns an event to the application. *)
Lemma inv_deliver s e rest :
  routing_inv s ->
  Behaviour.pending_events (behaviour s) = Behaviour.GenerateEvent e :: rest ->
  routing_inv (route_to_swarm (with_behaviour s (Behaviour.set_pending_events (behaviour s) rest))
                 (Behaviour.GenerateEvent e)).
Proof.
  intros [Hr Hb Hf Hnd Hn Ht] EP.
  match goal with |- routing_inv ?x => set (s' := x) end.
  assert (Hsub : forall ev, ev ∈ rest -> ev ∈ Behaviour.pending_events (behaviour s))
    by (intros ev Hev; rewrite EP; by right).
  assert (Hge : Behaviour.GenerateEvent e ∈ Behaviour.pending_events (behaviour s))
    by (rewrite EP; by left).
  assert (ED : delivered s' = delivered s ++ [e]) by reflexivity.
  assert (Hem : emitted_upward s' = emitted_upward s).
  { unfold emitted_upward. rewrite EP, ED, <- app_assoc. reflexivity. }
  assert (Hcore : forall sid, mentions_core s' sid -> mentions_core s sid).
  { intros sid [H|[H|[H|[H|H]]]]; unfold mentions_core.
    - by left.
    - destruct H as (ev & Hev & Hsid). right; left. exists ev. split; [by apply Hsub|done].
    - destruct H as (e' & He' & Hsid). rewrite ED in He'.
      apply elem_of_app in He' as [He'|He'%list_elem_of_singleton].
      + right; right; left. by exists e'.
      + subst e'. right; left. exists (Behaviour.GenerateEvent e). done.
    - right; right; right; left. done.
    - right; right; right; right. done. }
  split.
  - exact Hr.
  - intros sid [Hm|Hm]; apply Hb; [left; by apply Hcore|by right].
  - intros c i Hin Hm. apply (Hf c i Hin). by apply Hcore.
  - exact Hnd.
  - intros c h i ev Hc Hev Hnis.
    destruct (Hn c h i ev Hc Hev Hnis) as (Ha & Hb' & Hc' & Hd & He & Hf').
    split; [exact Ha|split; [|split; [|split; [exact Hd|split; [exact He|exact Hf']]]]].
    + intros ev' Hev'. apply Hb'. by apply Hsub.
    + intros e' He'. rewrite ED in He'.
      apply elem_of_app in He' as [He'|He'%list_elem_of_singleton]; [by apply Hc'|].
      subst e'. exact (Hb' _ Hge).
  - intros sid Hs Hte. apply (Ht sid Hs). unfold terminal_emitted in *. by rewrite <- Hem.
Qed.

Lemma on_behaviour_event_mentions h rq sid :
  handler_mentions (Handler.on_behaviour_event h rq) sid ->
  handler_mentions h sid \/ sid ∈ request_ids rq.
Proof.
  destruct (on_behaviour_event_shape h rq) as (extra & HP & Hx & He).
  intros [Hm|(ev & Hev & Hsid)].
  - left. left. by apply He.
  - rewrite HP in Hev. apply elem_of_app in Hev as [Hev|Hev].
    + left. right. by exists ev.
    + right. by apply (Hx ev Hev).
Qed.

(** The behaviour hands a request to the handler of [c]. *)
Lemma inv_route s p c h rq rest :
  routing_inv s ->
  Behaviour.pending_events (behaviour s) = Behaviour.NotifyHandler p (Behaviour.One c) rq :: rest ->
  handlers s !! c = Some h ->
  routing_inv (with_handlers (with_behaviour s (Behaviour.set_pending_events (behaviour s) rest))
                 (<[c := Handler.on_behaviour_event h rq]> (handlers s))).
Proof.
  intros [Hr Hb Hf Hnd Hn Ht] EP Hc.
  match goal with |- routing_inv ?x => set (s' := x) end.
  assert (Hsub : forall ev, ev ∈ rest -> ev ∈ Behaviour.pending_events (behaviour s))
    by (intros ev Hev; rewrite EP; by right).
  assert (Hrq : forall sid, sid ∈ request_ids rq ->
            exists ev, ev ∈ Behaviour.pending_events (behaviour s) /\ sid ∈ to_swarm_ids ev).
  { intros sid Hsid. exists (Behaviour.NotifyHandler p (Behaviour.One c) rq).
    rewrite EP. split; [by left|exact Hsid]. }
  assert (Hem : emitted_upward s' = emitted_upward s)
    by (unfold emitted_upward; rewrite EP; reflexivity).
  assert (Hhs : handlers s' = <[c := Handler.on_behaviour_event h rq]> (handlers s))
    by reflexivity.
  assert (Hcore : forall sid, mentions_core s' sid -> mentions_core s sid).
  { intros sid [H|[H|[H|[H|H]]]]; unfold mentions_core.
    - by left.
    - destruct H as (ev & Hev & Hsid). right; left. exists ev. split; [by apply Hsub|done].
    - right; right; left. done.
    - destruct H as (c' & h' & Hc' & Hm). rewrite Hhs in Hc'.
      apply lookup_insert_Some in Hc' as [[<- <-]|[_ Hc']].
      + apply on_behaviour_event_mentions in Hm as [Hm|Hm].
        * right; right; right; left. by exists c, h.
        * right; left. by apply Hrq.
      + right; right; right; left. by exists c', h'.
    - right; right; right; right. done. }
  split.
  - exact Hr.
  - intros sid [Hm|Hm]; apply Hb; [left; by apply Hcore|by right].
  - intros c' i Hin Hm. apply (Hf c' i Hin). by apply Hcore.
  - exact Hnd.
  - intros c' h' j ev Hc' Hev Hnis. rewrite Hhs in Hc'.
    apply lookup_insert_Some in Hc' as [[<- <-]|[Hne Hc']].
    + destruct (on_behaviour_event_shape h rq) as (extra & HP & Hx & _).
      rewrite HP in Hev. apply elem_of_app in Hev as [Hev|Hev];
        [|by destruct (proj1 (Hx ev Hev) j)].
      destruct (Hn c h j ev Hc Hev Hnis)
        as (Ha & Hb' & Hc' & Hd & He & (pre & ev0 & post & Hpre & Hnis0 & Hpre' & Hpost)).
      split; [exact Ha|split; [|split; [exact Hc'|split; [|split; [exact He|]]]]].
      * intros ev' Hev'. apply Hb'. by apply Hsub.
      * intros c'' h'' Hne Hc''. rewrite Hhs in Hc''.
        apply lookup_insert_Some in Hc'' as [[-> _]|[_ Hc'']]; [done|].
        exact (Hd c'' h'' Hne Hc'').
      * exists pre, ev0, (post ++ extra). rewrite HP, Hpre, <- app_assoc.
        split; [done|split; [exact Hnis0|split; [exact Hpre'|]]].
        intros x Hx'. apply elem_of_app in Hx' as [Hx'|Hx']; [by apply Hpost|].
        apply (proj1 (Hx x Hx')).
    + destruct (Hn c' h' j ev Hc' Hev Hnis) as (Ha & Hb' & Hc'' & Hd & He & Hf').
      split; [exact Ha|split; [|split; [exact Hc''|split; [|split; [exact He|exact Hf']]]]].
      * intros ev' Hev'. apply Hb'. by apply Hsub.
      * intros c'' h'' Hne' Hc3. rewrite Hhs in Hc3.
        apply lookup_insert_Some in Hc3 as [[<- <-]|[_ Hc3]].
        -- intros Hm. apply on_behaviour_event_mentions in Hm as [Hm|Hm].
           ++ exact (Hd c h Hne' Hc Hm).
           ++ destruct (Hrq _ Hm) as (ev' & Hev' & Hsid). exact (Hb' ev' Hev' Hsid).
        -- exact (Hd c'' h'' Hne' Hc3).
  - intros sid Hs Hte. apply (Ht sid Hs). unfold terminal_emitted in *. by rewrite <- Hem.
Qed.

Lemma inv_behaviour_poll s : routing_inv s -> routing_inv (behaviour_poll s).
Proof.
  intros Hinv. unfold behaviour_poll, Behaviour.poll.
  destruct (Behaviour.pending_events (behaviour s)) as [|ev rest] eqn:EP; [exact Hinv|].
  destruct ev as [e|p [c|] rq].
  - by apply inv_deliver.
  - simpl. destruct (handlers s !! c) as [h|] eqn:Hc.
    + by apply (inv_route s p c h rq rest).
    + by apply (inv_drop_request s p (Behaviour.One c) rq rest).
  - by apply (inv_drop_request s p Behaviour.Any rq rest).
Qed.

(** The handler of [c] gives the swarm its front event [x0]: the handler
    knows no id it did not know, [x0] is about ids it knew, and what the
    behaviour's table, queue and the negotiations gain is about [x0]. *)
Lemma inv_handler_emit s s' c h h' (x0 : Handler.HandlerEvent Query Data IoError) :
  routing_inv s ->
  handlers s !! c = Some h ->
  handlers s' = <[c := h']> (handlers s) ->
  (forall sid, handler_mentions h' sid -> handler_mentions h sid) ->
  (forall sid, sid ∈ handler_event_ids x0 -> handler_mentions h sid) ->
  (forall j ev, ev ∈ Handler.pending_events h' -> is_new_inbound j ev ->
     ev ∈ Handler.pending_events h) ->
  (forall j ev, ev ∈ Handler.pending_events h' -> is_new_inbound j ev ->
     new_inbound_ok s c h j ->
     (SessionId_Inbound j ∉ handler_event_ids x0) /\
     exists pre ev0 post, Handler.pending_events h' = pre ++ ev0 :: post /\
       is_new_inbound j ev0 /\
       (forall x, x ∈ pre -> SessionId_Inbound j ∉ handler_event_ids x) /\
       (forall x, x ∈ post -> ~ is_new_inbound j x)) ->
  next_inbound_session_id s' = next_inbound_session_id s ->
  Behaviour.next_outbound_session_id (behaviour s') =
    Behaviour.next_outbound_session_id (behaviour s) ->
  inbound_upgrades s' = inbound_upgrades s ->
  delivered s' = delivered s ->
  (forall sid, sid ∉ handler_event_ids x0 ->
     Behaviour.session_id_to_peer_id_and_connection_id (behaviour s') !! sid =
     Behaviour.session_id_to_peer_id_and_connection_id (behaviour s) !! sid) ->
  (forall ev, ev ∈ Behaviour.pending_events (behaviour s') ->
     ev ∈ Behaviour.pending_events (behaviour s) \/
     forall sid, sid ∈ to_swarm_ids ev -> sid ∈ handler_event_ids x0) ->
  (forall u, u ∈ outbound_upgrades s' ->
     u ∈ outbound_upgrades s \/
     exists q o, u = (c, q, o) /\ SessionId_Outbound o ∈ handler_event_ids x0) ->
  (forall sid,
     is_Some (Behaviour.session_id_to_peer_id_and_connection_id (behaviour s') !! sid) ->
     ~ terminal_emitted s' sid) ->
  routing_inv s'.
Proof.
  intros [Hr Hb Hf Hnd Hn Ht] Hc Hhs K1 K2 K3 K4 EN EO EIU ED ET EP EOU Htab.
  assert (Hx0 : forall sid, sid ∈ handler_event_ids x0 -> mentions_core s sid).
  { intros sid Hsid. right; right; right; left. exists c, h. split; [done|by apply K2]. }
  assert (Hcore : forall sid, mentions_core s' sid -> mentions_core s sid).
  { intros sid [H|[H|[H|[H|H]]]].
    - destruct (decide (sid ∈ handler_event_ids x0)) as [Hin|Hnin]; [by apply Hx0|].
      left. by rewrite <- ET.
    - destruct H as (ev & Hev & Hsid). destruct (EP ev Hev) as [Hev'|Hids].
      + right; left. by exists ev.
      + apply Hx0. by apply Hids.
    - right; right; left. by rewrite <- ED.
    - destruct H as (c' & h'' & Hc' & Hm). rewrite Hhs in Hc'.
      apply lookup_insert_Some in Hc' as [[<- <-]|[_ Hc']].
      + right; right; right; left. exists c, h. split; [done|by apply K1].
      + right; right; right; left. by exists c', h''.
    - destruct H as (c' & q & o & Hin & ->). destruct (EOU _ Hin) as [Hin'|(q' & o' & Heq & Ho)].
      + right; right; right; right. by exists c', q, o.
      + injection Heq as -> -> ->. by apply Hx0. }
  assert (Hbelow : forall sid, below s' sid <-> below s sid)
    by (intros []; unfold below; by rewrite ?EN, ?EO).
  split.
  - rewrite EN, EO. exact Hr.
  - intros sid [Hm|(c' & i & Hin & ->)]; apply Hbelow, Hb;
      [left; by apply Hcore|right; rewrite <- EIU; eauto].
  - intros c' i Hin Hm. rewrite EIU in Hin. apply (Hf c' i Hin). by apply Hcore.
  - by rewrite EIU.
  - intros c' h'' j ev Hc' Hev Hnis. rewrite Hhs in Hc'.
    apply lookup_insert_Some in Hc' as [[<- <-]|[Hne Hc']].
    + pose proof (Hn c h j ev Hc (K3 j ev Hev Hnis) Hnis) as Hok.
      destruct (K4 j ev Hev Hnis Hok) as [Hj Hf'].
      destruct Hok as (Ha & Hb' & Hc' & Hd & He & _).
      split; [by rewrite ET|split; [|split; [|split; [|split; [|exact Hf']]]]].
      * intros ev' Hev'. destruct (EP ev' Hev') as [Hev''|Hids]; [by apply Hb'|].
        intros Hsid. by apply Hj, Hids.
      * rewrite ED. exact Hc'.
      * intros c'' h3 Hne Hc''. rewrite Hhs in Hc''.
        apply lookup_insert_Some in Hc'' as [[-> _]|[_ Hc'']]; [done|].
        exact (Hd c'' h3 Hne Hc'').
      * rewrite EIU. exact He.
    + destruct (Hn c' h'' j ev Hc' Hev Hnis) as (Ha & Hb' & Hc'' & Hd & He & Hf').
      assert (Hh : ~ handler_mentions h (SessionId_Inbound j)) by exact (Hd c h Hne Hc).
      assert (Hj : SessionId_Inbound j ∉ handler_event_ids x0) by (intros Hin; by apply Hh, K2).
      split; [by rewrite ET|split; [|split; [|split; [|split; [|exact Hf']]]]].
      * intros ev' Hev'. destruct (EP ev' Hev') as [Hev''|Hids]; [by apply Hb'|].
        intros Hsid. by apply Hj, Hids.
      * rewrite ED. exact Hc''.
      * intros c3 h3 Hne' Hc3. rewrite Hhs in Hc3.
        apply lookup_insert_Some in Hc3 as [[<- <-]|[_ Hc3]].
        -- intros Hm. by apply Hh, K1.
        -- exact (Hd c3 h3 Hne' Hc3).
      * rewrite EIU. exact He.
  - exact Htab.
Qed.

(** What [on_connection_handler_event] does to the table and the queue. *)
Lemma on_connection_handler_event_shape (b : Behaviour.Behaviour Query Data IoError) p c e :
  Behaviour.pending_events (Behaviour.on_connection_handler_event b p c e) =
    Behaviour.pending_events b ++ [Behaviour.GenerateEvent (Behaviour.convert_event e)] /\
  Behaviour.next_outbound_session_id (Behaviour.on_connection_handler_event b p c e) =
    Behaviour.next_outbound_session_id b /\
  (forall sid, sid ∉ event_ids e ->
     Behaviour.session_id_to_peer_id_and_connection_id
       (Behaviour.on_connection_handler_event b p c e) !! sid =
     Behaviour.session_id_to_peer_id_and_connection_id b !! sid) /\
  (forall sid, terminal_session_id e = Some sid ->
     Behaviour.session_id_to_peer_id_and_connection_id
       (Behaviour.on_connection_handler_event b p c e) !! sid = None) /\
  (forall sid,
     is_Some (Behaviour.session_id_to_peer_id_and_connection_id
                (Behaviour.on_connection_handler_event b p c e) !! sid) ->
     is_Some (Behaviour.session_id_to_peer_id_and_connection_id b !! sid) \/
     exists q i p', e = NewInboundSession q i p' /\ sid = SessionId_Inbound i).
Proof.
  split; [done|split; [done|split; [|split]]].
  - intros sid Hsid. unfold Behaviour.on_connection_handler_event. simpl.
    destruct e as [q i p'|o d|sid' []|sid'|sid']; simpl in *; try done;
      [rewrite lookup_insert_ne|rewrite lookup_delete_ne ..]; try done;
      intros Heq; apply Hsid; rewrite Heq; by apply list_elem_of_singleton.
  - intros sid Hsid. unfold Behaviour.on_connection_handler_event. simpl.
    destruct e as [q i p'|o d|sid' []|sid'|sid']; simpl in *; try done;
      injection Hsid as ->; apply lookup_delete_eq.
  - intros sid [bnd Hsid]. unfold Behaviour.on_connection_handler_event in Hsid.
    simpl in Hsid.
    destruct e as [q i p'|o d|sid' []|sid'|sid']; simpl in Hsid;
      try (left; by eexists);
      try (apply lookup_delete_Some in Hsid as [_ Hsid]; left; by eexists).
    apply lookup_insert_Some in Hsid as [[<- _]|[_ Hsid]]; [right; by exists q, i, p'|].
    left. by eexists.
Qed.

Lemma inv_handler_poll s c h :
  routing_inv s -> handlers s !! c = Some h -> routing_inv (handler_poll s c h).
Proof.
  intros Hinv Hc. pose proof Hinv as [Hr Hb Hf Hnd Hn Ht].
  destruct (poll_shape h) as (new & Hnew & Heng & Hpeer & Hm).
  unfold handler_poll.
  destruct (Handler.poll h) as [r h'] eqn:E. simpl in Heng, Hpeer, Hm.
  destruct (Handler.pending_events h ++ new) as [|x0 rest] eqn:Eq.
  { destruct Hm as [-> Hp]. apply (inv_frame s); try done.
    intros c' h'' Hc'. simpl in Hc'.
    apply lookup_insert_Some in Hc' as [[<- <-]|[_ Hc']]; [|by left].
    right. split; [done|]. intros sid Hs. exists h. split; [done|by apply Heng]. }
  destruct Hm as [-> Hp].
  assert (Hin : forall x, x ∈ x0 :: rest -> x ∈ Handler.pending_events h \/ x ∈ new)
    by (intros x Hx; rewrite <- Eq in Hx; by apply elem_of_app).
  assert (K1 : forall sid, handler_mentions h' sid -> handler_mentions h sid).
  { intros sid [He|(ev & Hev & Hsid)]; [left; by apply Heng|].
    rewrite Hp in Hev. assert (Hev' : ev ∈ x0 :: rest) by by right.
    destruct (Hin ev Hev') as [H|H].
    - right. by exists ev.
    - left. exact (proj2 (Hnew ev H) sid Hsid). }
  assert (K2 : forall sid, sid ∈ handler_event_ids x0 -> handler_mentions h sid).
  { intros sid Hsid. assert (Hx0 : x0 ∈ x0 :: rest) by by left.
    destruct (Hin x0 Hx0) as [H|H].
    - right. by exists x0.
    - left. exact (proj2 (Hnew x0 H) sid Hsid). }
  assert (Hnis_h : forall j ev, ev ∈ x0 :: rest -> is_new_inbound j ev ->
                     ev ∈ Handler.pending_events h).
  { intros j ev Hev Hnis. destruct (Hin ev Hev) as [H|H]; [done|].
    by destruct (proj1 (Hnew ev H) j). }
  assert (K3 : forall j ev, ev ∈ Handler.pending_events h' -> is_new_inbound j ev ->
                 ev ∈ Handler.pending_events h).
  { intros j ev Hev Hnis. rewrite Hp in Hev. apply (Hnis_h j); [by right|done]. }
  assert (K4 : forall j ev, ev ∈ Handler.pending_events h' -> is_new_inbound j ev ->
     new_inbound_ok s c h j ->
     (SessionId_Inbound j ∉ handler_event_ids x0) /\
     exists pre ev0 post, Handler.pending_events h' = pre ++ ev0 :: post /\
       is_new_inbound j ev0 /\
       (forall x, x ∈ pre -> SessionId_Inbound j ∉ handler_event_ids x) /\
       (forall x, x ∈ post -> ~ is_new_inbound j x)).
  { intros j ev Hev Hnis (_ & _ & _ & _ & _ & (pre & ev0 & post & Hpre & Hnis0 & Hpre' & Hpost)).
    rewrite Hp in Hev |- *. rewrite Hpre in Eq.
    destruct pre as [|y pre']; simpl in Eq; injection Eq as Hy Hrest.
    - exfalso. rewrite <- Hrest in Hev.
      apply elem_of_app in Hev as [H|H]; [by apply (Hpost ev H)|].
      by destruct (proj1 (Hnew ev H) j).
    - subst y. split; [apply Hpre'; by left|].
      exists pre', ev0, (post ++ new).
      split; [by rewrite <- Hrest, <- app_assoc|split; [exact Hnis0|split]].
      + intros x Hx. apply Hpre'. by right.
      + intros x Hx. apply elem_of_app in Hx as [Hx|Hx]; [by apply Hpost|].
        apply (proj1 (Hnew x Hx)). }
  destruct x0 as [e|q pn o t].
  - destruct (on_connection_handler_event_shape (behaviour s) (Handler.peer_id h) c e)
      as (OP & OO & OT & OTerm & OSome).
    destruct (convert_event_ids e) as [Cids Cterm].
    apply (inv_handler_emit s _ c h h' (Handler.NotifyBehaviour e)); try done.
    + intros ev Hev. cbn [behaviour with_behaviour with_handlers mk] in Hev.
      rewrite OP in Hev. apply elem_of_app in Hev as [Hev|Hev%list_elem_of_singleton];
        [by left|].
      right. subst ev. simpl. rewrite Cids. done.
    + intros u Hu. by left.
    + intros sid Hs (e' & He' & Hterm).
      cbn [behaviour with_behaviour with_handlers mk] in Hs.
      apply emitted_upward_elem in He'.
      cbn [behaviour with_behaviour with_handlers mk delivered] in He'.
      rewrite OP, elem_of_app in He'.
      destruct He' as [He'|[He'|He'%list_elem_of_singleton]].
      * destruct (OSome sid Hs) as [Hs'|(q & i & p' & -> & ->)].
        -- apply (Ht sid Hs'). exists e'. split; [|done]. apply emitted_upward_elem. by left.
        -- assert (Hnb : Handler.NotifyBehaviour (NewInboundSession q i p') ∈
                           Handler.pending_events h)
             by (apply (Hnis_h i); [by left|by exists q, p']).
           destruct (Hn c h i _ Hc Hnb ltac:(by exists q, p')) as (_ & _ & Hc' & _).
           apply (Hc' e' He'). by apply terminal_event_ids.
      * destruct (OSome sid Hs) as [Hs'|(q & i & p' & -> & ->)].
        -- apply (Ht sid Hs'). exists e'. split; [|done]. apply emitted_upward_elem. by right.
        -- assert (Hnb : Handler.NotifyBehaviour (NewInboundSession q i p') ∈
                           Handler.pending_events h)
             by (apply (Hnis_h i); [by left|by exists q, p']).
           destruct (Hn c h i _ Hc Hnb ltac:(by exists q, p')) as (_ & Hb' & _).
           apply (Hb' _ He'). simpl. by apply terminal_event_ids.
      * injection He' as ->. rewrite Cterm in Hterm. rewrite (OTerm sid Hterm) in Hs.
        by destruct Hs.
  - apply (inv_handler_emit s _ c h h' (Handler.OutboundSubstreamRequest q pn o t)); try done.
    + intros ev Hev. by left.
    + intros u Hu. simpl in Hu.
      apply elem_of_app in Hu as [Hu|Hu%list_elem_of_singleton]; [by left|].
      right. exists q, o. split; [done|]. by apply list_elem_of_singleton.
Qed.

(** A connection event that only appends to the queue of the handler of [c]
    events that are not [NewInboundSession], and gives it no new inbound id. *)
Lemma inv_handler_replace s s' c h h' extra :
  routing_inv s ->
  handlers s !! c = Some h ->
  handlers s' = <[c := h']> (handlers s) ->
  Handler.pending_events h' = Handler.pending_events h ++ extra ->
  (forall x j, x ∈ extra -> ~ is_new_inbound j x) ->
  (forall sid, handler_mentions h' sid ->
     handler_mentions h sid \/
     ((forall j, sid <> SessionId_Inbound j) /\ mentions_core s sid)) ->
  behaviour s' = behaviour s ->
  next_inbound_session_id s' = next_inbound_session_id s ->
  delivered s' = delivered s ->
  (forall u, u ∈ outbound_upgrades s' -> u ∈ outbound_upgrades s) ->
  inbound_upgrades s' `sublist_of` inbound_upgrades s ->
  routing_inv s'.
Proof.
  intros [Hr Hb Hf Hnd Hn Ht] Hc Hhs HP Hx K1 EB EN ED EOU EIU.
  assert (EIU' : forall u, u ∈ inbound_upgrades s' -> u ∈ inbound_upgrades s)
    by (intros u Hu; by eapply sublist_subseteq).
  assert (Hcore : forall sid, mentions_core s' sid -> mentions_core s sid).
  { intros sid [H|[H|[H|[H|H]]]]; unfold mentions_core; rewrite ?EB, ?ED in *.
    - by left.
    - right; left. done.
    - right; right; left. done.
    - destruct H as (c' & h'' & Hc' & Hm). rewrite Hhs in Hc'.
      apply lookup_insert_Some in Hc' as [[<- <-]|[_ Hc']].
      + destruct (K1 sid Hm) as [Hm'|[_ Hm']]; [|exact Hm'].
        right; right; right; left. by exists c, h.
      + right; right; right; left. by exists c', h''.
    - destruct H as (c' & q & o & Hin & ->). right; right; right; right.
      exists c', q, o. split; [by apply EOU|done]. }
  assert (Hbelow : forall sid, below s' sid <-> below s sid)
    by (intros []; unfold below; by rewrite ?EN, ?EB).
  split.
  - rewrite EN, EB. exact Hr.
  - intros sid [Hm|(c' & i & Hin & ->)]; apply Hbelow, Hb;
      [left; by apply Hcore|right; eauto].
  - intros c' i Hin Hm. apply (Hf c' i (EIU' _ Hin)). by apply Hcore.
  - eapply sublist_NoDup; [exact Hnd|]. by apply fmap_sublist.
  - intros c' h'' j ev Hc' Hev Hnis. rewrite Hhs in Hc'.
    unfold new_inbound_ok. rewrite EB, ED.
    apply lookup_insert_Some in Hc' as [[<- <-]|[Hne Hc']].
    + rewrite HP in Hev. apply elem_of_app in Hev as [Hev|Hev]; [|by destruct (Hx ev j Hev)].
      destruct (Hn c h j ev Hc Hev Hnis)
        as (Ha & Hb' & Hc' & Hd & He & (pre & ev0 & post & Hpre & Hnis0 & Hpre' & Hpost)).
      split; [exact Ha|split; [exact Hb'|split; [exact Hc'|split; [|split]]]].
      * intros c'' h3 Hne Hc''. rewrite Hhs in Hc''.
        apply lookup_insert_Some in Hc'' as [[-> _]|[_ Hc'']]; [done|].
        exact (Hd c'' h3 Hne Hc'').
      * intros c'' Hin. apply (He c''). by apply EIU'.
      * exists pre, ev0, (post ++ extra). rewrite HP, Hpre, <- app_assoc.
        split; [done|split; [exact Hnis0|split; [exact Hpre'|]]].
        intros x Hx'. apply elem_of_app in Hx' as [Hx'|Hx']; [by apply Hpost|].
        by apply Hx.
    + destruct (Hn c' h'' j ev Hc' Hev Hnis) as (Ha & Hb' & Hc'' & Hd & He & Hf').
      split; [exact Ha|split; [exact Hb'|split; [exact Hc''|split; [|split; [|exact Hf']]]]].
      * intros c3 h3 Hne' Hc3. rewrite Hhs in Hc3.
        apply lookup_insert_Some in Hc3 as [[<- <-]|[_ Hc3]].
        -- intros Hm. destruct (K1 _ Hm) as [Hm'|[Hnot _]].
           ++ exact (Hd c h Hne' Hc Hm').
           ++ by apply (Hnot j).
        -- exact (Hd c3 h3 Hne' Hc3).
      * intros c3 Hin. apply (He c3). by apply EIU'.
  - intros sid Hs. rewrite (terminal_emitted_same s s' sid); [|done|by rewrite EB].
    apply Ht. by rewrite <- EB.
Qed.

Lemma inv_outbound_negotiated s c h q o stream l1 l2 :
  routing_inv s -> handlers s !! c = Some h ->
  outbound_upgrades s = l1 ++ (c, q, o) :: l2 ->
  routing_inv (connection_event (set_upgrades s (l1 ++ l2) (inbound_upgrades s)) c h
                 (Handler.FullyNegotiatedOutbound stream o)).
Proof.
  intros Hinv Hc HOU.
  apply (inv_handler_replace s _ c h
           (Handler.on_connection_event h (Handler.FullyNegotiatedOutbound stream o)) []);
    try done.
  - by rewrite app_nil_r.
  - intros x j Hx. by apply elem_of_nil in Hx.
  - intros sid [Hm|Hm]; [|left; by right].
    destruct sid as [i|o']; simpl in Hm; [left; by left|].
    destruct (decide (o' = o)) as [->|Hne].
    + right. split; [done|]. right; right; right; right. exists c, q, o.
      split; [|done]. rewrite HOU. apply elem_of_app. right. by left.
    + rewrite lookup_insert_ne in Hm by congruence. left. by left.
  - intros u Hu. simpl in Hu. rewrite HOU. apply elem_of_app in Hu as [Hu|Hu];
      apply elem_of_app; [by left|right; by right].
Qed.

Lemma inv_outbound_failed s c h q o err l1 l2 :
  routing_inv s -> handlers s !! c = Some h ->
  outbound_upgrades s = l1 ++ (c, q, o) :: l2 ->
  routing_inv (connection_event (set_upgrades s (l1 ++ l2) (inbound_upgrades s)) c h
                 (Handler.DialUpgradeError o err)).
Proof.
  intros Hinv Hc HOU.
  eapply (inv_handler_replace s _ c h
            (Handler.on_connection_event h (Handler.DialUpgradeError o err)) _);
    try done.
  - intros x j ->%list_elem_of_singleton. by apply not_new_inbound_notify.
  - intros sid [Hm|(ev & Hev & Hsid)]; [left; by left|].
    simpl in Hev. apply elem_of_app in Hev as [Hev|Hev%list_elem_of_singleton].
    + left. right. by exists ev.
    + subst ev. simpl in Hsid. apply list_elem_of_singleton in Hsid as ->.
      right. split; [done|]. right; right; right; right. exists c, q, o.
      split; [|done]. rewrite HOU. apply elem_of_app. right. by left.
  - intros u Hu. simpl in Hu. rewrite HOU. apply elem_of_app in Hu as [Hu|Hu];
      apply elem_of_app; [by left|right; by right].
Qed.

Lemma inv_inbound_negotiated s c h i query stream l1 l2 :
  routing_inv s -> handlers s !! c = Some h ->
  inbound_upgrades s = l1 ++ (c, i) :: l2 ->
  routing_inv (connection_event (set_upgrades s (outbound_upgrades s) (l1 ++ l2)) c h
                 (Handler.FullyNegotiatedInbound query stream i)).
Proof.
  intros [Hr Hb Hf Hnd Hn Ht] Hc HIU.
  match goal with |- routing_inv ?x => set (s' := x) end.
  set (h2 := Handler.on_connection_event h (Handler.FullyNegotiatedInbound query stream i)).
  set (ni := Handler.NotifyBehaviour (Query:=Query) (Data:=Data) (IoError:=IoError)
               (NewInboundSession query i (Handler.peer_id h))).
  assert (Hhs : handlers s' = <[c := h2]> (handlers s)) by reflexivity.
  assert (HP2 : Handler.pending_events h2 = Handler.pending_events h ++ [ni]) by reflexivity.
  assert (Hci : (c, i) ∈ inbound_upgrades s)
    by (rewrite HIU; apply elem_of_app; right; by left).
  assert (Hfresh : ~ mentions_core s (SessionId_Inbound i)) by exact (Hf c i Hci).
  assert (Hsub : l1 ++ l2 `sublist_of` inbound_upgrades s)
    by (rewrite HIU; apply sublist_app; [done|by apply sublist_cons]).
  assert (Hnotin : forall c', (c', i) ∉ l1 ++ l2).
  { intros c' Hin. rewrite HIU, fmap_app in Hnd. simpl in Hnd.
    apply NoDup_app in Hnd as (_ & Hdis & Hnd2).
    apply elem_of_app in Hin as [Hin|Hin].
    - apply (Hdis i); [|by left]. apply list_elem_of_fmap. by exists (c', i).
    - apply NoDup_cons in Hnd2 as [Hni _]. apply Hni. apply list_elem_of_fmap.
      by exists (c', i). }
  assert (Hni_j : forall j, is_new_inbound j ni -> j = i).
  { intros j (q' & p' & Heq). by injection Heq. }
  assert (K1 : forall sid, handler_mentions h2 sid ->
                 handler_mentions h sid \/ sid = SessionId_Inbound i).
  { intros [j|o] [Hm|(ev & Hev & Hsid)].
    - simpl in Hm. destruct (decide (j = i)) as [->|Hne]; [by right|].
      rewrite lookup_insert_ne in Hm by congruence. left. by left.
    - rewrite HP2 in Hev. apply elem_of_app in Hev as [Hev|Hev%list_elem_of_singleton].
      + left. right. by exists ev.
      + subst ev. simpl in Hsid. apply list_elem_of_singleton in Hsid. by right.
    - left. by left.
    - rewrite HP2 in Hev. apply elem_of_app in Hev as [Hev|Hev%list_elem_of_singleton].
      + left. right. by exists ev.
      + subst ev. simpl in Hsid. by apply list_elem_of_singleton in Hsid. }
  assert (Hcore : forall sid, mentions_core s' sid ->
                    mentions_core s sid \/ sid = SessionId_Inbound i).
  { intros sid [H|[H|[H|[H|H]]]].
    - left. by left.
    - left. right; left. done.
    - left. right; right; left. done.
    - destruct H as (c' & h' & Hc' & Hm). rewrite Hhs in Hc'.
      apply lookup_insert_Some in Hc' as [[<- <-]|[_ Hc']].
      + destruct (K1 sid Hm) as [Hm'| ->]; [|by right].
        left. right; right; right; left. by exists c, h.
      + left. right; right; right; left. by exists c', h'.
    - left. right; right; right; right. done. }
  split.
  - exact Hr.
  - intros sid Hm0. enough (Hm' : mentions s sid) by exact (Hb sid Hm').
    destruct Hm0 as [Hm|(c' & j & Hin & ->)].
    + destruct (Hcore sid Hm) as [Hm'| ->]; [by left|].
      right. exists c, i. done.
    + right. exists c', j. split; [|done]. by eapply sublist_subseteq.
  - intros c' j Hin Hm. simpl in Hin.
    destruct (decide (j = i)) as [->|Hne]; [by apply (Hnotin c')|].
    destruct (Hcore _ Hm) as [Hm'|Heq]; [|congruence].
    apply (Hf c' j); [by eapply sublist_subseteq|exact Hm'].
  - eapply sublist_NoDup; [exact Hnd|]. by apply fmap_sublist.
  - intros c' h'' j ev Hc' Hev Hnis. rewrite Hhs in Hc'.
    apply lookup_insert_Some in Hc' as [[<- <-]|[Hne Hc']].
    + destruct (decide (j = i)) as [->|Hji].
      * split; [|split; [|split; [|split; [|split]]]].
        -- destruct (Behaviour.session_id_to_peer_id_and_connection_id (behaviour s)
                       !! SessionId_Inbound i) eqn:E; [|done].
           exfalso. apply Hfresh. left. by rewrite E.
        -- intros ev' Hev' Hsid. apply Hfresh. right; left. by exists ev'.
        -- intros e' He' Hsid. apply Hfresh. right; right; left. by exists e'.
        -- intros c'' h3 Hne Hc''. rewrite Hhs in Hc''.
           apply lookup_insert_Some in Hc'' as [[-> _]|[_ Hc'']]; [done|].
           intros Hm. apply Hfresh. right; right; right; left. by exists c'', h3.
        -- exact Hnotin.
        -- exists (Handler.pending_events h), ni, []. split; [exact HP2|].
           split; [by exists query, (Handler.peer_id h)|split].
           ++ intros x Hx Hsid. apply Hfresh. right; right; right; left.
              exists c, h. split; [done|]. right. by exists x.
           ++ intros x Hx. by apply elem_of_nil in Hx.
      * rewrite HP2 in Hev. apply elem_of_app in Hev as [Hev|Hev%list_elem_of_singleton];
          [|subst ev; by destruct (Hji (Hni_j j Hnis))].
        destruct (Hn c h j ev Hc Hev Hnis)
          as (Ha & Hb' & Hc' & Hd & He & (pre & ev0 & post & Hpre & Hnis0 & Hpre' & Hpost)).
        split; [exact Ha|split; [exact Hb'|split; [exact Hc'|split; [|split]]]].
        -- intros c'' h3 Hne Hc''. rewrite Hhs in Hc''.
           apply lookup_insert_Some in Hc'' as [[-> _]|[_ Hc'']]; [done|].
           exact (Hd c'' h3 Hne Hc'').
        -- intros c'' Hin. apply (He c''). by eapply sublist_subseteq.
        -- exists pre, ev0, (post ++ [ni]). rewrite HP2, Hpre, <- app_assoc.
           split; [done|split; [exact Hnis0|split; [exact Hpre'|]]].
           intros x Hx'. apply elem_of_app in Hx' as [Hx'|Hx'%list_elem_of_singleton];
             [by apply Hpost|].
           subst x. intros Hx. by apply Hji, Hni_j.
    + destruct (Hn c' h'' j ev Hc' Hev Hnis) as (Ha & Hb' & Hc'' & Hd & He & Hf').
      assert (Hji : j <> i).
      { intros ->. apply Hfresh. exact (new_inbound_in_mentions s c' h'' i ev Hc' Hev Hnis). }
      split; [exact Ha|split; [exact Hb'|split; [exact Hc''|split; [|split; [|exact Hf']]]]].
      * intros c3 h3 Hne' Hc3. rewrite Hhs in Hc3.
        apply lookup_insert_Some in Hc3 as [[<- <-]|[_ Hc3]].
        -- intros Hm. destruct (K1 _ Hm) as [Hm'|Heq]; [|congruence].
           exact (Hd c h Hne' Hc Hm').
        -- exact (Hd c3 h3 Hne' Hc3).
      * intros c3 Hin. apply (He c3). by eapply sublist_subseteq.
  - intros sid Hs Hte. apply (Ht sid Hs). exact Hte.
Qed.

Lemma inv_init (cfg : Config) : routing_inv (init (Query:=Query) (Data:=Data) (IoError:=IoError) cfg).
Proof.
  assert (Hnone : forall sid, ~ mentions_core (init (Query:=Query) (Data:=Data) (IoError:=IoError) cfg) sid).
  { intros sid [H|[H|[H|[H|H]]]].
    - destruct H as [x Hx]. simpl in Hx. by rewrite lookup_empty in Hx.
    - destruct H as (ev & Hev & _). by apply elem_of_nil in Hev.
    - destruct H as (e & He & _). by apply elem_of_nil in He.
    - destruct H as (c & h & Hc & _). simpl in Hc. by rewrite lookup_empty in Hc.
    - destruct H as (c & q & o & Hin & _). by apply elem_of_nil in Hin. }
  split.
  - simpl. unfold usize_modulus. lia.
  - intros sid [Hm|(c & i & Hin & _)]; [by destruct (Hnone sid)|by apply elem_of_nil in Hin].
  - intros c i Hin. by apply elem_of_nil in Hin.
  - constructor.
  - intros c h i ev Hc. simpl in Hc. by rewrite lookup_empty in Hc.
  - intros sid [x Hx]. simpl in Hx. by rewrite lookup_empty in Hx.
Qed.

Lemma step_nowrap_inv s s' : routing_inv s -> step_nowrap s s' -> routing_inv s'.
Proof.
  intros Hinv [Hst [HN HO]]. destruct Hst.
  - by apply inv_connect.
  - by apply inv_disconnect.
  - by apply inv_send_query.
  - by apply inv_send_data.
  - by apply inv_close_session.
  - by apply inv_behaviour_poll.
  - by apply inv_handler_poll.
  - by apply inv_inbound_substream.
  - by eapply inv_inbound_negotiated.
  - by eapply inv_inbound_failed.
  - by eapply inv_outbound_negotiated.
  - by eapply inv_outbound_failed.
Qed.

Lemma reachable_nowrap_inv cfg s : reachable_nowrap cfg s -> routing_inv s.
Proof.
  unfold reachable_nowrap. intros Hr.
  assert (Hgen : forall s0 s1, rtc step_nowrap s0 s1 -> routing_inv s0 -> routing_inv s1).
  { intros s0 s1 H. induction H as [x|x y z Hxy Hyz IH]; intros H0; [exact H0|].
    apply IH. by eapply step_nowrap_inv. }
  apply (Hgen _ _ Hr). apply inv_init.
Qed.

End Helpers.

Section Created.
Context {Query Data IoError : Type}.
Implicit Types (s : Swarm Query Data IoError).

Local Abbreviation table s :=
  (Behaviour.session_id_to_peer_id_and_connection_id (behaviour s)).

(** A step that keeps the outbound counter, emits upward at least what was
    emitted, drops an entry only once its terminal event is emitted, adds
    entries only for created inbound ids, and creates an inbound id only
    together with its entry. *)
Lemma ci_frame s s' :
  created_inv s ->
  Behaviour.next_outbound_session_id (behaviour s') =
    Behaviour.next_outbound_session_id (behaviour s) ->
  (forall e, e ∈ emitted_upward s -> e ∈ emitted_upward s') ->
  (forall sid, is_Some (table s !! sid) ->
     is_Some (table s' !! sid) \/ terminal_emitted s' sid) ->
  (forall sid, is_Some (table s' !! sid) ->
     is_Some (table s !! sid) \/ exists i, sid = SessionId_Inbound i /\ created s' sid) ->
  (forall i, created s' (SessionId_Inbound i) ->
     created s (SessionId_Inbound i) \/ is_Some (table s' !! SessionId_Inbound i)) ->
  created_inv s'.
Proof.
  intros [Hr Hc Hi Ho] HO HE HK HN HC.
  assert (HT : forall sid, terminal_emitted s sid -> terminal_emitted s' sid).
  { intros sid (e & He & Ht). exists e. split; [by apply HE|done]. }
  assert (HCr : forall sid, created s sid -> created s' sid).
  { intros [i|o]; cbn [created].
    - intros (q & p & H). exists q, p. by apply HE.
    - by rewrite HO. }
  split.
  - by rewrite HO.
  - intros [i|o] Hcr.
    + destruct (HC i Hcr) as [H|H]; [|by left].
      destruct (Hc _ H) as [H'|H']; [by apply HK|right; by apply HT].
    + assert (H : created s (SessionId_Outbound o))
        by (cbn [created] in *; by rewrite HO in Hcr).
      destruct (Hc _ H) as [H'|H']; [by apply HK|right; by apply HT].
  - intros i Hs. destruct (HN _ Hs) as [H|(j & Heq & H)]; [by apply HCr, Hi|].
    injection Heq as ->. exact H.
  - intros o Hs. destruct (HN _ Hs) as [H|(j & Heq & _)]; [by apply Ho|discriminate].
Qed.

Lemma ci_same s s' :
  created_inv s ->
  table s' = table s ->
  emitted_upward s' = emitted_upward s ->
  Behaviour.next_outbound_session_id (behaviour s') =
    Behaviour.next_outbound_session_id (behaviour s) ->
  created_inv s'.
Proof.
  intros Hinv HT HE HO. apply (ci_frame s s' Hinv HO).
  - intros e. by rewrite HE.
  - intros sid. rewrite HT. by left.
  - intros sid. rewrite HT. by left.
  - intros i Hc. left. cbn [created] in *. by rewrite HE in Hc.
Qed.

Lemma ci_init (cfg : Config) :
  created_inv (init (Query:=Query) (Data:=Data) (IoError:=IoError) cfg).
Proof.
  assert (E : emitted_upward (init (Query:=Query) (Data:=Data) (IoError:=IoError) cfg) = [])
    by reflexivity.
  split.
  - simpl. unfold usize_modulus. lia.
  - intros [i|o] Hc; cbn [created] in Hc.
    + destruct Hc as (q & p & Hin). rewrite E in Hin. by apply elem_of_nil in Hin.
    + simpl in Hc. lia.
  - intros i [x Hx]. simpl in Hx. by rewrite lookup_empty in Hx.
  - intros o [x Hx]. simpl in Hx. by rewrite lookup_empty in Hx.
Qed.

(** The behaviour takes an event from a handler. *)
Lemma ci_handler_event s s' p c e :
  created_inv s ->
  behaviour s' = Behaviour.on_connection_handler_event (behaviour s) p c e ->
  delivered s' = delivered s ->
  created_inv s'.
Proof.
  intros Hinv HB HD.
  destruct (on_connection_handler_event_shape (behaviour s) p c e)
    as (OP & OO & OT & OTerm & OSome).
  destruct (convert_event_ids e) as [Cids Cterm].
  assert (HE : emitted_upward s' = emitted_upward s ++ [Behaviour.convert_event e]).
  { unfold emitted_upward. rewrite HD, HB, OP, omap_app. simpl. by rewrite app_assoc. }
  apply (ci_frame s s' Hinv).
  - by rewrite HB.
  - intros e' He'. rewrite HE. apply elem_of_app. by left.
  - intros sid Hs. destruct (decide (terminal_session_id e = Some sid)) as [Ht|Ht].
    + right. exists (Behaviour.convert_event e). split; [|by rewrite Cterm].
      rewrite HE. apply elem_of_app. right. by apply list_elem_of_singleton.
    + left. rewrite HB. unfold Behaviour.on_connection_handler_event. simpl.
      destruct e as [q i p'|o d|sid' []|sid'|sid']; simpl in *;
        try (apply lookup_insert_is_Some'; by right);
        try (apply lookup_delete_is_Some; split; [intros ->; by apply Ht|done]);
        exact Hs.
  - intros sid Hs. rewrite HB in Hs.
    destruct (OSome sid Hs) as [H|(q & i & p' & -> & ->)]; [by left|right].
    exists i. split; [done|]. cbn [created]. exists q, p'. rewrite HE.
    apply elem_of_app. right. by apply list_elem_of_singleton.
  - intros i (q & p' & Hin). rewrite HE in Hin.
    apply elem_of_app in Hin as [Hin|Hin%list_elem_of_singleton];
      [left; by exists q, p'|right].
    rewrite HB. unfold Behaviour.on_connection_handler_event. simpl.
    destruct e as [q0 i0 p0|o d|sid' []|sid'|sid']; simpl in Hin; try discriminate.
    injection Hin as <- <- <-. simpl. rewrite lookup_insert_eq. by eexists.
Qed.

Lemma ci_disconnect s c h : created_inv s -> created_inv (disconnect s c h).
Proof.
  intros Hinv.
  destruct (BehaviourFacts.connection_closed_events_full (behaviour s) (Handler.peer_id h) c)
    as (sids & HP & _ & Hiff & HT & _ & _ & HO & _).
  cbv zeta in *.
  assert (Hb : behaviour (disconnect s c h) =
               Behaviour.on_swarm_event (behaviour s)
                 (Behaviour.FromSwarm_ConnectionClosed (Handler.peer_id h) c))
    by reflexivity.
  assert (HE : emitted_upward (disconnect s c h) =
               emitted_upward s ++
                 map (fun sid => SessionFailed sid Behaviour.ConnectionClosed) sids).
  { unfold emitted_upward. change (delivered (disconnect s c h)) with (delivered s).
    rewrite Hb, HP, omap_app, <- app_assoc. f_equal. f_equal.
    clear. induction sids as [|x l IH]; simpl; [done|]. f_equal. exact IH. }
  apply (ci_frame s _ Hinv).
  - by rewrite Hb.
  - intros e He. rewrite HE. apply elem_of_app. by left.
  - intros sid [bnd Hs].
    destruct (decide (bnd = (Handler.peer_id h, c))) as [->|Hne].
    + right. exists (SessionFailed sid Behaviour.ConnectionClosed). split; [|done].
      rewrite HE. apply elem_of_app. right.
      apply list_elem_of_In.
      apply (in_map (fun sid => SessionFailed sid Behaviour.ConnectionClosed)).
      apply list_elem_of_In, Hiff. exact Hs.
    + left. rewrite Hb, HT, map_lookup_filter, Hs. simpl. case_guard; [by eexists|done].
  - intros sid [bnd Hs]. left. rewrite Hb, HT, map_lookup_filter in Hs.
    destruct (Behaviour.session_id_to_peer_id_and_connection_id (behaviour s) !! sid);
      [by eexists|done].
  - intros i (q & p & Hin). left. exists q, p. rewrite HE in Hin.
    apply elem_of_app in Hin as [Hin|Hin]; [exact Hin|exfalso].
    apply list_elem_of_In, in_map_iff in Hin as (x & Heq & _). discriminate.
Qed.

Lemma ci_send_query s q p :
  created_inv s ->
  created_inv (with_behaviour s (Behaviour.send_query (behaviour s) q p).2).
Proof.
  intros Hinv. pose proof Hinv as [Hr Hc Hi Ho].
  unfold Behaviour.send_query.
  destruct (head (elements (Behaviour.connection_ids_of (behaviour s) p))) as [c|] eqn:E;
    [|by apply (ci_same s)].
  set (n := Behaviour.next_outbound_session_id (behaviour s)) in *.
  set (s' := with_behaviour s _).
  assert (HE : emitted_upward s' = emitted_upward s)
    by (apply (emitted_push_notify s _ p (Behaviour.One c) (CreateOutboundSession q n));
        reflexivity).
  assert (HT : forall sid, terminal_emitted s' sid <-> terminal_emitted s sid)
    by (intros sid; unfold terminal_emitted; by rewrite HE).
  assert (HCi : forall i, created s' (SessionId_Inbound i) <-> created s (SessionId_Inbound i))
    by (intros i; cbn [created]; by rewrite HE).
  assert (HL : forall sid, sid <> SessionId_Outbound n -> table s' !! sid = table s !! sid)
    by (intros sid Hne; simpl; by rewrite lookup_insert_ne).
  assert (HLn : table s' !! SessionId_Outbound n = Some (p, c))
    by (simpl; by rewrite lookup_insert_eq).
  assert (Hw : (wrapping_inc n <= n + 1)%Z).
  { unfold wrapping_inc. apply Z.mod_le; [lia|unfold usize_modulus; lia]. }
  split.
  - simpl. apply AllocationFacts.wrapping_inc_range.
  - intros [i|o] Hcr.
    + apply HCi in Hcr. rewrite HT, HL by discriminate. by apply Hc.
    + cbn [created] in Hcr. simpl in Hcr.
      destruct (Z.eq_dec o n) as [->|Hne]; [left; rewrite HLn; by eexists|].
      rewrite HT, HL by congruence. apply Hc. cbn [created]. lia.
  - intros i Hs. rewrite HL in Hs by discriminate. apply HCi. by apply Hi.
  - intros o Hs. destruct (Z.eq_dec o n) as [->|Hne]; [lia|].
    rewrite HL in Hs by congruence. by apply Ho.
Qed.

Lemma ci_behaviour_poll s : created_inv s -> created_inv (behaviour_poll s).
Proof.
  intros Hinv. unfold behaviour_poll, Behaviour.poll.
  destruct (Behaviour.pending_events (behaviour s)) as [|ev rest] eqn:EP; [exact Hinv|].
  apply (ci_same s); [exact Hinv| | |].
  - destruct ev as [e|p [c|] rq]; simpl; [done| |done].
    by destruct (handlers s !! c).
  - unfold emitted_upward. rewrite EP.
    destruct ev as [e|p [c|] rq]; simpl; [by rewrite <- app_assoc| |done].
    by destruct (handlers s !! c).
  - destruct ev as [e|p [c|] rq]; simpl; [done| |done].
    by destruct (handlers s !! c).
Qed.

Lemma ci_handler_poll s c h : created_inv s -> created_inv (handler_poll s c h).
Proof.
  intros Hinv. unfold handler_poll.
  destruct (Handler.poll h) as [[|[e|q pn o t]] h'].
  - by apply (ci_same s).
  - by apply (ci_handler_event s _ (Handler.peer_id h) c e).
  - by apply (ci_same s).
Qed.

Lemma ci_step s s' : created_inv s -> step s s' -> created_inv s'.
Proof.
  intros Hinv Hst. destruct Hst.
  - by apply (ci_same s).
  - by apply ci_disconnect.
  - by apply ci_send_query.
  - unfold Behaviour.send_data, Behaviour.get_peer_id_and_connection_id_from_session_id.
    destruct (Behaviour.session_id_to_peer_id_and_connection_id (behaviour s)
                !! SessionId_Inbound inbound_session_id) as [[p c]|];
      [|by apply (ci_same s)].
    apply (ci_same s); try done.
    by apply (emitted_push_notify s _ p (Behaviour.One c) (SendData data inbound_session_id)).
  - unfold Behaviour.close_session, Behaviour.get_peer_id_and_connection_id_from_session_id.
    destruct (Behaviour.session_id_to_peer_id_and_connection_id (behaviour s) !! session_id)
      as [[p c]|]; [|by apply (ci_same s)].
    apply (ci_same s); try done.
    by apply (emitted_push_notify s _ p (Behaviour.One c) (CloseSession session_id)).
  - by apply ci_behaviour_poll.
  - by apply ci_handler_poll.
  - unfold inbound_substream. destruct (Handler.listen_protocol h _). by apply (ci_same s).
  - by apply (ci_same s).
  - by apply (ci_same s).
  - by apply (ci_same s).
  - by apply (ci_same s).
Qed.

Lemma reachable_created_inv cfg s : reachable cfg s -> created_inv s.
Proof.
  unfold reachable. intros Hr.
  assert (Hgen : forall s0 s1, rtc step s0 s1 -> created_inv s0 -> created_inv s1).
  { intros s0 s1 H. induction H as [x|x y z Hxy Hyz IH]; intros H0; [exact H0|].
    apply IH. by eapply ci_step. }
  apply (Hgen _ _ Hr). apply ci_init.
Qed.

Lemma reachable_nowrap_reachable cfg s : reachable_nowrap cfg s -> reachable cfg s.
Proof.
  unfold reachable_nowrap, reachable. intros Hr.
  assert (Hgen : forall s0 s1, rtc step_nowrap s0 s1 -> rtc step s0 s1).
  { intros s0 s1 H. induction H as [x|x y z [Hxy _] Hyz IH]; [apply rtc_refl|].
    by eapply rtc_l. }
  by apply Hgen.
Qed.

End Created.

(** C1 (as the code does it): as long as neither usize id counter wraps
    around (every step leaves [next_inbound_session_id] and
    [next_outbound_session_id] no smaller), an id has a routing-table entry
    exactly when it has been created (an outbound id returned by
    [send_query], an inbound id whose [NewInboundSession] the behaviour has
    emitted upward) and the behaviour has not yet emitted a terminal event
    for it. *)
Theorem routing_table_iff_created_nowrap {Query Data IoError : Type} (cfg : Config)
    (s : Swarm Query Data IoError) :
  reachable_nowrap cfg s ->
  forall sid,
    is_Some (Behaviour.session_id_to_peer_id_and_connection_id (behaviour s) !! sid) <->
    created s sid /\ ~ terminal_emitted s sid.
Proof.
  intros Hr sid.
  pose proof (reachable_nowrap_inv cfg s Hr) as Hinv.
  destruct (reachable_created_inv cfg s (reachable_nowrap_reachable cfg s Hr))
    as [_ Hc Hi Ho].
  split.
  - intros Hs. split; [|exact (inv_table s Hinv sid Hs)].
    destruct sid as [i|o]; [by apply Hi|].
    cbn [created]. split; [by apply Ho|].
    apply (inv_below s Hinv (SessionId_Outbound o)). left. by left.
  - intros [Hcr Hnt]. destruct (Hc sid Hcr) as [H|H]; [exact H|contradiction].
Qed.

Lemma routing_table_iff_created_nowrap_witness :
  reachable_nowrap Example.config Example.requeried /\
  created Example.requeried (SessionId_Outbound 0) /\
  terminal_emitted Example.requeried (SessionId_Outbound 0) /\
  ~ is_Some (Behaviour.session_id_to_peer_id_and_connection_id
               (behaviour Example.requeried) !! SessionId_Outbound 0) /\
  created Example.requeried (SessionId_Outbound 1) /\
  ~ terminal_emitted Example.requeried (SessionId_Outbound 1) /\
  is_Some (Behaviour.session_id_to_peer_id_and_connection_id
             (behaviour Example.requeried) !! SessionId_Outbound 1).
Proof.
  assert (Hr : reachable_nowrap Example.config Example.requeried).
  { unfold reachable_nowrap.
    eapply rtc_l;
      [split; [apply (step_connect _ 0%nat)|split; apply Z.leb_le; vm_compute; reflexivity]|].
    eapply rtc_l;
      [split; [apply (step_send_query _ 7%nat 0%nat)|
               split; apply Z.leb_le; vm_compute; reflexivity]|].
    eapply rtc_l;
      [split; [apply (step_disconnect _ 0%nat (Handler.new Example.config 0%nat));
               vm_compute; reflexivity|
               split; apply Z.leb_le; vm_compute; reflexivity]|].
    eapply rtc_l;
      [split; [apply (step_connect _ 1%nat)|split; apply Z.leb_le; vm_compute; reflexivity]|].
    eapply rtc_l;
      [split; [apply (step_send_query _ 7%nat 1%nat)|
               split; apply Z.leb_le; vm_compute; reflexivity]|].
    apply rtc_refl. }
  assert (E : emitted_upward Example.requeried =
              [SessionFailed (SessionId_Outbound 0) Behaviour.ConnectionClosed])
    by (vm_compute; reflexivity).
  assert (C0 : created Example.requeried (SessionId_Outbound 0))
    by (cbn [created]; vm_compute; split; [intros H; discriminate H|reflexivity]).
  assert (C1 : created Example.requeried (SessionId_Outbound 1))
    by (cbn [created]; vm_compute; split; [intros H; discriminate H|reflexivity]).
  assert (T0 : terminal_emitted Example.requeried (SessionId_Outbound 0)).
  { exists (SessionFailed (SessionId_Outbound 0) Behaviour.ConnectionClosed).
    rewrite E. split; [by apply list_elem_of_singleton|reflexivity]. }
  assert (T1 : ~ terminal_emitted Example.requeried (SessionId_Outbound 1)).
  { intros (e & He & Ht). rewrite E in He. apply list_elem_of_singleton in He as ->.
    discriminate. }
  split; [exact Hr|split; [exact C0|split; [exact T0|split; [|split; [exact C1|split]]]]].
  - intros Hs. apply (routing_table_iff_created_nowrap Example.config Example.requeried Hr)
      in Hs as [_ Hs]. exact (Hs T0).
  - exact T1.
  - apply (routing_table_iff_created_nowrap Example.config Example.requeried Hr). by split.
Defined.

End RoutingFacts.

(** Further properties of behaviour.rs and handler.rs. *)
Module ExtraFacts.
Import Swarm Invariants Drivers.

Section Behaviour_ops.
Context {Query Data IoError : Type}.
Implicit Types (b : Behaviour.Behaviour Query Data IoError).

(** The conversion of a handler event into a behaviour event loses
    nothing (it is injective) and never produces
    [SessionFailed(.., ConnectionClosed)], which only [on_swarm_event]
    emits. *)
Theorem convert_event_lossless (e1 e2 : Handler.ToBehaviourEvent Query Data IoError) :
  (Behaviour.convert_event e1 = Behaviour.convert_event e2 -> e1 = e2) /\
  (forall sid, Behaviour.convert_event e1 <> SessionFailed sid Behaviour.ConnectionClosed).
Proof.
  split.
  - destruct e1 as [q i p|o d|sid []|sid|sid], e2 as [q' i' p'|o' d'|sid' []|sid'|sid'];
      simpl; intros H; simplify_eq; done.
  - intros sid. destruct e1 as [q i p|o d|sid' []|sid'|sid']; discriminate.
Qed.

(** [Behaviour::poll] is first-in first-out: polling as many times as
    there are queued events returns them in order and leaves the rest of
    the queue; once the queue is empty, [poll] returns [Pending]. *)
Theorem poll_n_fifo b pre rest :
  Behaviour.pending_events b = pre ++ rest ->
  poll_n b (length pre) = (map Ready pre, Behaviour.set_pending_events b rest) /\
  (rest = [] -> Behaviour.poll (Behaviour.set_pending_events b rest) =
                  (Pending, Behaviour.set_pending_events b rest)).
Proof.
  intros Hp. split; [|intros ->; reflexivity].
  revert b Hp. induction pre as [|x pre IH]; intros b Hp; simpl in *.
  - destruct b; simpl in *. by subst.
  - unfold Behaviour.poll. rewrite Hp.
    rewrite (IH (Behaviour.set_pending_events b (pre ++ rest)) eq_refl). reflexivity.
Qed.

(** [ConnectionClosed(peer_id, connection_id)] drops from the routing table
    exactly the entries bound to that connection, and queues one
    [SessionFailed(id, ConnectionClosed)] per dropped id, each id once;
    the connection map, the pending queries, the outbound counter and the
    configuration are left alone. *)
Theorem connection_closed_events b (p : PeerId) (c : ConnectionId) :
  let b' := Behaviour.on_swarm_event b (Behaviour.FromSwarm_ConnectionClosed p c) in
  exists sids,
    Behaviour.pending_events b' =
      Behaviour.pending_events b ++
        map (fun sid => Behaviour.GenerateEvent
                          (SessionFailed sid Behaviour.ConnectionClosed)) sids /\
    NoDup sids /\
    (forall sid, sid ∈ sids <->
       Behaviour.session_id_to_peer_id_and_connection_id b !! sid = Some (p, c)) /\
    Behaviour.session_id_to_peer_id_and_connection_id b' =
      filter (fun kv => kv.2 <> (p, c)) (Behaviour.session_id_to_peer_id_and_connection_id b) /\
    Behaviour.connection_ids_map b' = Behaviour.connection_ids_map b /\
    Behaviour.pending_queries b' = Behaviour.pending_queries b /\
    Behaviour.next_outbound_session_id b' = Behaviour.next_outbound_session_id b /\
    Behaviour.config b' = Behaviour.config b.
Proof. exact (BehaviourFacts.connection_closed_events_full b p c). Qed.


(** After [send_query] succeeds with id [o], [close_session(Outbound(o))]
    succeeds too and is addressed to the same peer and connection as the
    [CreateOutboundSession] request. *)
Theorem send_query_then_close_session b (q : Query) (p : PeerId) o b1 :
  Behaviour.send_query b q p = (Ok o, b1) ->
  exists c,
    Behaviour.pending_events b1 =
      Behaviour.pending_events b ++
        [Behaviour.NotifyHandler p (Behaviour.One c) (CreateOutboundSession q o)] /\
    Behaviour.close_session b1 (SessionId_Outbound o) =
      (Ok tt, Behaviour.set_pending_events b1
                (Behaviour.pending_events b1 ++
                   [Behaviour.NotifyHandler p (Behaviour.One c)
                      (CloseSession (SessionId_Outbound o))])).
Proof.
  unfold Behaviour.send_query.
  destruct (head (elements (Behaviour.connection_ids_of b p))) as [c|]; [|discriminate].
  intros H. injection H as <- <-. exists c. split; [reflexivity|].
  unfold Behaviour.close_session, Behaviour.get_peer_id_and_connection_id_from_session_id.
  simpl. by rewrite lookup_insert_eq.
Qed.

(** Once a handler of connection [c] of peer [p] reports
    [NewInboundSession(i)], the application can [send_data] on [i] and
    [close_session(Inbound(i))]: both are routed to [(p, c)], the
    reporting connection, whatever peer id the event itself carries. *)
Theorem new_inbound_then_routable b (p : PeerId) (c : ConnectionId) q i p' :
  let b1 := Behaviour.on_connection_handler_event b p c (NewInboundSession q i p') in
  Behaviour.session_id_to_peer_id_and_connection_id b1 !! SessionId_Inbound i = Some (p, c) /\
  (forall d : Data,
     Behaviour.send_data b1 d i =
       (Ok tt, Behaviour.set_pending_events b1
                 (Behaviour.pending_events b1 ++
                    [Behaviour.NotifyHandler p (Behaviour.One c) (SendData d i)]))) /\
  Behaviour.close_session b1 (SessionId_Inbound i) =
    (Ok tt, Behaviour.set_pending_events b1
              (Behaviour.pending_events b1 ++
                 [Behaviour.NotifyHandler p (Behaviour.One c)
                    (CloseSession (SessionId_Inbound i))])).
Proof.
  cbv zeta.
  assert (HT : Behaviour.session_id_to_peer_id_and_connection_id
                 (Behaviour.on_connection_handler_event b p c (NewInboundSession q i p'))
                 !! SessionId_Inbound i = Some (p, c))
    by (simpl; apply lookup_insert_eq).
  split; [exact HT|split].
  - intros d. unfold Behaviour.send_data at 1,
      Behaviour.get_peer_id_and_connection_id_from_session_id. by rewrite HT.
  - unfold Behaviour.close_session at 1,
      Behaviour.get_peer_id_and_connection_id_from_session_id. by rewrite HT.
Qed.

(** After the behaviour has forwarded a terminal event for [sid],
    [close_session(sid)] (and [send_data] when [sid] is inbound) fails
    with [SessionIdNotFoundError] and changes nothing. *)
Theorem terminal_then_unroutable b (p : PeerId) (c : ConnectionId)
    (e : Handler.ToBehaviourEvent Query Data IoError) sid :
  terminal_session_id e = Some sid ->
  Behaviour.close_session (Behaviour.on_connection_handler_event b p c e) sid =
    (Err Behaviour.session_id_not_found_error,
     Behaviour.on_connection_handler_event b p c e) /\
  (forall i (d : Data), sid = SessionId_Inbound i ->
     Behaviour.send_data (Behaviour.on_connection_handler_event b p c e) d i =
       (Err Behaviour.session_id_not_found_error,
        Behaviour.on_connection_handler_event b p c e)).
Proof.
  intros Ht.
  assert (HT : Behaviour.session_id_to_peer_id_and_connection_id
                 (Behaviour.on_connection_handler_event b p c e) !! sid = None).
  { destruct e as [q i p'|o d|sid' []|sid'|sid']; simpl in Ht; simplify_eq;
      apply lookup_delete_eq. }
  split.
  - unfold Behaviour.close_session at 1,
      Behaviour.get_peer_id_and_connection_id_from_session_id. by rewrite HT.
  - intros i d ->. unfold Behaviour.send_data at 1,
      Behaviour.get_peer_id_and_connection_id_from_session_id. by rewrite HT.
Qed.

End Behaviour_ops.

Section Runs.
Context {Query Data IoError : Type}.
Implicit Types (b : Behaviour.Behaviour Query Data IoError)
               (h : Handler.Handler Query Data IoError).

Lemma apply_behaviour_op_connections b op p :
  Behaviour.connection_ids_of b p ⊆
    Behaviour.connection_ids_of (apply_behaviour_op b op) p.
Proof.
  destruct op as [q p'|d i|sid|[p' c|p' c|]|p' c e|]; simpl.
  - unfold Behaviour.send_query.
    by destruct (head (elements (Behaviour.connection_ids_of b p'))).
  - unfold Behaviour.send_data.
    by destruct (Behaviour.get_peer_id_and_connection_id_from_session_id _ _) as [[]|].
  - unfold Behaviour.close_session.
    by destruct (Behaviour.get_peer_id_and_connection_id_from_session_id _ _) as [[]|].
  - unfold Behaviour.connection_ids_of at 2. simpl.
    destruct (decide (p = p')) as [->|Hne].
    + rewrite lookup_insert_eq. simpl. set_solver.
    + by rewrite lookup_insert_ne by congruence.
  - by destruct (hashmap_retain _ _ _).
  - done.
  - done.
  - unfold Behaviour.poll. by destruct (Behaviour.pending_events b).
Qed.

Lemma apply_handler_op_marks h op :
  Handler.inbound_sessions_marked_to_end h ⊆
    Handler.inbound_sessions_marked_to_end (apply_handler_op h op).
Proof.
  destruct op as [|rq|ev]; simpl.
  - destruct (InvariantFacts.poll_fields h) as (_ & _ & -> & _). done.
  - destruct rq as [q o|d i|[i|o]]; simpl; try set_solver.
    destruct (Handler.id_to_inbound_session h !! i); [|done].
    by case_bool_decide.
  - by destruct ev.
Qed.

Lemma poll_single_outbound h o (v : Handler.OutboundSession Data IoError) :
  Handler.id_to_inbound_session h = ∅ ->
  Handler.pending_events h = [] ->
  Handler.id_to_outbound_session h = {[o := v]} ->
  Handler.poll h =
    let '(ov, evs) := Handler.outbound_retain_step o v [] in
    let outb := match ov with
                | Some v' => <[o := v']> {[o := v]}
                | None => delete o {[o := v]}
                end in
    let mk evs := {| Handler.config := Handler.config h; Handler.peer_id := Handler.peer_id h;
                     Handler.id_to_inbound_session := ∅;
                     Handler.id_to_outbound_session := outb;
                     Handler.pending_events := evs;
                     Handler.inbound_sessions_marked_to_end :=
                       Handler.inbound_sessions_marked_to_end h |} in
    match evs with
    | ev :: rest => (Ready ev, mk rest)
    | [] => (Pending, mk [])
    end.
Proof.
  intros Hin Hp Hout. unfold Handler.poll. rewrite Hin, Hp, Hout.
  unfold hashmap_retain. rewrite map_to_list_empty, map_to_list_singleton.
  cbn [retain_loop].
  destruct (Handler.outbound_retain_step o v []) as [[v'|] [|ev rest]]; reflexivity.
Qed.

Lemma handler_poll_n_S h k :
  handler_poll_n h (S k) =
    let '(r, h1) := Handler.poll h in
    let '(rs, h2) := handler_poll_n h1 k in
    (r :: rs, h2).
Proof. reflexivity. Qed.

Lemma stream_poll_n h o ds r (ev : Handler.ToBehaviourEvent Query Data IoError) :
  Handler.id_to_inbound_session h = ∅ ->
  Handler.pending_events h = [] ->
  Handler.id_to_outbound_session h =
    {[o := {| Handler.reads := map Handler.ReadData ds ++ [r]; Handler.finished := false |}]} ->
  Handler.outbound_retain_step o {| Handler.reads := [r]; Handler.finished := false |} [] =
    (None, [Handler.NotifyBehaviour ev]) ->
  (handler_poll_n h (S (length ds))).1 =
    map (fun d => Ready (Handler.NotifyBehaviour (ReceivedData o d))) ds ++
      [Ready (Handler.NotifyBehaviour ev)] /\
  Handler.id_to_inbound_session (handler_poll_n h (S (length ds))).2 = ∅ /\
  Handler.id_to_outbound_session (handler_poll_n h (S (length ds))).2 = ∅ /\
  Handler.pending_events (handler_poll_n h (S (length ds))).2 = [].
Proof.
  intros Hin Hp Hout Hlast. revert h Hin Hp Hout.
  induction ds as [|d ds IH]; intros h Hin Hp Hout.
  - cbn [handler_poll_n length].
    rewrite (poll_single_outbound h o _ Hin Hp Hout). simpl map. simpl app.
    rewrite Hlast. simpl. by rewrite delete_singleton_eq.
  - cbn [length]. rewrite handler_poll_n_S.
    rewrite (poll_single_outbound h o _ Hin Hp Hout).
    remember (S (length ds)) as k eqn:Hk. simpl.
    rewrite insert_singleton_eq.
    match goal with
    | |- context [handler_poll_n ?h1 k] =>
        destruct (IH h1 eq_refl eq_refl eq_refl) as (H1 & H2 & H3 & H4)
    end.
    destruct (handler_poll_n _ k) as [rs h2]. simpl in *.
    rewrite H1. by repeat split.
Qed.

Lemma on_behaviour_event_peer_id h rq :
  Handler.peer_id (Handler.on_behaviour_event h rq) = Handler.peer_id h.
Proof.
  destruct rq as [q o|d i|[i|o]]; simpl; try done.
  destruct (Handler.id_to_inbound_session h !! i); [|done]. by case_bool_decide.
Qed.

Lemma apply_handler_op_new_inbound h op :
  (forall q i p, Handler.NotifyBehaviour (NewInboundSession q i p) ∈ Handler.pending_events h ->
     p = Handler.peer_id h) ->
  Handler.peer_id (apply_handler_op h op) = Handler.peer_id h /\
  (forall q i p, Handler.NotifyBehaviour (NewInboundSession q i p) ∈
                   Handler.pending_events (apply_handler_op h op) ->
     p = Handler.peer_id h).
Proof.
  intros HP. destruct op as [|rq|ev]; simpl.
  - destruct (RoutingFacts.poll_shape h) as (new & Hnew & _ & Hpeer & Hm).
    split; [exact Hpeer|]. intros q i p Hx.
    assert (Hin : Handler.NotifyBehaviour (NewInboundSession q i p) ∈
                    Handler.pending_events h ++ new).
    { destruct (Handler.pending_events h ++ new) as [|ev rest];
        destruct Hm as [_ Hm]; rewrite Hm in Hx; [by apply elem_of_nil in Hx|by right]. }
    apply elem_of_app in Hin as [Hin|Hin]; [by apply (HP q i)|].
    destruct ((proj1 (Hnew _ Hin)) i). by exists q, p.
  - split; [apply on_behaviour_event_peer_id|]. intros q i p Hx.
    destruct (RoutingFacts.on_behaviour_event_shape h rq) as (extra & Hext & Hx' & _).
    rewrite Hext in Hx. apply elem_of_app in Hx as [Hx|Hx]; [by apply (HP q i)|].
    destruct ((proj1 (Hx' _ Hx)) i). by exists q, p.
  - split; [by destruct ev|]. intros q i p Hx.
    destruct ev as [stream o|q' stream i'|o err|i'|]; simpl in Hx;
      try (by apply (HP q i)); apply elem_of_app in Hx as [Hx|Hx];
      try (by apply (HP q i)); apply list_elem_of_singleton in Hx; by simplify_eq.
Qed.

(** Once a connection [c] of peer [p] is recorded, no sequence of calls
    into the behaviour removes it ([ConnectionClosed] included), so
    [send_query] to [p] succeeds from then on, returning the current
    [next_outbound_session_id]. *)
Theorem connected_peer_stays_queryable b (p : PeerId) (c : ConnectionId) ops (q : Query) :
  c ∈ Behaviour.connection_ids_of b p ->
  c ∈ Behaviour.connection_ids_of (run_behaviour_ops b ops) p /\
  (Behaviour.send_query (run_behaviour_ops b ops) q p).1 =
    Ok (Behaviour.next_outbound_session_id (run_behaviour_ops b ops)).
Proof.
  intros Hc.
  assert (Hrun : c ∈ Behaviour.connection_ids_of (run_behaviour_ops b ops) p).
  { unfold run_behaviour_ops. revert b Hc.
    induction ops as [|op ops IH]; intros b Hc; simpl; [done|].
    apply IH. by apply apply_behaviour_op_connections. }
  split; [exact Hrun|].
  apply BehaviourFacts.send_query_connected. set_solver.
Qed.

(** Marking an inbound session to end is permanent in a handler: after
    [CloseSession(Inbound(i))], whatever the swarm does to the handler
    later, [i] stays marked and every [SendData] for [i] is ignored. *)
Theorem marked_inbound_ignored_forever h (i : InboundSessionId) ops (d : Data) :
  i ∈ Handler.inbound_sessions_marked_to_end h ->
  i ∈ Handler.inbound_sessions_marked_to_end (run_handler_ops h ops) /\
  Handler.on_behaviour_event (run_handler_ops h ops) (SendData d i) = run_handler_ops h ops.
Proof.
  intros Hi.
  assert (Hrun : i ∈ Handler.inbound_sessions_marked_to_end (run_handler_ops h ops)).
  { unfold run_handler_ops. revert h Hi.
    induction ops as [|op ops IH]; intros h Hi; simpl; [done|].
    apply IH. by apply apply_handler_op_marks. }
  split; [exact Hrun|]. simpl.
  destruct (Handler.id_to_inbound_session (run_handler_ops h ops) !! i); [|done].
  by rewrite bool_decide_eq_true_2 by exact Hrun.
Qed.

(** One visit of [poll]'s [retain] to an inbound session queues at most one
    event, a [SessionFailed(Inbound(i), IOError)], and a session that
    queued it is dropped from the map. *)
Theorem inbound_pass_one_event (marked : gset InboundSessionId) (i : InboundSessionId)
    (e : Handler.InboundSession Data IoError)
    (p : list (Handler.HandlerEvent Query Data IoError)) :
  (Handler.inbound_retain_step marked i e p).2 = p \/
  exists err, Handler.inbound_retain_step marked i e p =
    (None, p ++ [Handler.NotifyBehaviour
                   (SessionFailed (SessionId_Inbound i) (Handler.IOError err))]).
Proof.
  unfold Handler.inbound_retain_step, Handler.poll_inbound_session.
  destruct (Handler.poll_unpin e) as [[|[|err]] s1]; simpl; [|by left|by right; eexists].
  destruct (bool_decide (i ∈ marked) && Handler.is_waiting s1); simpl; [|by left].
  destruct (Handler.poll_unpin (Handler.start_closing s1)) as [[|[|err]] s2]; simpl;
    [by left|by left|by right; eexists].
Qed.

(** One visit of [poll]'s [retain] to an outbound session queues at most one
    event: nothing or [ReceivedData] and the session is kept, or a terminal
    event for [Outbound(o)] and the session is dropped. *)
Theorem outbound_pass_one_event (o : OutboundSessionId)
    (os : Handler.OutboundSession Data IoError)
    (p : list (Handler.HandlerEvent Query Data IoError)) :
  let '(ov, p') := Handler.outbound_retain_step o os p in
  (p' = p /\ is_Some ov) \/
  (exists d, p' = p ++ [Handler.NotifyBehaviour (ReceivedData o d)] /\ is_Some ov) \/
  (ov = None /\ exists e : Handler.ToBehaviourEvent Query Data IoError,
     p' = p ++ [Handler.NotifyBehaviour e] /\
     terminal_session_id e = Some (SessionId_Outbound o)).
Proof.
  unfold Handler.outbound_retain_step.
  destruct (Handler.poll_next_unpin os) as [[|[[d|err]|]] s']; simpl.
  - left. split; [done|by eexists].
  - right; left. exists d. split; [done|by eexists].
  - right; right. split; [done|]. eexists. split; [reflexivity|done].
  - right; right. split; [done|]. eexists. split; [reflexivity|done].
Qed.

(** A handler whose only session is an outbound one whose substream yields
    the frames [ds] and then ends (or fails) reports, over [length ds + 1]
    polls, one [ReceivedData] per frame in order and then
    [SessionClosedByPeer] (or [SessionFailed] with the I/O error); the
    session is then gone and the next poll is [Pending]. *)
Theorem outbound_session_stream h (o : OutboundSessionId) (ds : list Data)
    (r : Handler.ReadResult Data IoError) (ev : Handler.ToBehaviourEvent Query Data IoError) :
  Handler.id_to_inbound_session h = ∅ ->
  Handler.pending_events h = [] ->
  Handler.id_to_outbound_session h =
    {[o := {| Handler.reads := map Handler.ReadData ds ++ [r]; Handler.finished := false |}]} ->
  (r = Handler.ReadEof /\ ev = SessionClosedByPeer (SessionId_Outbound o)) \/
  (exists err, r = Handler.ReadErr err /\
               ev = SessionFailed (SessionId_Outbound o) (Handler.IOError err)) ->
  (handler_poll_n h (S (length ds))).1 =
    map (fun d => Ready (Handler.NotifyBehaviour (ReceivedData o d))) ds ++
      [Ready (Handler.NotifyBehaviour ev)] /\
  Handler.id_to_outbound_session (handler_poll_n h (S (length ds))).2 = ∅ /\
  (Handler.poll (handler_poll_n h (S (length ds))).2).1 = Pending.
Proof.
  intros Hin Hp Hout Hr.
  assert (Hlast : Handler.outbound_retain_step o
                    {| Handler.reads := [r]; Handler.finished := false |} [] =
                  (None, [Handler.NotifyBehaviour ev])).
  { destruct Hr as [[-> ->]|(err & -> & ->)]; reflexivity. }
  destruct (stream_poll_n h o ds r ev Hin Hp Hout Hlast) as (H1 & H2 & H3 & H4).
  split; [exact H1|split; [exact H3|]].
  unfold Handler.poll. rewrite H2, H3, H4. reflexivity.
Qed.

(** Whatever the swarm does to a handler, its peer id never changes and
    every [NewInboundSession] in its queue names that peer: the event is
    only created by [FullyNegotiatedInbound], with [self.peer_id]. *)
Theorem new_inbound_carries_own_peer h ops :
  (forall q i p, Handler.NotifyBehaviour (NewInboundSession q i p) ∈ Handler.pending_events h ->
     p = Handler.peer_id h) ->
  Handler.peer_id (run_handler_ops h ops) = Handler.peer_id h /\
  (forall q i p, Handler.NotifyBehaviour (NewInboundSession q i p) ∈
                   Handler.pending_events (run_handler_ops h ops) ->
     p = Handler.peer_id h).
Proof.
  unfold run_handler_ops. revert h. induction ops as [|op ops IH]; intros h HP; simpl.
  - split; [done|exact HP].
  - destruct (apply_handler_op_new_inbound h op HP) as [Hpeer HP'].
    rewrite <- Hpeer in HP'. destruct (IH _ HP') as [Hpeer' HP''].
    rewrite Hpeer in Hpeer', HP''. split; [exact Hpeer'|exact HP''].
Qed.

(** A failed outbound upgrade for [o] is reported by the handler as one
    queued [SessionFailed(Outbound(o))] whose error, once converted by the
    behaviour, is [Timeout] with the configured substream timeout,
    [RemoteDoesntSupportProtocol] with the configured protocol name, or
    [IOError]; the behaviour then has no route for [Outbound(o)]. *)
Theorem dial_upgrade_error_reported h (o : OutboundSessionId)
    (err : Handler.StreamUpgradeError IoError) :
  exists e : Handler.ToBehaviourEvent Query Data IoError,
    Handler.pending_events (Handler.on_connection_event h (Handler.DialUpgradeError o err)) =
      Handler.pending_events h ++ [Handler.NotifyBehaviour e] /\
    Behaviour.convert_event e =
      SessionFailed (SessionId_Outbound o)
        match err with
        | Handler.UpgradeTimeout =>
            Behaviour.Timeout (substream_timeout (Handler.config h))
        | Handler.UpgradeNegotiationFailed =>
            Behaviour.RemoteDoesntSupportProtocol (protocol_name (Handler.config h))
        | Handler.UpgradeApply io_error | Handler.UpgradeIo io_error =>
            Behaviour.IOError io_error
        end /\
    Handler.id_to_inbound_session (Handler.on_connection_event h (Handler.DialUpgradeError o err)) =
      Handler.id_to_inbound_session h /\
    Handler.id_to_outbound_session (Handler.on_connection_event h (Handler.DialUpgradeError o err)) =
      Handler.id_to_outbound_session h /\
    (forall b (p : PeerId) (c : ConnectionId),
       Behaviour.session_id_to_peer_id_and_connection_id
         (Behaviour.on_connection_handler_event b p c e) !! SessionId_Outbound o = None).
Proof.
  eexists. split; [reflexivity|]. split; [by destruct err|].
  split; [done|split; [done|]].
  intros b p c. simpl. destruct err; apply lookup_delete_eq.
Qed.

End Runs.

Lemma poll_n_fifo_witness :
  let b := run_behaviour_ops Example.connected_behaviour
             [OpSendQuery 7%nat 0%nat; OpSendQuery 8%nat 0%nat; OpSendQuery 9%nat 0%nat] in
  let e1 := Behaviour.NotifyHandler (Query:=nat) (Data:=nat) (IoError:=unit) 0%nat
              (Behaviour.One 0%nat) (CreateOutboundSession 7%nat 0%Z) in
  let e2 := Behaviour.NotifyHandler (Query:=nat) (Data:=nat) (IoError:=unit) 0%nat
              (Behaviour.One 0%nat) (CreateOutboundSession 8%nat 1%Z) in
  let e3 := Behaviour.NotifyHandler (Query:=nat) (Data:=nat) (IoError:=unit) 0%nat
              (Behaviour.One 0%nat) (CreateOutboundSession 9%nat 2%Z) in
  Behaviour.pending_events b = [e1; e2] ++ [e3] /\
  poll_n b 2 = ([Ready e1; Ready e2], Behaviour.set_pending_events b [e3]) /\
  poll_n b 3 = ([Ready e1; Ready e2; Ready e3], Behaviour.set_pending_events b []) /\
  Behaviour.poll (Behaviour.set_pending_events b []) =
    (Pending, Behaviour.set_pending_events b []).
Proof.
  intros b e1 e2 e3.
  assert (Hp : Behaviour.pending_events b = [e1; e2] ++ [e3]) by (vm_compute; reflexivity).
  destruct (poll_n_fifo b [e1; e2] [e3] Hp) as [H1 _].
  assert (Hp' : Behaviour.pending_events b = [e1; e2; e3] ++ []) by exact Hp.
  destruct (poll_n_fifo b [e1; e2; e3] [] Hp') as [H2 H3].
  split; [exact Hp|split; [exact H1|split; [exact H2|exact (H3 eq_refl)]]].
Defined.

Lemma send_query_then_close_session_witness :
  Behaviour.send_query Example.connected_behaviour 7%nat 0%nat =
    (Ok 0%Z, (Behaviour.send_query Example.connected_behaviour 7%nat 0%nat).2) /\
  exists c,
    Behaviour.pending_events (Behaviour.send_query Example.connected_behaviour 7%nat 0%nat).2 =
      Behaviour.pending_events Example.connected_behaviour ++
        [Behaviour.NotifyHandler 0%nat (Behaviour.One c) (CreateOutboundSession 7%nat 0%Z)] /\
    Behaviour.close_session (Behaviour.send_query Example.connected_behaviour 7%nat 0%nat).2
      (SessionId_Outbound 0%Z) =
      (Ok tt, Behaviour.set_pending_events
                (Behaviour.send_query Example.connected_behaviour 7%nat 0%nat).2
                (Behaviour.pending_events
                   (Behaviour.send_query Example.connected_behaviour 7%nat 0%nat).2 ++
                 [Behaviour.NotifyHandler 0%nat (Behaviour.One c)
                    (CloseSession (SessionId_Outbound 0%Z))])).
Proof.
  assert (Hq : Behaviour.send_query Example.connected_behaviour 7%nat 0%nat =
    (Ok 0%Z, (Behaviour.send_query Example.connected_behaviour 7%nat 0%nat).2))
    by reflexivity.
  split; [exact Hq|exact (send_query_then_close_session _ _ _ _ _ Hq)].
Defined.

Lemma terminal_then_unroutable_witness :
  let e : Handler.ToBehaviourEvent nat nat unit := SessionClosedByPeer (SessionId_Inbound 3%Z) in
  terminal_session_id e = Some (SessionId_Inbound 3%Z) /\
  Behaviour.close_session
    (Behaviour.on_connection_handler_event Example.connected_behaviour 0%nat 0%nat e)
    (SessionId_Inbound 3%Z) =
    (Err Behaviour.session_id_not_found_error,
     Behaviour.on_connection_handler_event Example.connected_behaviour 0%nat 0%nat e) /\
  (forall i (d : nat), SessionId_Inbound 3%Z = SessionId_Inbound i ->
     Behaviour.send_data
       (Behaviour.on_connection_handler_event Example.connected_behaviour 0%nat 0%nat e) d i =
       (Err Behaviour.session_id_not_found_error,
        Behaviour.on_connection_handler_event Example.connected_behaviour 0%nat 0%nat e)).
Proof.
  intros e.
  assert (Ht : terminal_session_id e = Some (SessionId_Inbound 3%Z)) by reflexivity.
  split; [exact Ht|exact (terminal_then_unroutable _ 0%nat 0%nat e _ Ht)].
Defined.

Lemma connected_peer_stays_queryable_witness :
  0%nat ∈ Behaviour.connection_ids_of Example.connected_behaviour 0%nat /\
  0%nat ∈ Behaviour.connection_ids_of
            (run_behaviour_ops Example.connected_behaviour
               [OpSwarmEvent (Behaviour.FromSwarm_ConnectionClosed 0%nat 0%nat)]) 0%nat /\
  (Behaviour.send_query
     (run_behaviour_ops Example.connected_behaviour
        [OpSwarmEvent (Behaviour.FromSwarm_ConnectionClosed 0%nat 0%nat)]) 7%nat 0%nat).1 =
    Ok (Behaviour.next_outbound_session_id
          (run_behaviour_ops Example.connected_behaviour
             [OpSwarmEvent (Behaviour.FromSwarm_ConnectionClosed 0%nat 0%nat)])).
Proof.
  assert (Hc : 0%nat ∈ Behaviour.connection_ids_of Example.connected_behaviour 0%nat).
  { apply (bool_decide_unpack
             (0%nat ∈ Behaviour.connection_ids_of Example.connected_behaviour 0%nat)).
    vm_compute. exact I. }
  split; [exact Hc|exact (connected_peer_stays_queryable _ _ _ _ 7%nat Hc)].
Defined.

Lemma marked_inbound_ignored_forever_witness :
  let h := Handler.on_behaviour_event
             (Handler.new (Query:=nat) (Data:=nat) (IoError:=unit) Example.config 0%nat)
             (CloseSession (SessionId_Inbound 3%Z)) in
  let ops := [HOpConnectionEvent (Handler.FullyNegotiatedInbound 1%nat [] 3%Z); HOpPoll] in
  3%Z ∈ Handler.inbound_sessions_marked_to_end h /\
  3%Z ∈ Handler.inbound_sessions_marked_to_end (run_handler_ops h ops) /\
  Handler.on_behaviour_event (run_handler_ops h ops) (SendData 5%nat 3%Z) =
    run_handler_ops h ops.
Proof.
  intros h ops.
  assert (Hi : 3%Z ∈ Handler.inbound_sessions_marked_to_end h).
  { apply (bool_decide_unpack (3%Z ∈ Handler.inbound_sessions_marked_to_end h)).
    vm_compute. exact I. }
  split; [exact Hi|exact (marked_inbound_ignored_forever h _ ops 5%nat Hi)].
Defined.

Lemma outbound_session_stream_witness :
  let h := Handler.on_connection_event
             (Handler.new (Query:=nat) (Data:=nat) (IoError:=unit) Example.config 0%nat)
             (Handler.FullyNegotiatedOutbound
                [Handler.ReadData 4%nat; Handler.ReadData 5%nat; Handler.ReadEof] 2%Z) in
  let ev : Handler.ToBehaviourEvent nat nat unit := SessionClosedByPeer (SessionId_Outbound 2%Z) in
  Handler.id_to_inbound_session h = ∅ /\
  Handler.pending_events h = [] /\
  Handler.id_to_outbound_session h =
    {[2%Z := {| Handler.reads := map Handler.ReadData [4%nat; 5%nat] ++ [Handler.ReadEof];
                Handler.finished := false |}]} /\
  (handler_poll_n h (S (length [4%nat; 5%nat]))).1 =
    map (fun d => Ready (Handler.NotifyBehaviour (ReceivedData 2%Z d))) [4%nat; 5%nat] ++
      [Ready (Handler.NotifyBehaviour ev)] /\
  Handler.id_to_outbound_session (handler_poll_n h (S (length [4%nat; 5%nat]))).2 = ∅ /\
  (Handler.poll (handler_poll_n h (S (length [4%nat; 5%nat]))).2).1 = Pending.
Proof.
  intros h ev.
  assert (Hin : Handler.id_to_inbound_session h = ∅) by reflexivity.
  assert (Hp : Handler.pending_events h = []) by reflexivity.
  assert (Hout : Handler.id_to_outbound_session h =
    {[2%Z := {| Handler.reads := map Handler.ReadData [4%nat; 5%nat] ++ [Handler.ReadEof];
                Handler.finished := false |}]}) by reflexivity.
  split; [exact Hin|split; [exact Hp|split; [exact Hout|]]].
  exact (outbound_session_stream h 2%Z [4%nat; 5%nat] Handler.ReadEof ev Hin Hp Hout
           (or_introl (conj eq_refl eq_refl))).
Defined.

Lemma new_inbound_carries_own_peer_witness :
  let h := Handler.new (Query:=nat) (Data:=nat) (IoError:=unit) Example.config 0%nat in
  let ops := [HOpConnectionEvent (Handler.FullyNegotiatedInbound 1%nat [] 3%Z); HOpPoll] in
  (forall q i p, Handler.NotifyBehaviour (NewInboundSession q i p) ∈ Handler.pending_events h ->
     p = Handler.peer_id h) /\
  Handler.peer_id (run_handler_ops h ops) = Handler.peer_id h /\
  (forall q i p, Handler.NotifyBehaviour (NewInboundSession q i p) ∈
                   Handler.pending_events (run_handler_ops h ops) ->
     p = Handler.peer_id h).
Proof.
  intros h ops.
  assert (HP : forall q i p, Handler.NotifyBehaviour (NewInboundSession q i p) ∈
                               Handler.pending_events h -> p = Handler.peer_id h).
  { intros q i p Hx. simpl in Hx. by apply elem_of_nil in Hx. }
  split; [exact HP|exact (new_inbound_carries_own_peer h ops HP)].
Defined.

End ExtraFacts.
